(** * The Amber Restart codec of chemfiles (src/formats/AmberRestart.cpp)

    A shallow embedding of [AmberRestartFormat] and of the pieces of the
    library it is built on, followed by the properties of the codec:
    validation, single-frame reads and writes, unit-cell and array decoding
    with scale factors, and the write/read round trip.

    C++ [double] values are Rocq's primitive binary64 floats, so that
    [value *= scale_factor] is IEEE multiplication. C++ exceptions are the
    [Err] results of a state-and-error monad which keeps the state reached
    when the exception was thrown. *)

From Stdlib Require Import Floats ZArith NArith.
From stdpp Require Import gmap strings list.

#[local] Set Warnings "-inexact-float".
#[local] Open Scope string_scope.
#[local] Open Scope N_scope.
#[local] Open Scope list_scope.

(** ** Numbers *)

(** A C++ [double]. *)
Abbreviation double := PrimFloat.float.

(** Conversion of a [double] to a C++ [float] (binary32: 24 bits of
    precision, exponents below 128), rounding to nearest even, and back to
    [double] (exact). Zeros, infinities and NaN are kept. *)
Definition to_single (x : double) : double :=
  match Prim2SF x with
  | S754_finite s m e => SF2Prim (binary_round 24 128 s m e)
  | _ => x
  end.

#[global] Instance double_inhabited : Inhabited double := populate 0%float.

(** [static_cast<size_t>(-1)] on a 64-bit target. *)
Definition SIZE_MAX : N := 2 ^ 64 - 1.

(** ** Errors and the two monads *)

(** What the code throws. [format_error] is raised by the codec itself, with
    its message, and [assertion_failure] stands for a failed [assert]. The
    other errors are those of the container, after sections 4.1 and 7 of the
    specification: a lookup error (with the name looked up), a bounds error,
    a schema or data operation in the wrong phase, an I/O error. *)
Inductive error : Type :=
| format_error (msg : string)
| lookup_error (name : string)
| bounds_error (name : string)
| phase_error
| io_error (path : string)
| assertion_failure.

Inductive result (A : Type) : Type :=
| Ok (a : A)
| Err (e : error).
Arguments Ok {A} a.
Arguments Err {A} e.

Definition is_ok {A} (r : result A) : bool :=
  match r with Ok _ => true | Err _ => false end.

#[export] Instance result_ret : MRet result := λ A a, Ok a.
#[export] Instance result_bind : MBind result := λ A B k r,
  match r with
  | Ok a => k a
  | Err e => Err e
  end.
#[export] Instance result_fmap : FMap result := λ A B g r,
  match r with
  | Ok a => Ok (g a)
  | Err e => Err e
  end.

(** A computation over a mutable state [S] which may throw: the state comes
    back in both cases, as the objects a C++ function mutated before it threw
    stay mutated. *)
Definition M (S A : Type) : Type := S → result A * S.

Definition ret {S A} (a : A) : M S A := λ s, (Ok a, s).
Definition bind {S A B} (m : M S A) (k : A → M S B) : M S B := λ s,
  match m s with
  | (Ok a, s') => k a s'
  | (Err e, s') => (Err e, s')
  end.
Definition throw {S A} (e : error) : M S A := λ s, (Err e, s).
Definition gets {S A} (g : S → A) : M S A := λ s, (Ok (g s), s).
Definition modify {S} (g : S → S) : M S unit := λ s, (Ok tt, g s).
(** A fallible query which leaves the state alone. *)
Definition query {S A} (q : S → result A) : M S A := λ s, (q s, s).
(** A fallible update: on error the state is the one before the update. *)
Definition update {S} (u : S → result S) : M S unit := λ s,
  match u s with
  | Ok s' => (Ok tt, s')
  | Err e => (Err e, s)
  end.
(** Run a computation on a component of the state. *)
Definition zoom {S T A} (get : S → T) (set : T → S → S) (m : M T A) : M S A :=
  λ s, let '(r, t) := m (get s) in (r, set t s).
(** [assert(cond)]. *)
Definition assert {S} (cond : bool) : M S unit :=
  if cond then ret tt else throw assertion_failure.

Notation "x <- m ;; k" := (bind m (λ x, k))
  (at level 100, m at next level, right associativity,
   format "'[v' x  <-  m  ;;  '/' k ']'").
Notation "m ;;; k" := (bind m (λ _, k))
  (at level 100, right associativity,
   format "'[v' m  ;;;  '/' k ']'").

(** ** File modes (chemfiles/File.hpp) *)

Module File.
(** Modelled from the spec: the enumeration [File::Mode] of the missing
    File.hpp: read, append and write mode. *)
Inductive Mode : Type := READ | APPEND | WRITE.

(** Modelled from the spec: [File::Compression]; "any compression option"
    is any of its values but [DEFAULT]. *)
Inductive Compression : Type := DEFAULT | GZIP | BZIP2 | LZMA.

#[global] Instance Mode_eq_dec : EqDecision Mode.
Proof. solve_decision. Defined.
#[global] Instance Compression_eq_dec : EqDecision Compression.
Proof. solve_decision. Defined.
End File.

(** ** The container (chemfiles/files/NcFile.hpp) *)

Module nc.
(** Modelled from the spec: the element types of the missing NcFile.hpp
    which this codec uses. *)
Inductive NcType : Type := NcChar | NcDouble.

#[global] Instance NcType_eq_dec : EqDecision NcType.
Proof. solve_decision. Defined.

(** Modelled from the spec: the constant [nc::STRING_MAXLEN] of the missing
    NcFile.hpp, "the fixed max length" of a label. Its value plays no role
    below. *)
Definition STRING_MAXLEN : N := 10.
End nc.

Module NcFile.
Import nc.

(** The class [NcFile] of the missing NcFile.hpp is modelled after sections
    3 and 4.1 of the specification. *)

(** Modelled from the spec: the two phases of [NcFile], "mode: one of
    {DEFINE, DATA}". *)
Inductive NcMode : Type := DEFINE | DATA.

(** Modelled from the spec: an attribute of a variable, "string/numeric". A
    number is kept at the widest precision a container stores. *)
Inductive Attribute : Type :=
| StringAttribute (value : string)
| NumberAttribute (value : double).

(** Modelled from the spec: the "raw data buffer" of a variable, in row-major
    order, tagged with its element type. *)
Inductive Data : Type :=
| Chars (values : list string)
| Doubles (values : list double).

(** Modelled from the spec: a variable, "(element type, ordered list of
    dimension names, attribute mapping, raw data buffer)". *)
Record Var : Type := {
  dims : list string;
  attributes : gmap string Attribute;
  data : Data;
}.

(** Modelled from the spec: what a container holds, "dimensions: mapping
    name -> size", "variables: mapping name -> ...", "global_attributes:
    mapping name -> string". *)
Record Container : Type := {
  dimensions : gmap string N;
  variables : gmap string Var;
  global_attributes : gmap string string;
}.

(** Modelled from the spec: an open [NcFile], the container with its path,
    the mode it was opened in and its phase. *)
Record t : Type := {
  path : string;
  mode : File.Mode;
  nc_mode : NcMode;
  content : Container;
}.

(** Modelled from the spec: the accessor returned by [variable<T>(name)] and
    [add_variable<T>], which stands for the variable of that name. *)
Record NcVariable (T : NcType) : Type := { var_id : string }.
Arguments var_id {T} _.

(** Modelled from the spec: the element type of a data buffer. *)
Definition type_of (d : Data) : NcType :=
  match d with Chars _ => NcChar | Doubles _ => NcDouble end.

(** Modelled from the spec: the buffer of a variable which was declared and
    not written yet. *)
Definition no_data (T : NcType) : Data :=
  match T with NcChar => Chars [] | NcDouble => Doubles [] end.

(** Modelled from the spec: the container which [open] creates. *)
Definition empty : Container :=
  {| dimensions := ∅; variables := ∅; global_attributes := ∅ |}.

(** Modelled from the spec: replacing what an open [NcFile] holds. *)
Definition set_content (c : Container) (f : t) : t :=
  {| path := path f; mode := mode f; nc_mode := nc_mode f; content := c |}.

(** Modelled from the spec: declaring or overwriting one variable. *)
Definition set_variable (name : string) (v : Var) (f : t) : t :=
  set_content {| dimensions := dimensions (content f);
                 variables := <[name := v]> (variables (content f));
                 global_attributes := global_attributes (content f) |} f.

(** Modelled from the spec: [open(path, mode)] "opens existing (read) or
    creates (write) a container; fails with an I/O error if the underlying
    file cannot be opened". A created container is empty and in the
    definition phase, an existing one is in the data phase. *)
Definition open (disk : gmap string Container) (path : string)
    (mode : File.Mode) : result t :=
  match mode with
  | File.WRITE =>
      Ok {| path := path; mode := mode; nc_mode := DEFINE; content := empty |}
  | _ =>
      match disk !! path with
      | Some c => Ok {| path := path; mode := mode; nc_mode := DATA; content := c |}
      | None => Err (io_error path)
      end
  end.

(** Modelled from the spec: closing the handle leaves what was written
    under its path. *)
Definition close (f : t) (disk : gmap string Container) : gmap string Container :=
  match mode f with
  | File.READ => disk
  | _ => <[path f := content f]> disk
  end.

(** Modelled from the spec: [set_phase]. Staying in a phase is a no-op,
    going back from DATA to DEFINE is unsupported. *)
Definition set_nc_mode (m : NcMode) : M t unit :=
  update (λ f,
    match nc_mode f, m with
    | DATA, DEFINE => Err phase_error
    | _, _ => Ok {| path := path f; mode := mode f; nc_mode := m; content := content f |}
    end).

(** Modelled from the spec: "dimensions and variable schemas may be added
    only while in DEFINE". *)
Definition in_define {A} (f : t) (r : result A) : result A :=
  match nc_mode f with DEFINE => r | DATA => Err phase_error end.

(** Modelled from the spec: "data values may be written/read only while in
    DATA". *)
Definition in_data {A} (f : t) (r : result A) : result A :=
  match nc_mode f with DATA => r | DEFINE => Err phase_error end.

(** Modelled from the spec: [add_dimension(name, size)], "valid only in
    DEFINE phase; fail otherwise". *)
Definition add_dimension (name : string) (size : N) : M t unit :=
  update (λ f, in_define f (Ok (set_content
    {| dimensions := <[name := size]> (dimensions (content f));
       variables := variables (content f);
       global_attributes := global_attributes (content f) |} f))).

(** Modelled from the spec: [add_global_attribute(name, value)], "valid only
    in DEFINE phase; fail otherwise". *)
Definition add_global_attribute (name value : string) : M t unit :=
  update (λ f, in_define f (Ok (set_content
    {| dimensions := dimensions (content f);
       variables := variables (content f);
       global_attributes := <[name := value]> (global_attributes (content f)) |} f))).

(** Modelled from the spec: [add_variable(name, type, dim_names...)], "valid
    only in DEFINE phase; fail otherwise"; it returns the accessor. *)
Definition add_variable (T : NcType) (name : string) (dimensions : list string)
    : M t (NcVariable T) :=
  update (λ f, in_define f (Ok (set_variable name
    {| dims := dimensions; attributes := ∅; data := no_data T |} f))) ;;;
  ret {| var_id := name |}.

(** Modelled from the spec: [dimension(name) -> size] "fails with a lookup
    error if the dimension does not exist". *)
Definition dimension (f : t) (name : string) : result N :=
  match dimensions (content f) !! name with
  | Some size => Ok size
  | None => Err (lookup_error name)
  end.

(** Modelled from the spec: [optional_dimension(name, default)] "returns
    default if the dimension does not exist". *)
Definition optional_dimension (f : t) (name : string) (default : N) : N :=
  match dimensions (content f) !! name with
  | Some size => size
  | None => default
  end.

(** Modelled from the spec: [variable_exists(name) -> bool]. *)
Definition variable_exists (f : t) (name : string) : bool :=
  bool_decide (is_Some (variables (content f) !! name)).

(** Modelled from the spec: [global_attribute(name) -> string or absent]. *)
Definition global_attribute (f : t) (name : string) : option string :=
  global_attributes (content f) !! name.

(** Modelled from the spec: [variable(name)] "fails with a lookup error if
    the variable is absent or of a mismatched element type". *)
Definition variable (T : NcType) (f : t) (name : string) : result (NcVariable T) :=
  match variables (content f) !! name with
  | Some v =>
      if decide (type_of (data v) = T) then Ok {| var_id := name |}
      else Err (lookup_error name)
  | None => Err (lookup_error name)
  end.

(** Modelled from the spec: the variable an accessor stands for. *)
Definition find {T} (f : t) (var : NcVariable T) : result Var :=
  match variables (content f) !! var_id var with
  | Some v => Ok v
  | None => Err (lookup_error (var_id var))
  end.

(** Modelled from the spec: the shape of a variable, "the cross product of
    the named dimensions' sizes, in declaration order". *)
Definition shape (f : t) (v : Var) : result (list N) :=
  mapM (dimension f) (dims v).

(** Modelled from the spec: the number of cells of a hyperslab. *)
Definition hyperslab_size (count : list N) : N := foldr N.mul 1 count.

(** Modelled from the spec: "bounds must match declared dimension sizes,
    otherwise a bounds error". *)
Definition check_bounds (f : t) (name : string) (v : Var) (start count : list N)
    : result unit :=
  sh ← shape f v;
  if decide (start = (λ _, 0) <$> sh ∧ count = sh) then Ok tt
  else Err (bounds_error name).

(** Modelled from the spec: the accessor's [get(start, count) -> buffer].
    The buffer always has one value per cell of the hyperslab; cells never
    written read as the fill value. *)
Definition get (f : t) (var : NcVariable NcDouble) (start count : list N)
    : result (list double) :=
  in_data f (
    v ← find f var;
    check_bounds f (var_id var) v start count ;;
    match data v with
    | Doubles values =>
        Ok (resize (N.to_nat (hyperslab_size count)) 0%float values)
    | Chars _ => Err (lookup_error (var_id var))
    end).

(** Modelled from the spec: the accessor's [add(start, count, buffer)]. *)
Definition add (var : NcVariable NcDouble) (start count : list N)
    (buffer : list double) : M t unit :=
  update (λ f, in_data f (
    v ← find f var;
    check_bounds f (var_id var) v start count ;;
    if decide (N.of_nat (length buffer) = hyperslab_size count) then
      Ok (set_variable (var_id var)
            {| dims := dims v; attributes := attributes v; data := Doubles buffer |} f)
    else Err (bounds_error (var_id var)))).

(** Modelled from the spec: the character accessor's [add], which stores
    fixed labels. *)
Definition add_chars (var : NcVariable NcChar) (labels : list string) : M t unit :=
  update (λ f, in_data f (
    v ← find f var;
    Ok (set_variable (var_id var)
          {| dims := dims v; attributes := attributes v; data := Chars labels |} f))).

(** Modelled from the spec: the accessor's [attribute_exists]. *)
Definition attribute_exists {T} (f : t) (var : NcVariable T) (name : string) : bool :=
  match variables (content f) !! var_id var with
  | Some v => bool_decide (is_Some (attributes v !! name))
  | None => false
  end.

(** Modelled from the spec: the accessor's [float_attribute], the value of
    a numeric attribute; the caller stores it in a [float]. *)
Definition float_attribute {T} (f : t) (var : NcVariable T) (name : string)
    : result double :=
  v ← find f var;
  match attributes v !! name with
  | Some (NumberAttribute value) => Ok value
  | _ => Err (lookup_error name)
  end.

(** Modelled from the spec: the accessor's [add_string_attribute]. *)
Definition add_string_attribute {T} (var : NcVariable T) (name value : string)
    : M t unit :=
  update (λ f,
    v ← find f var;
    Ok (set_variable (var_id var)
          {| dims := dims v;
             attributes := <[name := StringAttribute value]> (attributes v);
             data := data v |} f)).
End NcFile.

(** ** The frame (chemfiles/types.hpp, UnitCell.hpp, Frame.hpp) *)

Module Vector3D.
(** Modelled from the spec: the class [Vector3D] of the missing types.hpp,
    a "3-component floating-point vector" indexed by 0, 1 and 2. *)
Record t : Type := mk { x : double; y : double; z : double }.

(** Modelled from the spec: [v[k]]. *)
Definition get (v : t) (k : nat) : double :=
  match k with
  | O => x v
  | S O => y v
  | _ => z v
  end.

(** Modelled from the spec: [v[k] = value]. *)
Definition set (k : nat) (value : double) (v : t) : t :=
  match k with
  | O => mk value (y v) (z v)
  | S O => mk (x v) value (z v)
  | _ => mk (x v) (y v) value
  end.

(** Modelled from the spec: [Vector3D()], the entries of a resized array. *)
Definition zero : t := mk 0 0 0.

#[global] Instance inhabited : Inhabited t := populate zero.
End Vector3D.

Module UnitCell.
(** Modelled from the spec: the class [UnitCell] of the missing
    UnitCell.hpp, an immutable value of "three lengths (a, b, c) and three
    angles (alpha, beta, gamma)", "constructible from six scalars"; the shape
    classification is derived from them and is left out. *)
Record t : Type := mk {
  a : double; b : double; c : double;
  alpha : double; beta : double; gamma : double;
}.

(** Modelled from the spec: [UnitCell()], "the empty/default cell", with
    "zero lengths"; the specification leaves its angles open, they are right
    angles here. *)
Definition default : t := mk 0 0 0 90 90 90.
End UnitCell.

Module Frame.
(** Modelled from the spec: the class [Frame] of the missing Frame.hpp, as
    far as the codec uses it: "resize(atomCount), mutable position-array
    access, optional mutable velocity-array access plus an add velocities
    operation, and cell get/set". *)
Record t : Type := {
  cell : UnitCell.t;
  positions : list Vector3D.t;
  velocities : option (list Vector3D.t);
}.

(** Modelled from the spec: [Frame()], no atom, the default cell, no
    velocities. *)
Definition empty : t :=
  {| cell := UnitCell.default; positions := []; velocities := None |}.

(** Modelled from the spec: [size()], the "atom count". *)
Definition size (frame : t) : nat := length (positions frame).

(** Modelled from the spec: "cell get/set". *)
Definition set_cell (cell : UnitCell.t) (frame : t) : t :=
  {| cell := cell; positions := positions frame; velocities := velocities frame |}.

(** Modelled from the spec: "mutable position-array access", writing
    through [positions()]. *)
Definition set_positions (array : list Vector3D.t) (frame : t) : t :=
  {| cell := cell frame; positions := array; velocities := velocities frame |}.

(** Modelled from the spec: "optional mutable velocity-array access",
    writing through [*velocities()]. *)
Definition set_velocities (array : list Vector3D.t) (frame : t) : t :=
  {| cell := cell frame; positions := positions frame; velocities := Some array |}.

(** Modelled from the spec: the array behind [*frame.velocities()]. *)
Definition velocities_span (frame : t) : list Vector3D.t :=
  default [] (velocities frame).

(** Modelled from the spec: [resize(atomCount)], which cuts or pads every
    per-atom array. *)
Definition resize (natoms : N) (frame : t) : t :=
  {| cell := cell frame;
     positions := list.resize (N.to_nat natoms) Vector3D.zero (positions frame);
     velocities := list.resize (N.to_nat natoms) Vector3D.zero <$> velocities frame |}.

(** Modelled from the spec: the "add velocities" operation, which
    "allocates velocity storage" unless the frame has it. *)
Definition add_velocities (frame : t) : t :=
  match velocities frame with
  | Some _ => frame
  | None =>
      {| cell := cell frame; positions := positions frame;
         velocities := Some (replicate (size frame) Vector3D.zero) |}
  end.

(** Modelled from the spec: the invariant of a frame, "position/velocity
    arrays: ... length equal to atom count". *)
Definition wf (frame : t) : Prop :=
  ∀ array, velocities frame = Some array → length array = size frame.
End Frame.

(** ** The codec (src/formats/AmberRestart.cpp) *)

Import nc.

(** A call of [warning(context, message, args...)]: the message keeps its
    [{}] placeholders, next to the numbers to be put there. *)
Record Warning : Type := warning {
  context : string;
  message : string;
  arguments : list N;
}.

Record AmberRestartFormat : Type := {
  (** Associated NetCDF file. *)
  file_ : NcFile.t;
  (** Has the step been read? *)
  step_done_ : bool;
  (** Was the associated file validated? *)
  validated_ : bool;
}.

Definition set_file_ (file : NcFile.t) (self : AmberRestartFormat) : AmberRestartFormat :=
  {| file_ := file; step_done_ := step_done_ self; validated_ := validated_ self |}.
Definition set_step_done_ (done : bool) (self : AmberRestartFormat) : AmberRestartFormat :=
  {| file_ := file_ self; step_done_ := done; validated_ := validated_ self |}.
Definition set_validated_ (valid : bool) (self : AmberRestartFormat) : AmberRestartFormat :=
  {| file_ := file_ self; step_done_ := step_done_ self; validated_ := valid |}.

(** A container operation run on the codec's own [file_]. *)
Definition on_file {A} (m : M NcFile.t A) : M AmberRestartFormat A :=
  zoom file_ set_file_ m.

(** Check the validity of a NetCDF file. The second component lists the
    warnings sent on the way. *)
Definition is_valid (file_ : NcFile.t) (natoms : N) : result bool * list Warning :=
  let writing := negb (natoms =? SIZE_MAX) in
  if negb (bool_decide (NcFile.global_attribute file_ "Conventions" = Some "AMBERRESTART")) then
    (Ok false,
     if negb writing then
       [warning "Amber Restart reader" "we can only read AMBER convention" []]
     else [])
  else if negb (bool_decide (NcFile.global_attribute file_ "ConventionVersion" = Some "1.0")) then
    (Ok false,
     if negb writing then
       [warning "Amber Restart reader" "we can only read version 1.0 of AMBER convention" []]
     else [])
  else
    match NcFile.dimension file_ "spatial" with
    | Err e => (Err e, [])
    | Ok spatial =>
        if negb (spatial =? 3) then
          (Ok false,
           if negb writing then
             [warning "Amber Restart reader"
                "wrong size for spatial dimension: should be 3, is {}" [spatial]]
           else [])
        else if writing then
          match NcFile.dimension file_ "atom" with
          | Err e => (Err e, [])
          | Ok atom =>
              if negb (atom =? natoms) then
                (Ok false,
                 [warning "Amber Restart writer"
                    "wrong size for atoms dimension: should be {}, is {}" [natoms; atom]])
              else (Ok true, [])
          end
        else (Ok true, [])
    end.

(** The constructor: [file_(std::move(path), mode)] opens the container,
    then the body runs. A constructor which throws leaves no object. *)
Definition AmberRestartFormat_new (disk : gmap string NcFile.Container)
    (path : string) (mode : File.Mode) (compression : File.Compression)
    : result AmberRestartFormat * list Warning :=
  match NcFile.open disk path mode with
  | Err e => (Err e, [])
  | Ok file =>
      let self := {| file_ := file; step_done_ := false; validated_ := false |} in
      let '(checked, warnings) :=
        match NcFile.mode file with
        | File.READ =>
            match is_valid file SIZE_MAX with
            | (Ok true, warnings) => (Ok (set_validated_ true self), warnings)
            | (Ok false, warnings) =>
                (Err (format_error
                   ("invalid AMBER Restart file at '" +:+ NcFile.path file +:+ "'")),
                 warnings)
            | (Err e, warnings) => (Err e, warnings)
            end
        | File.APPEND =>
            (Err (format_error
               "append mode ('a') is not supported with AMBER Restart format"),
             @nil Warning)
        | File.WRITE => (Ok self, [])
        end in
      (self ← checked;
       if decide (compression ≠ File.DEFAULT) then
         Err (format_error "compression is not supported with NetCDF format")
       else Ok self,
       warnings)
  end.

Definition nsteps : N := 1.

(** [assert(cond)] in a function which touches no state. *)
Definition check (cond : bool) : result unit :=
  if cond then Ok tt else Err assertion_failure.

(** Read the unit cell, the file is assumed to be valid. *)
Definition read_cell (self : AmberRestartFormat) : result UnitCell.t :=
  let file_ := file_ self in
  if negb (NcFile.variable_exists file_ "cell_lengths")
     || negb (NcFile.variable_exists file_ "cell_angles") then
    Ok UnitCell.default (* No UnitCell information *)
  else if negb (NcFile.optional_dimension file_ "cell_spatial" 0 =? 3)
          || negb (NcFile.optional_dimension file_ "cell_angular" 0 =? 3) then
    Ok UnitCell.default (* No UnitCell information *)
  else
    length_var ← NcFile.variable NcDouble file_ "cell_lengths";
    angles_var ← NcFile.variable NcDouble file_ "cell_angles";
    let start := [0] in
    let count := [3] in
    length ← NcFile.get file_ length_var start count;
    angles ← NcFile.get file_ angles_var start count;
    check (bool_decide (List.length length = 3%nat)) ;;
    check (bool_decide (List.length angles = 3%nat)) ;;
    length ←
      (if NcFile.attribute_exists file_ length_var "scale_factor" then
         scale_factor ← to_single <$> NcFile.float_attribute file_ length_var "scale_factor";
         Ok (alter (λ v, v * scale_factor)%float 2%nat
              (alter (λ v, v * scale_factor)%float 1%nat
                (alter (λ v, v * scale_factor)%float 0%nat length)))
       else Ok length);
    angles ←
      (if NcFile.attribute_exists file_ angles_var "scale_factor" then
         scale_factor ← to_single <$> NcFile.float_attribute file_ angles_var "scale_factor";
         Ok (alter (λ v, v * scale_factor)%float 2%nat
              (alter (λ v, v * scale_factor)%float 1%nat
                (alter (λ v, v * scale_factor)%float 0%nat angles)))
       else Ok angles);
    Ok (UnitCell.mk (length !!! 0%nat) (length !!! 1%nat) (length !!! 2%nat)
                    (angles !!! 0%nat) (angles !!! 1%nat) (angles !!! 2%nat)).

(** [array[i][k] = value] *)
Definition assign (i k : nat) (value : double) (array : list Vector3D.t)
    : list Vector3D.t :=
  alter (Vector3D.set k value) i array.

(** Generic function to read an std::vector<Vector3D>, the file is assumed
    to be valid. The state is the array behind the span. *)
Definition read_array (self : AmberRestartFormat) (name : string)
    : M (list Vector3D.t) unit :=
  array_var <- query (λ _, NcFile.variable NcDouble (file_ self) name) ;;
  natoms <- query (λ _, NcFile.dimension (file_ self) "atom") ;;
  size <- gets List.length ;;
  assert (N.of_nat size =? natoms) ;;;
  let start := [0; 0] in
  let count := [natoms; 3] in
  data <- query (λ _, NcFile.get (file_ self) array_var start count) ;;
  data <-
    (if NcFile.attribute_exists (file_ self) array_var "scale_factor" then
       scale_factor <- query (λ _,
         to_single <$> NcFile.float_attribute (file_ self) array_var "scale_factor") ;;
       ret ((λ value, value * scale_factor)%float <$> data)
     else ret data) ;;
  modify (λ array,
    foldl (λ array i,
      assign i 2 (data !!! (3 * i + 2)%nat)
        (assign i 1 (data !!! (3 * i + 1)%nat)
          (assign i 0 (data !!! (3 * i + 0)%nat) array)))
      array (seq 0 (N.to_nat natoms))).

Definition on_self {A} (m : M AmberRestartFormat A) : M (AmberRestartFormat * Frame.t) A :=
  zoom fst (λ self s, (self, s.2)) m.
Definition on_frame {A} (m : M Frame.t A) : M (AmberRestartFormat * Frame.t) A :=
  zoom snd (λ frame s, (s.1, frame)) m.

Definition read_step (step : N) : M (AmberRestartFormat * Frame.t) unit :=
  if negb (step =? 0) then
    throw (format_error "AMBER Restart format only supports reading one frame")
  else
    cell <- on_self (query read_cell) ;;
    on_frame (modify (Frame.set_cell cell)) ;;;
    natoms <- on_self (query (λ self, NcFile.dimension (file_ self) "atom")) ;;
    on_frame (modify (Frame.resize natoms)) ;;;
    self <- gets fst ;;
    on_frame (zoom Frame.positions Frame.set_positions
                (read_array self "coordinates")) ;;;
    (if NcFile.variable_exists (file_ self) "velocities" then
       on_frame (modify Frame.add_velocities) ;;;
       on_frame (zoom Frame.velocities_span Frame.set_velocities
                   (read_array self "velocities"))
     else ret tt) ;;;
    on_self (modify (set_step_done_ true)).

Definition read : M (AmberRestartFormat * Frame.t) unit :=
  step_done <- gets (λ s, step_done_ s.1) ;;
  if step_done then
    throw (format_error "AMBER Restart format only supports reading one frame")
  else read_step 0.

(** Modelled from the spec: the macro [CHEMFILES_VERSION] of the missing
    config.h, "authorship metadata". Its value plays no role below. *)
Definition CHEMFILES_VERSION : string := "0.9".

(** Initialize a file, assuming that it is empty. *)
Definition initialize (natoms : N) (with_velocities : bool) : M NcFile.t unit :=
  NcFile.set_nc_mode NcFile.DEFINE ;;;

  NcFile.add_global_attribute "Conventions" "AMBERRESTART" ;;;
  NcFile.add_global_attribute "ConventionVersion" "1.0" ;;;
  NcFile.add_global_attribute "program" "Chemfiles" ;;;
  NcFile.add_global_attribute "programVersion" CHEMFILES_VERSION ;;;

  NcFile.add_dimension "spatial" 3 ;;;
  NcFile.add_dimension "atom" natoms ;;;
  NcFile.add_dimension "cell_spatial" 3 ;;;
  NcFile.add_dimension "cell_angular" 3 ;;;
  NcFile.add_dimension "label" STRING_MAXLEN ;;;

  spatial <- NcFile.add_variable NcChar "spatial" ["spatial"] ;;
  cell_spatial <- NcFile.add_variable NcChar "cell_spatial" ["cell_spatial"] ;;
  cell_angular <- NcFile.add_variable NcChar "cell_angular" ["cell_angular"; "label"] ;;

  coordinates <- NcFile.add_variable NcDouble "coordinates" ["atom"; "spatial"] ;;
  NcFile.add_string_attribute coordinates "units" "angstrom" ;;;

  cell_lenght <- NcFile.add_variable NcDouble "cell_lengths" ["cell_spatial"] ;;
  NcFile.add_string_attribute cell_lenght "units" "angstrom" ;;;

  cell_angles <- NcFile.add_variable NcDouble "cell_angles" ["cell_angular"] ;;
  NcFile.add_string_attribute cell_angles "units" "degree" ;;;

  (if with_velocities then
     velocities <- NcFile.add_variable NcDouble "velocities" ["atom"; "spatial"] ;;
     NcFile.add_string_attribute velocities "units" "angstrom/picosecond"
   else ret tt) ;;;
  NcFile.set_nc_mode NcFile.DATA ;;;

  NcFile.add_chars spatial ["xyz"] ;;;
  NcFile.add_chars cell_spatial ["abc"] ;;;
  NcFile.add_chars cell_angular ["alpha"; "beta"; "gamma"].

(** Write an std::vector<Vector3D> to the file, as a variable with the name
    [name]. [natoms * 3] cannot wrap around: the array itself holds
    [natoms] vectors of three doubles. *)
Definition write_array (array : list Vector3D.t) (name : string)
    : M AmberRestartFormat unit :=
  var <- query (λ self, NcFile.variable NcDouble (file_ self) name) ;;
  let natoms := List.length array in
  let start := [0; 0] in
  let count := [N.of_nat natoms; 3] in
  let data :=
    foldl (λ data i,
      <[(3 * i + 2)%nat := Vector3D.get (array !!! i) 2]>
        (<[(3 * i + 1)%nat := Vector3D.get (array !!! i) 1]>
          (<[(3 * i + 0)%nat := Vector3D.get (array !!! i) 0]> data)))
      (replicate (natoms * 3) 0%float) (seq 0 natoms) in
  on_file (NcFile.add var start count data).

(** Write an UnitCell to the file. *)
Definition write_cell (cell : UnitCell.t) : M AmberRestartFormat unit :=
  length <- query (λ self, NcFile.variable NcDouble (file_ self) "cell_lengths") ;;
  angles <- query (λ self, NcFile.variable NcDouble (file_ self) "cell_angles") ;;
  let length_data := [UnitCell.a cell; UnitCell.b cell; UnitCell.c cell] in
  let angles_data := [UnitCell.alpha cell; UnitCell.beta cell; UnitCell.gamma cell] in
  let start := [0] in
  let count := [3] in
  on_file (NcFile.add length start count length_data) ;;;
  on_file (NcFile.add angles start count angles_data).

Definition write (frame : Frame.t) : M AmberRestartFormat unit :=
  step_done <- gets step_done_ ;;
  if step_done then
    throw (format_error "AMBER Restart format only supports writing one frame")
  else
    let natoms := N.of_nat (Frame.size frame) in
    (* If we created the file, let's initialize it. *)
    validated <- gets validated_ ;;
    (if negb validated then
       on_file (initialize natoms (bool_decide (is_Some (Frame.velocities frame)))) ;;;
       valid <- query (λ self, (is_valid (file_ self) natoms).1) ;;
       assert valid ;;;
       modify (set_validated_ true)
     else ret tt) ;;;
    write_cell (Frame.cell frame) ;;;
    write_array (Frame.positions frame) "coordinates" ;;;
    match Frame.velocities frame with
    | Some velocities => write_array velocities "velocities"
    | None => ret tt
    end ;;;
    modify (set_step_done_ true).

(** * Vocabulary of the properties *)

(** ** Validation *)

(** The four checks of the convention, each as a total test on the
    container; an absent attribute or dimension fails its test. *)
Definition conventions_ok (file : NcFile.t) : bool :=
  bool_decide (NcFile.global_attribute file "Conventions" = Some "AMBERRESTART").
Definition version_ok (file : NcFile.t) : bool :=
  bool_decide (NcFile.global_attribute file "ConventionVersion" = Some "1.0").
Definition spatial_ok (file : NcFile.t) : bool :=
  bool_decide (NcFile.dimensions (NcFile.content file) !! "spatial" = Some 3).
Definition atom_ok (file : NcFile.t) (expected : option N) : bool :=
  match expected with
  | Some natoms =>
      bool_decide (NcFile.dimensions (NcFile.content file) !! "atom" = Some natoms)
  | None => true
  end.

(** Their conjunction, in order. *)
Definition all_checks (file : NcFile.t) (expected : option N) : bool :=
  conventions_ok file && version_ok file && spatial_ok file && atom_ok file expected.

(** The atom count [is_valid] expects: none on the read path, where the
    caller passes [static_cast<size_t>(-1)]. *)
Definition expected_atoms (natoms : N) : option N :=
  if natoms =? SIZE_MAX then None else Some natoms.

(** The dimension check, if any, which is reached while its dimension is
    absent from the container. *)
Definition reaches_absent (file : NcFile.t) (expected : option N) : option string :=
  if conventions_ok file && version_ok file then
    match NcFile.dimensions (NcFile.content file) !! "spatial" with
    | None => Some "spatial"
    | Some spatial =>
        if (spatial =? 3) && bool_decide (is_Some expected) then
          match NcFile.dimensions (NcFile.content file) !! "atom" with
          | None => Some "atom"
          | Some _ => None
          end
        else None
    end
  else None.

(** ** Single-frame violations *)

Definition one_frame_read : error :=
  format_error "AMBER Restart format only supports reading one frame".
Definition one_frame_write : error :=
  format_error "AMBER Restart format only supports writing one frame".

(** ** Arrays and scale factors *)

(** The components of a vector, in storage order. *)
Definition components (v : Vector3D.t) : list double :=
  [Vector3D.x v; Vector3D.y v; Vector3D.z v].

(** The flat buffer of an array: three values per atom, in atom order. *)
Definition flatten (array : list Vector3D.t) : list double :=
  array ≫= components.

(** Group each run of three consecutive values into one vector. *)
Fixpoint group3 (data : list double) : list Vector3D.t :=
  match data with
  | x :: y :: z :: rest => Vector3D.mk x y z :: group3 rest
  | _ => []
  end.

(** The [scale_factor] attribute stored with a variable, if any. *)
Definition stored_scale_factor (file : NcFile.t) (name : string)
    : option NcFile.Attribute :=
  v ← NcFile.variables (NcFile.content file) !! name;
  NcFile.attributes v !! "scale_factor".

(** A raw value after the scale factor, which is read as a C++ [float]. *)
Definition scaled (scale_factor : option double) (value : double) : double :=
  match scale_factor with
  | Some s => (value * to_single s)%float
  | None => value
  end.

(** ** Written containers *)

(** The container holds, under [name], a variable with these raw doubles. *)
Definition stores (file : NcFile.t) (name : string) (values : list double) : Prop :=
  ∃ v, NcFile.variables (NcFile.content file) !! name = Some v ∧
       NcFile.data v = NcFile.Doubles values.

(** The container declares a variable [name]. *)
Definition declares (file : NcFile.t) (name : string) : Prop :=
  is_Some (NcFile.variables (NcFile.content file) !! name).

(** A handle just made by the constructor in write mode. *)
Definition fresh (path : string) : AmberRestartFormat :=
  {| file_ := {| NcFile.path := path; NcFile.mode := File.WRITE;
                 NcFile.nc_mode := NcFile.DEFINE; NcFile.content := NcFile.empty |};
     step_done_ := false; validated_ := false |}.

Definition variable_of (type : NcType) (dimensions : list string) (units : string)
    : NcFile.Var :=
  {| NcFile.dims := dimensions;
     NcFile.attributes := {[ "units" := NcFile.StringAttribute units ]};
     NcFile.data := NcFile.no_data type |}.

Definition with_data (data : NcFile.Data) (v : NcFile.Var) : NcFile.Var :=
  {| NcFile.dims := NcFile.dims v; NcFile.attributes := NcFile.attributes v;
     NcFile.data := data |}.

Definition label_of (dimensions : list string) (labels : list string) : NcFile.Var :=
  {| NcFile.dims := dimensions; NcFile.attributes := ∅;
     NcFile.data := NcFile.Chars labels |}.

Definition schema_attributes : gmap string string :=
  <["Conventions" := "AMBERRESTART"]> (<["ConventionVersion" := "1.0"]>
    (<["program" := "Chemfiles"]> (<["programVersion" := CHEMFILES_VERSION]> ∅))).

Definition schema_dimensions (natoms : N) : gmap string N :=
  <["spatial" := 3]> (<["atom" := natoms]> (<["cell_spatial" := 3]>
    (<["cell_angular" := 3]> (<["label" := STRING_MAXLEN]> ∅)))).

Definition schema_labels : gmap string NcFile.Var :=
  <["spatial" := label_of ["spatial"] ["xyz"]]>
    (<["cell_spatial" := label_of ["cell_spatial"] ["abc"]]>
      (<["cell_angular" :=
           label_of ["cell_angular"; "label"] ["alpha"; "beta"; "gamma"]]> ∅)).

(** The schema which [initialize] defines in an empty container. *)
Definition initialized (natoms : N) (with_velocities : bool) : NcFile.Container :=
  {| NcFile.dimensions := schema_dimensions natoms;
     NcFile.variables :=
       let vars :=
         <["coordinates" := variable_of NcDouble ["atom"; "spatial"] "angstrom"]>
           (<["cell_lengths" := variable_of NcDouble ["cell_spatial"] "angstrom"]>
             (<["cell_angles" := variable_of NcDouble ["cell_angular"] "degree"]>
               schema_labels)) in
       if with_velocities then
         <["velocities" :=
             variable_of NcDouble ["atom"; "spatial"] "angstrom/picosecond"]> vars
       else vars;
     NcFile.global_attributes := schema_attributes |}.

(** The container which a first [write(frame)] leaves behind. *)
Definition written (frame : Frame.t) : NcFile.Container :=
  let cell := Frame.cell frame in
  {| NcFile.dimensions := schema_dimensions (N.of_nat (Frame.size frame));
     NcFile.variables :=
       let vars :=
         <["coordinates" :=
             with_data (NcFile.Doubles (flatten (Frame.positions frame)))
               (variable_of NcDouble ["atom"; "spatial"] "angstrom")]>
           (<["cell_lengths" :=
                with_data
                  (NcFile.Doubles [UnitCell.a cell; UnitCell.b cell; UnitCell.c cell])
                  (variable_of NcDouble ["cell_spatial"] "angstrom")]>
             (<["cell_angles" :=
                  with_data
                    (NcFile.Doubles
                       [UnitCell.alpha cell; UnitCell.beta cell; UnitCell.gamma cell])
                    (variable_of NcDouble ["cell_angular"] "degree")]>
               schema_labels)) in
       match Frame.velocities frame with
       | Some velocities =>
           <["velocities" :=
               with_data (NcFile.Doubles (flatten velocities))
                 (variable_of NcDouble ["atom"; "spatial"] "angstrom/picosecond")]>
             vars
       | None => vars
       end;
     NcFile.global_attributes := schema_attributes |}.

Definition file_of (path : string) (mode : File.Mode) (content : NcFile.Container)
    : NcFile.t :=
  {| NcFile.path := path; NcFile.mode := mode; NcFile.nc_mode := NcFile.DATA;
     NcFile.content := content |}.

(** A container operation which, when it succeeds, removes no variable. *)
Definition keeps_variables {A} (m : M NcFile.t A) : Prop :=
  ∀ f a f' name, m f = (Ok a, f') → declares f name → declares f' name.

(** A container operation which, when it succeeds, leaves a variable [name]
    in the container. *)
Definition declaring {A} (name : string) (m : M NcFile.t A) : Prop :=
  ∀ f a f', m f = (Ok a, f') → declares f' name.

(** ** Vocabulary of the further properties *)

(** A container operation which, when it succeeds, gives no variable a
    [scale_factor] it did not have. *)
Definition adds_no_scale_factor {A} (m : M NcFile.t A) : Prop :=
  ∀ f a f' name attribute,
    m f = (Ok a, f') →
    stored_scale_factor f' name = Some attribute →
    stored_scale_factor f name = Some attribute.

(** A step of the codec which leaves [step_done_] as it is, whatever its
    outcome. *)
Definition keeps_step_done {A} (m : M AmberRestartFormat A) : Prop :=
  ∀ s, step_done_ (m s).2 = step_done_ s.

(** A sequence of steps of the codec which sets [step_done_] when it succeeds
    and leaves it as it is when it fails. *)
Definition consumes_on_success (m : M AmberRestartFormat unit) : Prop :=
  ∀ s, step_done_ (m s).2 = if is_ok (m s).1 then true else step_done_ s.

(** An array in which every component of every vector went through the scale
    factor of its variable. *)
Definition scaled_vector (s : option double) (v : Vector3D.t) : Vector3D.t :=
  Vector3D.mk (scaled s (Vector3D.x v)) (scaled s (Vector3D.y v))
    (scaled s (Vector3D.z v)).

(** ** Single precision *)

(** The number [±m·2^e], counted in units of [2^-1074], the smallest positive
    [double]: every finite [double] is a whole number of these units. *)
Definition binary (s : bool) (m e : Z) : Z :=
  ((if s then -1 else 1) * (m * 2 ^ (e + 1074)))%Z.

(** The number a finite [double] stands for, in these units. *)
Definition exact_value (x : double) : option Z :=
  match Prim2SF x with
  | S754_zero _ => Some 0%Z
  | S754_finite s m e => Some (binary s (Z.pos m) e)
  | S754_infinity _ | S754_nan => None
  end.

(** The sign bit of a [double]. *)
Definition negative (x : double) : bool :=
  match Prim2SF x with
  | S754_zero s | S754_infinity s | S754_finite s _ _ => s
  | S754_nan => false
  end.

(** The finite numbers of a C++ [float] (binary32): a mantissa of 24 bits
    and an exponent from -149 to 104. *)
Definition float_value (n : Z) : Prop :=
  ∃ s m e, (0 ≤ m < 2 ^ 24 ∧ -149 ≤ e ≤ 104 ∧ n = binary s m e)%Z.

(** The same with the mantissa and the exponent in normal form, and an even
    mantissa. *)
Definition even_significand (n : Z) : Prop :=
  ∃ s m e, (Z.even m = true ∧ 0 ≤ m < 2 ^ 24 ∧ -149 ≤ e ≤ 104 ∧
            (2 ^ 23 ≤ m ∨ e = -149) ∧ n = binary s m e)%Z.

(** A [double] which a C++ [float] holds: an infinity, a NaN, or a finite
    number of binary32. *)
Definition is_float (x : double) : Prop :=
  ∀ n, exact_value x = Some n → float_value n.

(** [r] is [x] rounded to a C++ [float], IEEE 754 rounding to nearest, ties
    to even: [r] is a float of the sign of [x]; below [2^128 - 2^103] in
    magnitude, no float is nearer to [x] than [r], and where another float is
    as near, the mantissa of [r] is even; from there on [r] is the infinity
    of the sign of [x]. Infinities and NaN are kept. *)
Definition float_rounded (x r : double) : Prop :=
  is_float r ∧ negative r = negative x ∧
  match exact_value x with
  | None => r = x
  | Some n =>
      if (Z.abs n <? binary false (2 ^ 25 - 1) 103)%Z then
        ∃ k, exact_value r = Some k ∧
          (∀ j, float_value j → Z.abs (k - n) ≤ Z.abs (j - n))%Z ∧
          (∀ j, float_value j → j ≠ k → Z.abs (j - n) = Z.abs (k - n) →
                even_significand k)
      else r = if negative x then neg_infinity else infinity
  end.

(** The integer nearest to [n / u], the even one of the two when [n / u]
    is halfway between them. *)
Definition nearest_even (n u : Z) : Z :=
  let q := (n / u)%Z in
  match (2 * (n mod u) ?= u)%Z with
  | Lt => q
  | Eq => if Z.even q then q else (q + 1)%Z
  | Gt => (q + 1)%Z
  end.

(** ** Sample containers and frames *)

Module Samples.
Definition v3 := Vector3D.mk.

Definition headers : gmap string string :=
  <["Conventions" := "AMBERRESTART"]> (<["ConventionVersion" := "1.0"]> ∅).

Definition on_disk (name : string) (content : NcFile.Container) : NcFile.t :=
  {| NcFile.path := name; NcFile.mode := File.READ;
     NcFile.nc_mode := NcFile.DATA; NcFile.content := content |}.

(** The two convention attributes and nothing else. *)
Definition headers_only : NcFile.Container :=
  {| NcFile.dimensions := ∅; NcFile.variables := ∅;
     NcFile.global_attributes := headers |}.

Definition units (unit : string) : gmap string NcFile.Attribute :=
  {[ "units" := NcFile.StringAttribute unit ]}.

Definition scaled_units (unit : string) (scale : double)
    : gmap string NcFile.Attribute :=
  <["scale_factor" := NcFile.NumberAttribute scale]> (units unit).

(** Two atoms, a cell whose lengths carry a scale factor, and scaled
    velocities. *)
Definition scaled : NcFile.Container :=
  {| NcFile.dimensions :=
       <["spatial" := 3]> (<["atom" := 2]>
         (<["cell_spatial" := 3]> (<["cell_angular" := 3]> ∅)));
     NcFile.variables :=
       <["coordinates" :=
           {| NcFile.dims := ["atom"; "spatial"];
              NcFile.attributes := scaled_units "angstrom" 0.5;
              NcFile.data := NcFile.Doubles [1; 2; 3; 4; 5; 6]%float |}]>
       (<["velocities" :=
           {| NcFile.dims := ["atom"; "spatial"];
              NcFile.attributes := scaled_units "angstrom/picosecond" (-0.856);
              NcFile.data := NcFile.Doubles [1; 0; 0; 0; 1; 0]%float |}]>
       (<["cell_lengths" :=
           {| NcFile.dims := ["cell_spatial"];
              NcFile.attributes := scaled_units "angstrom" 1.765;
              NcFile.data := NcFile.Doubles [60.9682; 60.9682; 0]%float |}]>
       (<["cell_angles" :=
           {| NcFile.dims := ["cell_angular"];
              NcFile.attributes := units "degree";
              NcFile.data := NcFile.Doubles [90; 90; 90]%float |}]> ∅)));
     NcFile.global_attributes := headers |}.

(** A valid container with a cell, without the atom dimension and without
    coordinates. *)
Definition cell_only : NcFile.Container :=
  {| NcFile.dimensions :=
       <["spatial" := 3]> (<["cell_spatial" := 3]> (<["cell_angular" := 3]> ∅));
     NcFile.variables :=
       <["cell_lengths" :=
           {| NcFile.dims := ["cell_spatial"];
              NcFile.attributes := units "angstrom";
              NcFile.data := NcFile.Doubles [15; 15; 15]%float |}]>
       (<["cell_angles" :=
           {| NcFile.dims := ["cell_angular"];
              NcFile.attributes := units "degree";
              NcFile.data := NcFile.Doubles [90; 90; 90]%float |}]> ∅);
     NcFile.global_attributes := headers |}.

(** A valid container with a cell and two atoms, without coordinates. *)
Definition no_coordinates : NcFile.Container :=
  {| NcFile.dimensions := <["atom" := 2]> (NcFile.dimensions cell_only);
     NcFile.variables := NcFile.variables cell_only;
     NcFile.global_attributes := headers |}.

(** Coordinates without any cell variable. *)
Definition no_cell : NcFile.Container :=
  {| NcFile.dimensions := <["spatial" := 3]> (<["atom" := 1]> ∅);
     NcFile.variables :=
       <["coordinates" :=
           {| NcFile.dims := ["atom"; "spatial"];
              NcFile.attributes := units "angstrom";
              NcFile.data := NcFile.Doubles [7; 8; 9]%float |}]> ∅;
     NcFile.global_attributes := headers |}.

Definition disk : gmap string NcFile.Container :=
  <["bare.ncrst" := headers_only]> (<["scaled.ncrst" := scaled]>
    (<["cell.ncrst" := cell_only]> (<["no-cell.ncrst" := no_cell]>
      (<["no-coordinates.ncrst" := no_coordinates]> ∅)))).

(** A handle which passed the constructor in read mode. *)
Definition reader (name : string) (content : NcFile.Container) : AmberRestartFormat :=
  {| file_ := on_disk name content; step_done_ := false; validated_ := true |}.

(** The frame of the write test: four atoms with velocities. *)
Definition four_atoms : Frame.t :=
  {| Frame.cell := UnitCell.default;
     Frame.positions := replicate 4 (v3 1 2 3);
     Frame.velocities := Some (replicate 4 (v3 (-3) (-2) (-1))) |}.

Definition still : Frame.t :=
  {| Frame.cell := UnitCell.mk 10 11 12 90 90 120;
     Frame.positions := [v3 1 2 3; v3 4 5 6];
     Frame.velocities := None |}.
End Samples.

(** * Lemmas on the monads *)

Section Monad.
Context {S A B : Type}.
Implicit Types (m : M S A) (k : A → M S B) (s : S).

Lemma bind_ok m k s a s' : m s = (Ok a, s') → bind m k s = k a s'.
Proof. unfold bind. by intros ->. Qed.

Lemma bind_err m k s e s' : m s = (Err e, s') → bind m k s = (Err e, s').
Proof. unfold bind. by intros ->. Qed.

Lemma bind_ok_inv m k s b s2 :
  bind m k s = (Ok b, s2) → ∃ a s1, m s = (Ok a, s1) ∧ k a s1 = (Ok b, s2).
Proof.
  unfold bind. destruct (m s) as [[a|e] s1]; [eauto | done].
Qed.
End Monad.

Lemma bind_gets {S A B} (g : S → A) (k : A → M S B) s :
  bind (gets g) k s = k (g s) s.
Proof. reflexivity. Qed.

Lemma update_ok_inv {S} (u : S → result S) s r s' :
  update u s = (Ok r, s') → u s = Ok s'.
Proof. unfold update. destruct (u s); intros; by simplify_eq. Qed.

Lemma update_ok {S} (u : S → result S) s s' :
  u s = Ok s' → update u s = (Ok tt, s').
Proof. unfold update. by intros ->. Qed.

Lemma zoom_run {S T A} (get : S → T) (set : T → S → S) (m : M T A) s :
  zoom get set m s = ((m (get s)).1, set (m (get s)).2 s).
Proof. unfold zoom. by destruct (m (get s)). Qed.

(** Peel the next computation of a sequence, given its result. *)
Ltac step_with H := first [erewrite bind_ok by exact H | erewrite bind_err by exact H].

(** * Single precision *)

(** [to_single] on values with and without an exact binary32 form: 0.1
    becomes the float 0x1.99999ap-4, a value beyond the range of a float
    becomes infinite, and a float is left as it is. *)
Example to_single_values :
  to_single 0.5 = 0.5%float ∧
  to_single 0.1 = 0x1.99999ap-4%float ∧
  to_single 1.765 = 0x1.c3d70ap+0%float ∧
  to_single 1e40 = infinity ∧
  to_single (to_single 1.765) = to_single 1.765.
Proof. by vm_compute. Qed.
(** ** Rounding to single precision *)

(** [to_single] is the rounding of IEEE 754 to binary32: the shifts of
    [binary_round] are divisions by powers of two, its rounding is
    [nearest_even], and what comes out is the float nearest to the
    [double] it was given. *)

Section Digits.
#[local] Open Scope Z_scope.

Lemma digits2_pos_bounds (m : positive) :
  2 ^ (Z.pos (digits2_pos m) - 1) ≤ Z.pos m < 2 ^ Z.pos (digits2_pos m).
Proof.
  induction m as [m IH|m IH|]; cbn [digits2_pos].
  1,2: rewrite Pos2Z.inj_succ;
       replace (Z.succ (Z.pos (digits2_pos m)) - 1)
         with (Z.succ (Z.pos (digits2_pos m) - 1)) by lia;
       rewrite !Z.pow_succ_r by lia; lia.
  by vm_compute.
Qed.

Lemma digits2_pos_unique (m : positive) (d : Z) :
  2 ^ (d - 1) ≤ Z.pos m < 2 ^ d → Z.pos (digits2_pos m) = d.
Proof.
  intros [Hlo Hhi]. destruct (digits2_pos_bounds m) as [Hlo' Hhi'].
  assert (0 < d).
  { destruct (Z.lt_ge_cases 0 d) as [|Hd]; [done |].
    destruct (Z.eq_dec d 0) as [-> | ]; [cbn in Hhi; lia |].
    rewrite Z.pow_neg_r in Hhi by lia. lia. }
  destruct (Z.lt_trichotomy (Z.pos (digits2_pos m)) d) as [Hlt | [ | Hgt]];
    [| done |].
  - assert (2 ^ Z.pos (digits2_pos m) ≤ 2 ^ (d - 1))
      by (apply Z.pow_le_mono_r; lia). lia.
  - assert (2 ^ d ≤ 2 ^ (Z.pos (digits2_pos m) - 1))
      by (apply Z.pow_le_mono_r; lia). lia.
Qed.

Lemma iter_xO (m k : positive) :
  Z.pos (Pos.iter xO m k) = Z.pos m * 2 ^ Z.pos k.
Proof.
  induction k as [|k IH] using Pos.peano_ind.
  - cbn. lia.
  - rewrite Pos.iter_succ, Pos2Z.inj_xO, IH, Pos2Z.inj_succ, Z.pow_succ_r by lia.
    lia.
Qed.

Lemma shr_1_nonneg m r s :
  0 ≤ m →
  shr_1 {| shr_m := m; shr_r := r; shr_s := s |} =
    {| shr_m := m / 2; shr_r := Z.odd m; shr_s := r || s |}.
Proof.
  intros Hm. destruct m as [|[p|p|]|]; try done; cbn [shr_1].
  - f_equal. apply (Z.div_unique _ _ _ 1); lia.
  - f_equal. apply (Z.div_unique _ _ _ 0); lia.
Qed.

Lemma iter_pos_nat {A} (f : A → A) (p : positive) (x : A) :
  SpecFloat.iter_pos f p x = Nat.iter (Pos.to_nat p) f x.
Proof.
  revert x. induction p as [p IH|p IH|]; intros x; cbn [SpecFloat.iter_pos].
  - rewrite !IH, Pos2Nat.inj_xI.
    replace (S (2 * Pos.to_nat p)) with (Pos.to_nat p + (Pos.to_nat p + 1))%nat
      by lia.
    rewrite !Nat.iter_add. done.
  - rewrite !IH, Pos2Nat.inj_xO.
    replace (2 * Pos.to_nat p)%nat with (Pos.to_nat p + Pos.to_nat p)%nat by lia.
    by rewrite Nat.iter_add.
  - done.
Qed.

Lemma shr_iter (m : Z) (k : nat) :
  0 ≤ m → (0 < k)%nat →
  Nat.iter k shr_1 {| shr_m := m; shr_r := false; shr_s := false |} =
    {| shr_m := m / 2 ^ Z.of_nat k;
       shr_r := Z.testbit m (Z.of_nat k - 1);
       shr_s := negb (m mod 2 ^ (Z.of_nat k - 1) =? 0) |}.
Proof.
  intros Hm Hk. destruct k as [|k]; [lia |]. clear Hk.
  induction k as [|k IH].
  - cbn [Nat.iter]. rewrite shr_1_nonneg by done. cbn.
    by rewrite Z.mod_1_r, Z.bit0_odd.
  - rewrite Nat.iter_succ, IH.
    rewrite shr_1_nonneg by (apply Z.div_pos; lia).
    replace (Z.of_nat (S (S k)) - 1) with (Z.of_nat (S k)) by lia.
    replace (Z.of_nat (S (S k))) with (Z.succ (Z.of_nat (S k))) by lia.
    set (j := Z.of_nat (S k)). assert (0 < j) by lia.
    f_equal.
    + rewrite Z.pow_succ_r, Z.div_div by lia. f_equal; lia.
    + by rewrite Z.testbit_odd, Z.shiftr_div_pow2 by lia.
    + replace j with (Z.succ (j - 1)) at 3 by lia.
      rewrite Z.pow_succ_r by lia.
      rewrite (Z.mul_comm 2), Z.rem_mul_r by lia.
      rewrite Z.testbit_odd, Z.shiftr_div_pow2 by lia.
      rewrite Zmod_odd.
      assert (0 < 2 ^ (j - 1)) by (apply Z.pow_pos_nonneg; lia).
      pose proof (Z.mod_pos_bound m (2 ^ (j - 1))).
      destruct (Z.odd _); repeat destruct (Z.eqb_spec _ _); cbn; lia || done.
Qed.

Lemma round_shr (m : Z) (k : nat) :
  0 ≤ m → (0 < k)%nat →
  let record :=
    Nat.iter k shr_1 {| shr_m := m; shr_r := false; shr_s := false |} in
  round_nearest_even (shr_m record) (loc_of_shr_record record)
    = nearest_even m (2 ^ Z.of_nat k).
Proof.
  intros Hm Hk. cbv zeta. rewrite shr_iter by done.
  unfold nearest_even, loc_of_shr_record, round_nearest_even. cbn [shr_m].
  set (j := Z.of_nat k). assert (0 < j) by lia.
  assert (0 < 2 ^ (j - 1)) by (apply Z.pow_pos_nonneg; lia).
  assert (2 ^ j = 2 ^ (j - 1) * 2) as Hj.
  { replace j with (Z.succ (j - 1)) at 1 by lia. rewrite Z.pow_succ_r; lia. }
  assert (m mod 2 ^ j =
            m mod 2 ^ (j - 1) + 2 ^ (j - 1) * (if Z.testbit m (j - 1) then 1 else 0))
    as Hmod.
  { rewrite Hj, Z.rem_mul_r by lia.
    by rewrite Z.testbit_odd, Z.shiftr_div_pow2, Zmod_odd by lia. }
  pose proof (Z.mod_pos_bound m (2 ^ (j - 1))).
  rewrite Hmod.
  destruct (Z.testbit m (j - 1)), (Z.eqb_spec (m mod 2 ^ (j - 1)) 0) as [Hz|Hz];
    cbn [negb]; rewrite ?Hz.
  - replace (_ ?= _) with Eq; [done |]. symmetry. apply Z.compare_eq_iff. lia.
  - replace (_ ?= _) with Gt; [done |]. symmetry. apply Z.compare_gt_iff. lia.
  - replace (_ ?= _) with Lt; [done |]. symmetry. apply Z.compare_lt_iff. lia.
  - replace (_ ?= _) with Lt; [done |]. symmetry. apply Z.compare_lt_iff. lia.
Qed.

End Digits.
Section Round.
#[local] Open Scope Z_scope.
Variables bits top : Z.
Hypothesis bits_pos : 0 < bits.

Lemma digits2_pos_iter_xO (m k : positive) :
  digits2_pos (Pos.iter xO m k) = (digits2_pos m + k)%positive.
Proof.
  induction k as [|k IH] using Pos.peano_ind.
  - cbn. lia.
  - rewrite Pos.iter_succ. cbn [digits2_pos]. rewrite IH. lia.
Qed.

Lemma nearest_even_bounds n u :
  0 < u → n / u ≤ nearest_even n u ≤ n / u + 1.
Proof.
  intros Hu. unfold nearest_even.
  destruct (_ ?= _); [destruct (Z.even _) | |]; lia.
Qed.

Lemma shl_align_above m e e' : e ≤ e' → shl_align m e e' = (m, e).
Proof. intros He. unfold shl_align. destruct (e' - e) eqn:Hd; done || lia. Qed.

Lemma shr_positive m e n :
  0 < n →
  shr {| shr_m := m; shr_r := false; shr_s := false |} e n =
    (Nat.iter (Z.to_nat n) shr_1 {| shr_m := m; shr_r := false; shr_s := false |},
     e + n).
Proof.
  intros Hn. destruct n as [|n|n]; try lia.
  cbn [shr]. by rewrite iter_pos_nat.
Qed.

Lemma shr_nonpositive record e n : n ≤ 0 → shr record e n = (record, e).
Proof. intros Hn. destruct n; [done | lia | done]. Qed.

(** A mantissa which has the exponent of its format is left as it is. *)
Lemma binary_round_aux_canonical s (m : positive) e :
  fexp bits top (Z.pos (digits2_pos m) + e) = e →
  binary_round_aux bits top s (Z.pos m) e loc_Exact =
    if e <=? top - bits then S754_finite s m e else S754_infinity s.
Proof.
  intros He. unfold binary_round_aux, shr_fexp. cbn [Zdigits2].
  rewrite He, Z.sub_diag. cbn. by rewrite He, Z.sub_diag.
Qed.

(** The exponent of the format is not above the one given: the mantissa is
    shifted to the left, and nothing is lost. *)
Lemma binary_round_exact s (m : positive) e :
  let target := fexp bits top (Z.pos (digits2_pos m) + e) in
  target ≤ e →
  ∃ mz : positive,
    Z.pos mz = Z.pos m * 2 ^ (e - target) ∧
    binary_round bits top s m e =
      if target <=? top - bits then S754_finite s mz target
      else S754_infinity s.
Proof.
  intros target Htarget. unfold binary_round, shl_align. fold target.
  destruct (target - e) as [|d|d] eqn:Hd; [| lia |].
  - exists m. replace (e - target) with 0 by lia. split; [lia |].
    assert (target = e) as He by lia.
    rewrite binary_round_aux_canonical by exact He. by rewrite He.
  - exists (Pos.iter xO m d). replace (e - target) with (Z.pos d) by lia.
    split; [apply iter_xO |].
    apply binary_round_aux_canonical.
    rewrite digits2_pos_iter_xO, Pos2Z.inj_add.
    unfold target, fexp. unfold target, fexp in Hd. lia.
Qed.

(** The exponent of the format is above the one given: the mantissa is
    shifted to the right and rounded to the nearest integer, to the even one
    in a tie; if this gives one more digit, the mantissa is shifted again. *)
Lemma binary_round_inexact s (m : positive) e :
  let target := fexp bits top (Z.pos (digits2_pos m) + e) in
  e < target →
  let rounded := nearest_even (Z.pos m) (2 ^ (target - e)) in
  0 ≤ rounded ≤ 2 ^ bits ∧
  (SpecFloat.emin bits top < target → 2 ^ (bits - 1) ≤ rounded) ∧
  binary_round bits top s m e =
    match (if rounded =? 2 ^ bits then 2 ^ (bits - 1) else rounded) with
    | 0 => S754_zero s
    | Z.pos mz =>
        let ez := if rounded =? 2 ^ bits then target + 1 else target in
        if ez <=? top - bits then S754_finite s mz ez else S754_infinity s
    | Z.neg _ => S754_nan
    end.
Proof.
  intros target Htarget rounded.
  set (d := Z.pos (digits2_pos m)) in *.
  set (n := target - e) in *. assert (0 < n) as Hn by lia.
  assert (0 < 2 ^ n) as Hpow by (apply Z.pow_pos_nonneg; lia).
  assert (0 < 2 ^ bits) as Hbits by (apply Z.pow_pos_nonneg; lia).
  assert (2 ^ bits = 2 * 2 ^ (bits - 1)) as Hhalf.
  { replace bits with (Z.succ (bits - 1)) at 1 by lia.
    rewrite Z.pow_succ_r; lia. }
  destruct (digits2_pos_bounds m) as [Hlo Hhi]. fold d in Hlo, Hhi.
  assert (0 < d) as Hd by done.
  pose proof (nearest_even_bounds (Z.pos m) (2 ^ n) Hpow) as Hrounded.
  fold rounded in Hrounded.
  assert (0 ≤ Z.pos m / 2 ^ n < 2 ^ bits) as Hq.
  { split; [apply Z.div_pos; lia |].
    apply Z.div_lt_upper_bound; [done |].
    rewrite <- Z.pow_add_r by lia.
    assert (2 ^ d ≤ 2 ^ (n + bits)); [| lia].
    apply Z.pow_le_mono_r; [lia |]. unfold n, target, fexp. lia. }
  assert (SpecFloat.emin bits top < target → 2 ^ (bits - 1) ≤ Z.pos m / 2 ^ n)
    as Hnormal.
  { intros Hmin. apply Z.div_le_lower_bound; [done |].
    rewrite <- Z.pow_add_r by lia.
    replace (n + (bits - 1)) with (d - 1); [done |].
    unfold n. unfold target, fexp in Hmin |- *. lia. }
  split; [lia |]. split; [lia |].
  unfold binary_round. fold d target. rewrite shl_align_above by lia.
  unfold binary_round_aux, shr_fexp. cbn [Zdigits2 shr_record_of_loc].
  fold d target n. rewrite shr_positive by done.
  rewrite round_shr by lia. rewrite Z2Nat.id by lia. fold rounded.
  replace (e + n) with target by lia.
  destruct (Z.eqb_spec rounded (2 ^ bits)) as [Hfull | Hless].
  - rewrite Hfull.
    assert (Zdigits2 (2 ^ bits) = bits + 1) as ->.
    { destruct (2 ^ bits) as [|full|full] eqn:Hfull'; try lia.
      cbn [Zdigits2]. apply digits2_pos_unique. rewrite <- Hfull'.
      replace (bits + 1 - 1) with bits by lia.
      rewrite Z.pow_add_r by lia. lia. }
    replace (fexp bits top (bits + 1 + target) - target) with 1
      by (unfold target, fexp; lia).
    rewrite shr_positive by lia. cbn [Z.to_nat Pos.to_nat Pos.iter_op Nat.iter].
    change (Nat.iter 1 shr_1 ?r) with (shr_1 r).
    rewrite shr_1_nonneg by lia. cbn [shr_m].
    replace (2 ^ bits / 2) with (2 ^ (bits - 1))
      by (rewrite Hhalf, Z.mul_comm, Z.div_mul; lia).
    done.
  - assert (Zdigits2 rounded ≤ bits) as Hdigits.
    { destruct rounded as [|r|r] eqn:Hr; cbn [Zdigits2]; try lia.
      destruct (digits2_pos_bounds r) as [Hr' _].
      destruct (Z.le_gt_cases (Z.pos (digits2_pos r)) bits) as [|Hgt]; [done |].
      assert (2 ^ bits ≤ 2 ^ (Z.pos (digits2_pos r) - 1))
        by (apply Z.pow_le_mono_r; lia).
      lia. }
    rewrite shr_nonpositive by (unfold target, fexp; lia). done.
Qed.

End Round.
Section Single.
#[local] Open Scope Z_scope.

Lemma pow2_pos k : 0 ≤ k → 0 < 2 ^ k.
Proof. intros. by apply Z.pow_pos_nonneg. Qed.

Lemma digits_le (m : positive) (b : Z) :
  Z.pos m < 2 ^ b → Z.pos (digits2_pos m) ≤ b.
Proof.
  intros Hm. destruct (digits2_pos_bounds m) as [Hlo _].
  destruct (Z.le_gt_cases (Z.pos (digits2_pos m)) b) as [|Hgt]; [done |].
  assert (0 ≤ b).
  { destruct (Z.le_gt_cases 0 b); [done |]. rewrite Z.pow_neg_r in Hm; lia. }
  assert (2 ^ b ≤ 2 ^ (Z.pos (digits2_pos m) - 1))
    by (apply Z.pow_le_mono_r; lia).
  lia.
Qed.

(** A binary32 mantissa and exponent, as a [double]: the same number, with
    the mantissa and the exponent of the binary64 format. *)
Lemma Prim2SF_SF2Prim_single s (m : positive) e :
  Z.pos m < 2 ^ 24 → -149 ≤ e ≤ 104 →
  ∃ (mz : positive) ez,
    Prim2SF (SF2Prim (S754_finite s m e)) = S754_finite s mz ez ∧
    -1074 ≤ ez ∧
    Z.pos mz * 2 ^ (ez + 1074) = Z.pos m * 2 ^ (e + 1074).
Proof.
  intros Hm He.
  set (d := Z.pos (digits2_pos m)).
  assert (0 < d ≤ 24) as Hd by (split; [done | by apply digits_le]).
  destruct (digits2_pos_bounds m) as [Hlo Hhi]. fold d in Hlo, Hhi.
  assert (Prim2SF (Z.ldexp (of_uint63 (Uint63.of_Z (Z.pos m))) e) =
            S754_finite false (Pos.iter xO m (Z.to_pos (53 - d))) (d + e - 53))
    as Hldexp.
  { rewrite Z_ldexp_spec, of_uint63_spec, Uint63.of_Z_spec.
    rewrite Z.mod_small by (change Uint63.wB with (2 ^ 63); split; [lia |];
      etrans; [exact Hm | done]).
    cbn [binary_normalize].
    destruct (binary_round_exact prec emax false m 0) as (mz & Hmz & ->).
    { fold d. unfold fexp, SpecFloat.emin, prec, emax. lia. }
    fold d in Hmz |- *.
    replace (fexp prec emax (d + 0)) with (d - 53) in *
      by (unfold fexp, SpecFloat.emin, prec, emax; lia).
    replace (0 - (d - 53)) with (Z.pos (Z.to_pos (53 - d))) in Hmz by lia.
    rewrite <- iter_xO in Hmz. injection Hmz as ->.
    replace (d - 53 <=? emax - prec) with true
      by (symmetry; apply Z.leb_le; unfold prec, emax; lia).
    cbn [SFldexp].
    set (mz := Pos.iter xO m (Z.to_pos (53 - d))).
    assert (Z.pos (digits2_pos mz) = 53) as Hdigits.
    { unfold mz. rewrite digits2_pos_iter_xO, Pos2Z.inj_add. fold d. lia. }
    destruct (binary_round_exact prec emax false mz (d - 53 + e))
      as (mz' & Hmz' & ->).
    { rewrite Hdigits. unfold fexp, SpecFloat.emin, prec, emax. lia. }
    rewrite Hdigits in Hmz' |- *.
    replace (fexp prec emax (53 + (d - 53 + e))) with (d + e - 53) in *
      by (unfold fexp, SpecFloat.emin, prec, emax; lia).
    replace (d - 53 + e - (d + e - 53)) with 0 in Hmz' by lia.
    rewrite Z.mul_1_r in Hmz'. injection Hmz' as ->.
    replace (d + e - 53 <=? emax - prec) with true
      by (symmetry; apply Z.leb_le; unfold prec, emax; lia).
    done. }
  exists (Pos.iter xO m (Z.to_pos (53 - d))), (d + e - 53).
  split; [| split; [lia |]].
  - unfold SF2Prim. destruct s; [| done].
    by rewrite opp_spec, Hldexp.
  - rewrite iter_xO, <- Z.mul_assoc, <- Z.pow_add_r by lia.
    do 2 f_equal. lia.
Qed.

End Single.

Section ToSingle.
#[local] Open Scope Z_scope.

Lemma nearest_even_scale a b c :
  0 < b → 0 < c → nearest_even (a * c) (b * c) = nearest_even a b.
Proof.
  intros Hb Hc. unfold nearest_even.
  rewrite Z.div_mul_cancel_r, Z.mul_mod_distr_r by lia.
  by rewrite Z.mul_assoc, <- Zmult_compare_compat_r by lia.
Qed.

(** The mantissa and the exponent of a finite [double]. *)
Lemma double_bounds x s m e :
  Prim2SF x = S754_finite s m e →
  let d := Z.pos (digits2_pos m) in
  -1074 ≤ e ≤ 971 ∧ d ≤ 53 ∧ (-1074 < e → d = 53).
Proof.
  intros Hx d. pose proof (Prim2SF_valid x) as Hvalid.
  rewrite Hx in Hvalid. cbn in Hvalid.
  apply andb_prop in Hvalid as [Hcanonical Hbound].
  apply Z.eqb_eq in Hcanonical. apply Z.leb_le in Hbound.
  unfold fexp, SpecFloat.emin, prec, emax in *. fold d in Hcanonical. lia.
Qed.

Lemma to_single_finite x s m e :
  Prim2SF x = S754_finite s m e →
  let D := Z.pos (digits2_pos m) + e in
  let target := Z.max (D - 24) (-149) in
  let N := Z.pos m * 2 ^ (e + 1074) in
  let U := 2 ^ (target + 1074) in
  let rounded := nearest_even N U in
  (-1074 ≤ e ∧ 2 ^ (D - 1 + 1074) ≤ N < 2 ^ (D + 1074)) ∧
  0 ≤ rounded ≤ 2 ^ 24 ∧ (-149 < target → 2 ^ 23 ≤ rounded) ∧
  ((rounded = 0 ∧ Prim2SF (to_single x) = S754_zero s) ∨
   (∃ mc ec (mz : positive) ez,
      Prim2SF (to_single x) = S754_finite s mz ez ∧
      -1074 ≤ ez ∧ Z.pos mz * 2 ^ (ez + 1074) = rounded * U ∧
      mc * 2 ^ (ec + 1074) = rounded * U ∧
      0 < mc < 2 ^ 24 ∧ -149 ≤ ec ≤ 104 ∧ (2 ^ 23 ≤ mc ∨ ec = -149) ∧
      (mc = rounded ∨ mc = 2 ^ 23)) ∨
   (2 ^ (128 + 1074) ≤ rounded * U ∧
    to_single x = if s then neg_infinity else infinity)).
Proof.
  intros Hx D target N U rounded.
  destruct (double_bounds x s m e Hx) as (He & Hd & Hnormal).
  set (d := Z.pos (digits2_pos m)) in *.
  destruct (digits2_pos_bounds m) as [Hlo Hhi]. fold d in Hlo, Hhi.
  assert (0 < d) as Hd0 by done.
  assert (0 < 2 ^ (e + 1074)) as Hunit by (apply pow2_pos; lia).
  assert (e < target) as Htarget by (unfold target, D; lia).
  assert (U = 2 ^ (target - e) * 2 ^ (e + 1074)) as HU.
  { unfold U. rewrite <- Z.pow_add_r by lia. f_equal. lia. }
  assert (0 < 2 ^ (target - e)) as Hpow by (apply pow2_pos; lia).
  assert (0 < U) as HUpos by lia.
  assert (rounded = nearest_even (Z.pos m) (2 ^ (target - e))) as Hrounded.
  { unfold rounded, N. rewrite HU. by apply nearest_even_scale. }
  destruct (binary_round_inexact 24 128 eq_refl s m e) as (Hr & Hrn & Hround).
  { unfold fexp, SpecFloat.emin. fold d D. fold target. done. }
  replace (fexp 24 128 (Z.pos (digits2_pos m) + e)) with target in *
    by (unfold fexp, SpecFloat.emin; fold d D; done).
  rewrite <- Hrounded in *.
  change (SpecFloat.emin 24 128) with (-149) in Hrn.
  split.
  { split; [lia |]. unfold N, D.
    replace (d + e - 1 + 1074) with ((d - 1) + (e + 1074)) by lia.
    replace (d + e + 1074) with (d + (e + 1074)) by lia.
    rewrite (Z.pow_add_r 2 (d - 1)), (Z.pow_add_r 2 d) by lia.
    split; [apply Z.mul_le_mono_nonneg_r | apply Z.mul_lt_mono_pos_r]; lia. }
  split; [done |]. split; [done |].
  unfold to_single. rewrite Hx, Hround. clear Hround.
  destruct (Z.eqb_spec rounded (2 ^ 24)) as [Hfull | Hless].
  - change (2 ^ (24 - 1)) with (Z.pos (Z.to_pos (2 ^ 23))). cbv zeta.
    assert (rounded * U = 2 ^ 23 * 2 ^ (target + 1 + 1074)) as Hvalue.
    { rewrite Hfull. unfold U.
      replace (target + 1 + 1074) with (Z.succ (target + 1074)) by lia.
      rewrite Z.pow_succ_r by lia. lia. }
    destruct (Z.leb_spec (target + 1) (128 - 24)) as [Hfinite | Hinfinite].
    + right; left.
      destruct (Prim2SF_SF2Prim_single s (Z.to_pos (2 ^ 23)) (target + 1))
        as (mz & ez & Hz & Hez & Hvz); [done | lia |].
      exists (2 ^ 23), (target + 1), mz, ez.
      rewrite Hvz, Hvalue. split_and!; try done; try lia.
    + right; right. split; [| by destruct s].
      rewrite Hvalue.
      replace (target + 1 + 1074) with ((target + 1 - 105) + (105 + 1074))
        by lia.
      rewrite (Z.pow_add_r 2 (target + 1 - 105)) by lia.
      assert (0 < 2 ^ (target + 1 - 105)) by (apply pow2_pos; lia).
      change (2 ^ (128 + 1074)) with (2 ^ 23 * 2 ^ (105 + 1074)).
      assert (0 < 2 ^ (105 + 1074)) by done.
      set (W := 2 ^ (105 + 1074)) in *. clearbody W.
      rewrite Z.mul_assoc. apply Z.mul_le_mono_nonneg_r; [lia | nia].
  - destruct rounded as [|r|r] eqn:Hr'; [| | lia].
    + left. split; [done |]. by rewrite Prim2SF_SF2Prim.
    + cbv zeta.
      destruct (Z.leb_spec target (128 - 24)) as [Hfinite | Hinfinite].
      * right; left.
        destruct (Prim2SF_SF2Prim_single s r target)
          as (mz & ez & Hz & Hez & Hvz); [lia | lia |].
        exists (Z.pos r), target, mz, ez.
        rewrite Hvz. fold U. split_and!; try done; try lia.
      * right; right. split; [| by destruct s].
        unfold U.
        replace (target + 1074) with ((target - 105) + (105 + 1074)) by lia.
        rewrite (Z.pow_add_r 2 (target - 105)) by lia.
        assert (0 < 2 ^ (target - 105)) by (apply pow2_pos; lia).
        change (2 ^ (128 + 1074)) with (2 ^ 23 * 2 ^ (105 + 1074)).
        assert (2 ^ 23 ≤ Z.pos r) by lia.
        assert (0 < 2 ^ (105 + 1074)) by done.
        set (W := 2 ^ (105 + 1074)) in *. clearbody W.
        rewrite Z.mul_assoc. apply Z.mul_le_mono_nonneg_r; [lia | nia].
Qed.

End ToSingle.

Section Nearest.
#[local] Open Scope Z_scope.

Lemma nearest_even_nearest N U i :
  0 < U → Z.abs (nearest_even N U * U - N) ≤ Z.abs (i * U - N).
Proof.
  intros HU. unfold nearest_even.
  pose proof (Z.div_mod N U) as Hdiv. pose proof (Z.mod_pos_bound N U HU) as Hr.
  set (q := N / U) in *. set (r := N mod U) in *. clearbody q r.
  assert (N = U * q + r) as -> by lia. clear Hdiv.
  assert (i ≤ q - 1 ∨ i = q ∨ i = q + 1 ∨ q + 2 ≤ i) as Hi by lia.
  assert (i ≤ q - 1 → i * U ≤ (q - 1) * U)
    by (intros; apply Z.mul_le_mono_nonneg_r; lia).
  assert (q + 2 ≤ i → (q + 2) * U ≤ i * U)
    by (intros; apply Z.mul_le_mono_nonneg_r; lia).
  destruct (Z.compare_spec (2 * r) U); [destruct (Z.even q) | |];
    destruct Hi as [? | [-> | [-> | ?]]]; lia.
Qed.

Lemma nearest_even_tie N U i :
  0 < U → i ≠ nearest_even N U →
  Z.abs (i * U - N) = Z.abs (nearest_even N U * U - N) →
  Z.even (nearest_even N U) = true.
Proof.
  intros HU. unfold nearest_even.
  pose proof (Z.div_mod N U) as Hdiv. pose proof (Z.mod_pos_bound N U HU) as Hr.
  set (q := N / U) in *. set (r := N mod U) in *. clearbody q r.
  assert (N = U * q + r) as -> by lia. clear Hdiv.
  assert (i ≤ q - 1 ∨ i = q ∨ i = q + 1 ∨ q + 2 ≤ i) as Hi by lia.
  assert (i ≤ q - 1 → i * U ≤ (q - 1) * U)
    by (intros; apply Z.mul_le_mono_nonneg_r; lia).
  assert (q + 2 ≤ i → (q + 2) * U ≤ i * U)
    by (intros; apply Z.mul_le_mono_nonneg_r; lia).
  destruct (Z.compare_spec (2 * r) U); [destruct (Z.even q) eqn:Hq | |].
  - done.
  - intros _ _. by rewrite Z.add_1_r, Z.even_succ, <- Z.negb_even, Hq.
  - intros Hne Hdist. destruct Hi as [? | [-> | [-> | ?]]]; lia.
  - intros Hne Hdist. destruct Hi as [? | [-> | [-> | ?]]]; lia.
Qed.

(** Rounding stays below an even bound exactly below the middle of the last
    interval before it. *)
Lemma nearest_even_below N U B :
  0 < U → Z.even B = true →
  nearest_even N U < B ↔ 2 * N < (2 * B - 1) * U.
Proof.
  intros HU HB. unfold nearest_even.
  pose proof (Z.div_mod N U) as Hdiv. pose proof (Z.mod_pos_bound N U HU) as Hr.
  set (q := N / U) in *. set (r := N mod U) in *. clearbody q r.
  assert (N = U * q + r) as -> by lia. clear Hdiv.
  assert (q ≤ B - 2 ∨ q = B - 1 ∨ B ≤ q) as Hq by lia.
  assert (q ≤ B - 2 → q * U ≤ (B - 2) * U)
    by (intros; apply Z.mul_le_mono_nonneg_r; lia).
  assert (B ≤ q → B * U ≤ q * U)
    by (intros; apply Z.mul_le_mono_nonneg_r; lia).
  assert (q = B - 1 → Z.even q = false) as Hodd.
  { intros ->. by rewrite Z.sub_1_r, Z.even_pred, <- Z.negb_even, HB. }
  destruct (Z.compare_spec (2 * r) U); [destruct (Z.even q) eqn:Heven | |];
    destruct Hq as [? | [Hq | ?]]; try (rewrite Hodd in Heven by done);
    try done; try subst q; lia.
Qed.

Lemma float_value_opp j : float_value j → float_value (- j).
Proof.
  intros (s & m & e & Hm & He & ->).
  exists (negb s), m, e. split; [done |]. split; [done |].
  unfold binary. destruct s; cbn [negb]; lia.
Qed.

(** Around a number of [D] binary digits, the floats are the multiples of
    [2^target], where [target] is the exponent of binary32 for [D] digits;
    the other floats are below [2^(D-1)]. *)
Lemma float_value_grid D j :
  let target := Z.max (D - 24) (-149) in
  float_value j →
  (∃ i, j = i * 2 ^ (target + 1074)) ∨
  (target = D - 24 ∧ Z.abs j < 2 ^ (D - 1 + 1074)).
Proof.
  intros target (s & m & e & Hm & He & ->).
  destruct (Z.le_gt_cases target e) as [Hle | Hgt].
  - left. exists ((if s then -1 else 1) * (m * 2 ^ (e - target))).
    unfold binary. rewrite <- !Z.mul_assoc, <- Z.pow_add_r by lia.
    do 3 f_equal. lia.
  - right. split; [lia |].
    assert (2 ^ (e + 1074) ≤ 2 ^ (D - 24 - 1 + 1074))
      by (apply Z.pow_le_mono_r; lia).
    assert (0 < 2 ^ (e + 1074)) by (apply pow2_pos; lia).
    replace (D - 1 + 1074) with (24 + (D - 24 - 1 + 1074)) by lia.
    rewrite Z.pow_add_r by lia.
    unfold binary. set (P := 2 ^ (e + 1074)) in *.
    set (Q := 2 ^ (D - 24 - 1 + 1074)) in *.
    assert (Z.abs ((if s then -1 else 1) * (m * P)) = m * P) as ->
      by (destruct s; nia).
    nia.
Qed.

Lemma nearest_float D N j :
  let target := Z.max (D - 24) (-149) in
  let U := 2 ^ (target + 1074) in
  let K := nearest_even N U * U in
  2 ^ (D - 1 + 1074) ≤ N → -1074 < D →
  float_value j →
  Z.abs (K - N) ≤ Z.abs (j - N) ∧
  (j ≠ K → Z.abs (j - N) = Z.abs (K - N) → Z.even (nearest_even N U) = true).
Proof.
  intros target U K HN HD Hj.
  assert (0 < U) as HU by (apply pow2_pos; lia).
  destruct (float_value_grid D j Hj) as [[i ->] | [Htarget Hsmall]];
    fold target U.
  - split; [apply nearest_even_nearest; lia |].
    intros Hne. apply nearest_even_tie; [done |]. intros ->. done.
  - assert (2 ^ (D - 1 + 1074) = 2 ^ 23 * U) as Hgrid.
    { unfold U. rewrite <- Z.pow_add_r by lia. f_equal. lia. }
    pose proof (nearest_even_nearest N U (2 ^ 23) HU) as Hnear. fold K in Hnear.
    rewrite Hgrid in *. lia.
Qed.

End Nearest.

Section Rounded.
#[local] Open Scope Z_scope.

Lemma float_value_0 : float_value 0.
Proof. exists false, 0, 0. unfold binary. split_and!; lia || done. Qed.

(** The rounded mantissa overflows from [2^128 - 2^103] on. *)
Lemma overflow_threshold D N :
  let target := Z.max (D - 24) (-149) in
  let U := 2 ^ (target + 1074) in
  let rounded := nearest_even N U in
  2 ^ (D - 1 + 1074) ≤ N < 2 ^ (D + 1074) → -1074 < D →
  0 ≤ rounded ≤ 2 ^ 24 → (-149 < target → 2 ^ 23 ≤ rounded) →
  N < binary false (2 ^ 25 - 1) 103 ↔ rounded * U < 2 ^ (128 + 1074).
Proof.
  intros target U rounded [Hlo Hhi] HD Hr Hnormal.
  assert (0 < U) as HU by (apply pow2_pos; lia).
  unfold binary. rewrite Z.mul_1_l.
  assert (0 < 2 ^ (103 + 1074)) as HW by done.
  change (2 ^ (128 + 1074)) with (2 ^ 25 * 2 ^ (103 + 1074)).
  set (W := 2 ^ (103 + 1074)) in *.
  assert (target ≤ 103 ∨ target = 104 ∨ 105 ≤ target) as [Hlow | [Hmid | Hhigh]]
    by lia.
  - assert (U ≤ W) by (apply Z.pow_le_mono_r; lia).
    assert (2 ^ (D + 1074) ≤ 2 ^ 24 * W).
    { unfold W. rewrite <- Z.pow_add_r by lia. apply Z.pow_le_mono_r; lia. }
    clearbody W U rounded. split; intros _; nia.
  - assert (U = 2 * W) as HUW.
    { unfold U, W. rewrite Hmid. done. }
    pose proof (nearest_even_below N U (2 ^ 24) HU eq_refl) as Hbelow.
    fold rounded in Hbelow. clearbody W U rounded. subst U.
    split; intros H; [assert (rounded < 2 ^ 24) by (apply Hbelow; lia); nia |].
    assert (rounded < 2 ^ 24) as H' by nia. apply Hbelow in H'. lia.
  - assert (2 ^ 2 * W ≤ U).
    { unfold U, W. rewrite <- Z.pow_add_r by lia. apply Z.pow_le_mono_r; lia. }
    assert (2 ^ 25 * W ≤ 2 ^ (D - 1 + 1074)).
    { unfold W. rewrite <- Z.pow_add_r by lia. apply Z.pow_le_mono_r; lia. }
    assert (2 ^ 23 ≤ rounded) by (apply Hnormal; lia).
    clearbody W U rounded. split; intros ?; nia.
Qed.

Lemma to_single_rounded x : float_rounded x (to_single x).
Proof.
  unfold float_rounded, is_float.
  destruct (Prim2SF x) as [s|s| |s m e] eqn:Hx.
  1-3: assert (to_single x = x) as -> by (unfold to_single; by rewrite Hx).
  1-3: unfold exact_value, negative; rewrite Hx.
  - split; [intros n [= <-]; apply float_value_0 |]. split; [done |].
    replace (_ <? _) with true by done. exists 0. split; [done |].
    split; [lia |]. lia.
  - done.
  - done.
  - destruct (to_single_finite x s m e Hx)
      as ((He & HN) & Hr & Hnormal & Hcases).
    set (D := Z.pos (digits2_pos m) + e) in *.
    set (target := Z.max (D - 24) (-149)) in *.
    set (N := Z.pos m * 2 ^ (e + 1074)) in *.
    set (U := 2 ^ (target + 1074)) in *.
    set (rounded := nearest_even N U) in *.
    assert (-1074 < D) as HD by (unfold D; lia).
    pose proof (overflow_threshold D N HN HD Hr Hnormal) as Hover.
    fold target U rounded in Hover.
    assert (0 < N) as HNpos.
    { unfold N. apply Z.mul_pos_pos; [done | apply pow2_pos; lia]. }
    assert (exact_value x = Some (binary s (Z.pos m) e)) as Hvalue
      by (unfold exact_value; by rewrite Hx).
    assert (negative x = s) as Hsign by (unfold negative; by rewrite Hx).
    rewrite Hvalue, Hsign.
    assert (Z.abs (binary s (Z.pos m) e) = N) as ->.
    { unfold binary. fold N. destruct s; lia. }
    assert (∀ j, float_value j →
              Z.abs (binary s rounded target - binary s (Z.pos m) e)
                ≤ Z.abs (j - binary s (Z.pos m) e) ∧
              (j ≠ binary s rounded target →
               Z.abs (j - binary s (Z.pos m) e)
                 = Z.abs (binary s rounded target - binary s (Z.pos m) e) →
               Z.even rounded = true)) as Hnearest.
    { intros j Hj. unfold binary. fold N U.
      destruct s.
      - apply float_value_opp in Hj.
        pose proof (nearest_float D N (- j) (proj1 HN) HD Hj) as Hnear.
        fold target U rounded in Hnear. cbv zeta in Hnear.
        destruct Hnear as [Hnear Htie]. clear Hover Hcases.
        split; [lia | intros; apply Htie; lia].
      - pose proof (nearest_float D N j (proj1 HN) HD Hj) as Hnear.
        fold target U rounded in Hnear. cbv zeta in Hnear.
        destruct Hnear as [Hnear Htie]. clear Hover Hcases.
        split; [lia | intros; apply Htie; lia]. }
    destruct Hcases as [[Hzero Hz] | [Hfinite | [Hinfinite ->]]].
    + assert (exact_value (to_single x) = Some 0) as Hvalue'
        by (unfold exact_value; by rewrite Hz).
      rewrite Hvalue'.
      split; [intros n [= <-]; apply float_value_0 |].
      split; [unfold negative; by rewrite Hz |].
      replace (N <? _) with true
        by (symmetry; apply Z.ltb_lt, Hover; rewrite Hzero; done).
      exists 0. split; [done |].
      assert (binary s rounded target = 0) as Hk
        by (unfold binary; rewrite Hzero; lia).
      rewrite Hk in Hnearest.
      split; [intros j Hj; by apply Hnearest |].
      intros j Hj Hne Hdist. exists false, 0, (-149).
      unfold binary. split_and!; done || lia.
    + destruct Hfinite
        as (mc & ec & mz & ez & Hz & Hez & Hvz & Hvc & Hmc & Hec & Hcan & Heven).
      assert (binary s (Z.pos mz) ez = binary s rounded target) as Hk
        by (unfold binary; fold U; by rewrite Hvz).
      assert (binary s mc ec = binary s rounded target) as Hkc
        by (unfold binary; fold U; by rewrite Hvc).
      assert (exact_value (to_single x) = Some (binary s rounded target))
        as Hvalue' by (unfold exact_value; by rewrite Hz, Hk).
      rewrite Hvalue'.
      split; [intros n [= <-]; exists s, mc, ec; split_and!; lia || done |].
      split; [unfold negative; by rewrite Hz |].
      replace (N <? _) with true.
      2:{ symmetry. apply Z.ltb_lt, Hover. rewrite <- Hvc.
          assert (2 ^ (ec + 1074) ≤ 2 ^ (104 + 1074))
            by (apply Z.pow_le_mono_r; lia).
          assert (0 < 2 ^ (ec + 1074)) by (apply pow2_pos; lia).
          change (2 ^ (128 + 1074)) with (2 ^ 24 * 2 ^ (104 + 1074)).
          set (W := 2 ^ (104 + 1074)) in *. clearbody W. nia. }
      exists (binary s rounded target). split; [done |].
      split; [intros j Hj; by apply Hnearest |].
      intros j Hj Hne Hdist. exists s, mc, ec.
      split_and!; try done; try lia.
      destruct Heven as [-> | ->]; [| done].
      by apply (Hnearest j).
    + unfold exact_value, negative.
      replace (Prim2SF (if s then neg_infinity else infinity))
        with (S754_infinity s) by (by destruct s).
      split; [done |]. split; [done |].
      replace (N <? _) with false; [done |].
      symmetry. apply Z.ltb_ge. apply Z.nlt_ge. intros Hlt.
      apply Hover in Hlt. lia.
Qed.

End Rounded.

Section Fixed.
#[local] Open Scope Z_scope.

(** Two finite [double]s of the same sign and magnitude are the same. *)
Lemma double_unique x y s (m m' : positive) e e' :
  Prim2SF x = S754_finite s m e → Prim2SF y = S754_finite s m' e' →
  Z.pos m * 2 ^ (e + 1074) = Z.pos m' * 2 ^ (e' + 1074) →
  x = y.
Proof.
  intros Hx Hy Hvalue.
  destruct (double_bounds x s m e Hx) as (He & Hd & Hnormal).
  destruct (double_bounds y s m' e' Hy) as (He' & Hd' & Hnormal').
  destruct (digits2_pos_bounds m) as [Hlo Hhi].
  destruct (digits2_pos_bounds m') as [Hlo' Hhi'].
  set (d := Z.pos (digits2_pos m)) in *.
  set (d' := Z.pos (digits2_pos m')) in *.
  assert (0 < d ∧ 0 < d') as [Hd0 Hd0'] by done.
  assert (0 < 2 ^ (e + 1074) ∧ 0 < 2 ^ (e' + 1074)) as [Hu Hu']
    by (split; apply pow2_pos; lia).
  assert (d + e = d' + e') as Hsum.
  { assert (2 ^ (d - 1) * 2 ^ (e + 1074) < 2 ^ d' * 2 ^ (e' + 1074)) as H1 by nia.
    assert (2 ^ (d' - 1) * 2 ^ (e' + 1074) < 2 ^ d * 2 ^ (e + 1074)) as H2 by nia.
    rewrite <- !Z.pow_add_r in H1, H2 by lia.
    apply Z.pow_lt_mono_r_iff in H1, H2; lia. }
  assert (e = e') as <- by lia.
  assert (m = m') as <- by nia.
  apply Prim2SF_inj. by rewrite Hx, Hy.
Qed.

(** The [double]s which [to_single] leaves as they are are the floats. *)
Lemma to_single_fixed x : to_single x = x ↔ is_float x.
Proof.
  split; [intros <-; apply to_single_rounded |].
  intros Hfloat. destruct (Prim2SF x) as [s|s| |s m e] eqn:Hx;
    try (unfold to_single; by rewrite Hx).
  destruct (to_single_rounded x) as (_ & Hsign & Hrounded).
  assert (exact_value x = Some (binary s (Z.pos m) e)) as Hvalue
    by (unfold exact_value; by rewrite Hx).
  destruct (double_bounds x s m e Hx) as (He & _).
  assert (0 < 2 ^ (e + 1074)) as Hu by (apply pow2_pos; lia).
  rewrite Hvalue in Hrounded.
  pose proof (Hfloat _ Hvalue) as Hn.
  replace (_ <? _) with true in Hrounded.
  2:{ symmetry. apply Z.ltb_lt.
      destruct Hn as (sj & mj & ej & Hmj & Hej & ->).
      assert (2 ^ (ej + 1074) ≤ 2 ^ (104 + 1074))
        by (apply Z.pow_le_mono_r; lia).
      assert (0 < 2 ^ (ej + 1074)) by (apply pow2_pos; lia).
      unfold binary.
      change (2 ^ (104 + 1074)) with (2 * 2 ^ (103 + 1074)) in *.
      assert (0 < 2 ^ (103 + 1074)) by done.
      set (W := 2 ^ (103 + 1074)) in *. clearbody W.
      set (P := 2 ^ (ej + 1074)) in *. clearbody P.
      destruct sj; nia. }
  destruct Hrounded as (k & Hk & Hnearest & _).
  specialize (Hnearest _ Hn). assert (k = binary s (Z.pos m) e) as -> by lia.
  unfold negative in Hsign. rewrite Hx in Hsign.
  unfold exact_value in Hk.
  destruct (Prim2SF (to_single x)) as [s'|s'| |s' m' e'] eqn:Hr; try done.
  - injection Hk as Hk. unfold binary in Hk. destruct s; nia.
  - subst s'. injection Hk as Hk.
    apply (double_unique _ _ s m' m e' e Hr Hx).
    unfold binary in Hk. destruct s; lia.
Qed.

End Fixed.

(** * Flat buffers and arrays of vectors *)

Lemma flatten_cons v array : flatten (v :: array) = components v ++ flatten array.
Proof. done. Qed.

Lemma flatten_app array array' :
  flatten (array ++ array') = flatten array ++ flatten array'.
Proof. unfold flatten. apply bind_app. Qed.

Lemma length_flatten array : length (flatten array) = (3 * length array)%nat.
Proof.
  induction array as [|v array IH]; [done |].
  rewrite flatten_cons, length_app, IH. cbn. lia.
Qed.

Lemma group3_flatten array : group3 (flatten array) = array.
Proof.
  induction array as [|[x y z] array IH]; [done |].
  rewrite flatten_cons. cbn. by rewrite IH.
Qed.

Lemma length_group3 data n :
  length data = (3 * n)%nat → length (group3 data) = n.
Proof.
  revert data. induction n as [|n IH]; intros data Hlen.
  - by destruct data.
  - destruct data as [|x [|y [|z rest]]]; cbn in Hlen; try lia.
    cbn. f_equal. apply IH. lia.
Qed.

(** Vector [i] of the grouping is made of the values at [3i], [3i+1] and
    [3i+2]. *)
Lemma group3_lookup data n i :
  length data = (3 * n)%nat → (i < n)%nat →
  group3 data !! i =
    Some (Vector3D.mk (data !!! (3 * i + 0)%nat) (data !!! (3 * i + 1)%nat)
            (data !!! (3 * i + 2)%nat)).
Proof.
  revert data n. induction i as [|i IH]; intros data n Hlen Hi.
  - destruct data as [|x [|y [|z rest]]]; cbn in Hlen; try lia. done.
  - destruct data as [|x [|y [|z rest]]]; cbn in Hlen; try lia.
    destruct n as [|n]; [lia |].
    change (group3 (x :: y :: z :: rest) !! S i) with (group3 rest !! i).
    rewrite (IH rest n) by lia.
    by replace (3 * S i + 0)%nat with (S (S (S (3 * i + 0)))) by lia;
       replace (3 * S i + 1)%nat with (S (S (S (3 * i + 1)))) by lia;
       replace (3 * S i + 2)%nat with (S (S (S (3 * i + 2)))) by lia.
Qed.

(** The loop of [write_array] fills the buffer with the flattened array. *)
Lemma write_loop_prefix (array : list Vector3D.t) k :
  (k ≤ length array)%nat →
  foldl (λ data i,
      <[(3 * i + 2)%nat := Vector3D.get (array !!! i) 2]>
        (<[(3 * i + 1)%nat := Vector3D.get (array !!! i) 1]>
          (<[(3 * i + 0)%nat := Vector3D.get (array !!! i) 0]> data)))
    (replicate (length array * 3) 0%float) (seq 0 k)
  = flatten (take k array) ++ replicate ((length array - k) * 3) 0%float.
Proof.
  induction k as [|k IH]; intros Hk.
  - cbn. by rewrite Nat.sub_0_r.
  - rewrite seq_S, foldl_app, IH by lia. cbn [foldl Nat.add].
    destruct (lookup_lt_is_Some_2 array k) as [v Hv]; [lia |].
    rewrite (list_lookup_total_correct _ _ _ Hv).
    rewrite (take_S_r _ _ _ Hv), flatten_app.
    replace ((length array - k) * 3)%nat
      with (S (S (S ((length array - S k) * 3)))) by lia.
    cbn [replicate].
    assert (length (flatten (take k array)) = (3 * k)%nat) as Hlen.
    { rewrite length_flatten, length_take. lia. }
    rewrite !insert_app_r_alt by (rewrite ?length_insert, ?length_app; lia).
    rewrite Hlen.
    replace (3 * k + 0 - 3 * k)%nat with 0%nat by lia.
    replace (3 * k + 1 - 3 * k)%nat with 1%nat by lia.
    replace (3 * k + 2 - 3 * k)%nat with 2%nat by lia.
    cbn. by rewrite <- app_assoc.
Qed.

Lemma write_loop (array : list Vector3D.t) :
  foldl (λ data i,
      <[(3 * i + 2)%nat := Vector3D.get (array !!! i) 2]>
        (<[(3 * i + 1)%nat := Vector3D.get (array !!! i) 1]>
          (<[(3 * i + 0)%nat := Vector3D.get (array !!! i) 0]> data)))
    (replicate (length array * 3) 0%float) (seq 0 (length array))
  = flatten array.
Proof.
  rewrite write_loop_prefix by done.
  by rewrite firstn_all, Nat.sub_diag, app_nil_r.
Qed.

(** The loop of [read_array] overwrites the array with the grouped data. *)
Lemma read_loop_prefix (data : list double) (array : list Vector3D.t) k :
  (k ≤ length array)%nat →
  foldl (λ array i,
      assign i 2 (data !!! (3 * i + 2)%nat)
        (assign i 1 (data !!! (3 * i + 1)%nat)
          (assign i 0 (data !!! (3 * i + 0)%nat) array)))
    array (seq 0 k)
  = ((λ i, Vector3D.mk (data !!! (3 * i + 0)%nat) (data !!! (3 * i + 1)%nat)
             (data !!! (3 * i + 2)%nat)) <$> seq 0 k) ++ drop k array.
Proof.
  induction k as [|k IH]; intros Hk; [done |].
  rewrite seq_S, foldl_app, fmap_app, IH by lia. cbn [foldl Nat.add fmap list_fmap].
  destruct (lookup_lt_is_Some_2 array k) as [v Hv]; [lia |].
  rewrite (drop_S _ _ _ Hv). unfold assign.
  rewrite !alter_app_r_alt by (rewrite ?length_fmap, ?length_seq; lia).
  rewrite length_fmap, length_seq, Nat.sub_diag. cbn.
  by rewrite <- app_assoc.
Qed.

Lemma read_loop (data : list double) (array : list Vector3D.t) :
  length data = (3 * length array)%nat →
  foldl (λ array i,
      assign i 2 (data !!! (3 * i + 2)%nat)
        (assign i 1 (data !!! (3 * i + 1)%nat)
          (assign i 0 (data !!! (3 * i + 0)%nat) array)))
    array (seq 0 (length array))
  = group3 data.
Proof.
  intros Hlen. rewrite read_loop_prefix by done.
  rewrite drop_all, app_nil_r.
  apply list_eq. intros i.
  destruct (decide (i < length array)%nat) as [Hi|Hi].
  - rewrite (group3_lookup data (length array)) by done.
    rewrite list_lookup_fmap, lookup_seq_lt by done. done.
  - rewrite !lookup_ge_None_2; [done | |].
    + rewrite (length_group3 data (length array)) by done. lia.
    + rewrite length_fmap, length_seq. lia.
Qed.

(** * Properties *)

(** ** Validation *)

Section Validation.
Variable file : NcFile.t.

Lemma is_valid_result natoms :
  (is_valid file natoms).1 =
    match reaches_absent file (expected_atoms natoms) with
    | Some name => Err (lookup_error name)
    | None => Ok (all_checks file (expected_atoms natoms))
    end.
Proof.
  unfold is_valid, reaches_absent, all_checks, expected_atoms, atom_ok,
    spatial_ok, NcFile.dimension.
  fold (conventions_ok file) (version_ok file).
  destruct (conventions_ok file); [| by destruct (natoms =? SIZE_MAX)].
  destruct (version_ok file); [| by destruct (natoms =? SIZE_MAX)].
  cbn [negb andb].
  destruct (NcFile.dimensions (NcFile.content file) !! "spatial") as [spatial|];
    [| done].
  destruct (N.eqb_spec spatial 3) as [->|Hne]; cbn [negb andb].
  - destruct (natoms =? SIZE_MAX); cbn; [done |].
    destruct (NcFile.dimensions (NcFile.content file) !! "atom") as [atom|];
      [| done].
    destruct (N.eqb_spec atom natoms) as [->|Hne]; cbn.
    + by rewrite !bool_decide_eq_true_2.
    + rewrite (bool_decide_eq_false_2 (Some atom = Some natoms)) by congruence.
      by rewrite bool_decide_eq_true_2.
  - rewrite bool_decide_eq_false_2 by congruence.
    by destruct (natoms =? SIZE_MAX).
Qed.

Lemma all_checks_reach_none expected :
  all_checks file expected = true → reaches_absent file expected = None.
Proof.
  unfold all_checks, reaches_absent, spatial_ok, atom_ok.
  destruct (conventions_ok file), (version_ok file); cbn; try done.
  case_bool_decide as Hs; [rewrite Hs | done]; cbn.
  destruct expected as [natoms|]; cbn; [| done].
  case_bool_decide as Ha; [by rewrite Ha | done].
Qed.

Lemma is_valid_true_iff natoms :
  (is_valid file natoms).1 = Ok true ↔ all_checks file (expected_atoms natoms) = true.
Proof.
  rewrite is_valid_result. split.
  - destruct (reaches_absent _ _); [done | congruence].
  - intros Hall. by rewrite all_checks_reach_none, Hall.
Qed.

Lemma all_checks_true expected :
  all_checks file expected = true ↔
    NcFile.global_attribute file "Conventions" = Some "AMBERRESTART" ∧
    NcFile.global_attribute file "ConventionVersion" = Some "1.0" ∧
    NcFile.dimensions (NcFile.content file) !! "spatial" = Some 3 ∧
    (∀ natoms, expected = Some natoms →
       NcFile.dimensions (NcFile.content file) !! "atom" = Some natoms).
Proof.
  unfold all_checks, conventions_ok, version_ok, spatial_ok, atom_ok.
  rewrite !andb_true_iff, !bool_decide_eq_true.
  destruct expected as [natoms|]; [rewrite bool_decide_eq_true |].
  - split.
    + intros [[[Hc Hv] Hs] Ha]. split_and!; try done. by intros ? [= <-].
    + intros (Hc & Hv & Hs & Ha). split_and!; auto.
  - split.
    + intros [[[Hc Hv] Hs] _]. by split_and!.
    + intros (Hc & Hv & Hs & _). by split_and!.
Qed.

(** No warning comes with a positive answer. *)
Lemma is_valid_true_silent natoms :
  (is_valid file natoms).1 = Ok true → (is_valid file natoms).2 = [].
Proof.
  unfold is_valid.
  repeat (case_match; cbn; try done).
Qed.
End Validation.

(** C3 as it is stated does not hold: on a container which carries the two
    convention attributes and no dimension at all, the third check fails,
    and [is_valid] does not return false, it raises the lookup error of
    [dimension]. *)
Lemma is_valid_headers_only_raises :
  let file := Samples.on_disk "bare.ncrst" Samples.headers_only in
  all_checks file (expected_atoms SIZE_MAX) = false ∧
  (is_valid file SIZE_MAX).1 = Err (lookup_error "spatial") ∧
  (is_valid file SIZE_MAX).1 ≠ Ok (all_checks file (expected_atoms SIZE_MAX)).
Proof. by vm_compute. Qed.

(** C3, amended: [is_valid] is the short-circuiting conjunction, in order, of
    the Conventions, ConventionVersion, spatial and (only with an expected
    atom count) atom checks: it returns false at the first failing check,
    whatever comes after it, and true iff all applicable checks pass; but a
    dimension check which is reached on a container without that dimension
    raises the container's lookup error instead of returning false. *)
Theorem is_valid_conjunction (file : NcFile.t) (natoms : N) :
  let expected := expected_atoms natoms in
  let dims := NcFile.dimensions (NcFile.content file) in
  (conventions_ok file = false → (is_valid file natoms).1 = Ok false) ∧
  (conventions_ok file = true → version_ok file = false →
     (is_valid file natoms).1 = Ok false) ∧
  (conventions_ok file = true → version_ok file = true →
     match dims !! "spatial" with
     | None => (is_valid file natoms).1 = Err (lookup_error "spatial")
     | Some spatial =>
         if negb (spatial =? 3) then (is_valid file natoms).1 = Ok false
         else
           match expected, dims !! "atom" with
           | None, _ => (is_valid file natoms).1 = Ok true
           | Some _, None => (is_valid file natoms).1 = Err (lookup_error "atom")
           | Some count, Some atom => (is_valid file natoms).1 = Ok (atom =? count)
           end
     end) ∧
  (reaches_absent file expected = None →
     (is_valid file natoms).1 = Ok (all_checks file expected)) ∧
  ((is_valid file natoms).1 = Ok true ↔ all_checks file expected = true).
Proof.
  intros expected dims. split_and!.
  - intros Hc. rewrite is_valid_result. unfold reaches_absent, all_checks.
    by rewrite Hc.
  - intros Hc Hv. rewrite is_valid_result. unfold reaches_absent, all_checks.
    by rewrite Hc, Hv.
  - intros Hc Hv. rewrite is_valid_result.
    unfold reaches_absent, all_checks, spatial_ok, atom_ok.
    rewrite Hc, Hv. fold dims expected. cbn [andb].
    destruct (dims !! "spatial") as [spatial|]; [| done].
    destruct (N.eqb_spec spatial 3) as [->|Hne]; cbn [negb andb].
    + subst expected. destruct (expected_atoms natoms) as [count|]; cbn; [| done].
      destruct (dims !! "atom") as [atom|]; [| done].
      f_equal. destruct (N.eqb_spec atom count) as [->|Hne].
      * by rewrite !bool_decide_eq_true_2.
      * rewrite (bool_decide_eq_false_2 (Some atom = Some count)) by congruence.
        by rewrite bool_decide_eq_true_2.
    + rewrite bool_decide_eq_false_2 by congruence.
      done.
  - intros Hnone. rewrite is_valid_result. fold expected. by rewrite Hnone.
  - apply is_valid_true_iff.
Qed.

Lemma is_valid_conjunction_witness :
  (is_valid (Samples.on_disk "bare.ncrst" Samples.headers_only) SIZE_MAX).1
    = Err (lookup_error "spatial") ∧
  (is_valid (Samples.on_disk "scaled.ncrst" Samples.scaled) 2).1 = Ok true ∧
  (is_valid (Samples.on_disk "scaled.ncrst" Samples.scaled) 3).1 = Ok false ∧
  (is_valid (Samples.on_disk "empty.ncrst" NcFile.empty) 3).1 = Ok false.
Proof.
  split_and!.
  - destruct (is_valid_conjunction
                (Samples.on_disk "bare.ncrst" Samples.headers_only) SIZE_MAX)
      as (_ & _ & H & _).
    exact (H eq_refl eq_refl).
  - destruct (is_valid_conjunction (Samples.on_disk "scaled.ncrst" Samples.scaled) 2)
      as (_ & _ & _ & _ & H).
    apply H. reflexivity.
  - destruct (is_valid_conjunction (Samples.on_disk "scaled.ncrst" Samples.scaled) 3)
      as (_ & _ & H & _).
    exact (H eq_refl eq_refl).
  - destruct (is_valid_conjunction (Samples.on_disk "empty.ncrst" NcFile.empty) 3)
      as (H & _).
    apply H. reflexivity.
Defined.

(** ** Single-frame reads *)

(** [read_step(0, frame)], call by call. *)
Lemma read_step_0 self frame :
  read_step 0 (self, frame) =
    match read_cell self with
    | Err e => (Err e, (self, frame))
    | Ok cell =>
        let frame := Frame.set_cell cell frame in
        match NcFile.dimension (file_ self) "atom" with
        | Err e => (Err e, (self, frame))
        | Ok natoms =>
            let frame := Frame.resize natoms frame in
            match read_array self "coordinates" (Frame.positions frame) with
            | (Err e, array) => (Err e, (self, Frame.set_positions array frame))
            | (Ok _, array) =>
                let frame := Frame.set_positions array frame in
                if NcFile.variable_exists (file_ self) "velocities" then
                  let frame := Frame.add_velocities frame in
                  match read_array self "velocities" (Frame.velocities_span frame) with
                  | (Err e, array) =>
                      (Err e, (self, Frame.set_velocities array frame))
                  | (Ok _, array) =>
                      (Ok tt, (set_step_done_ true self,
                               Frame.set_velocities array frame))
                  end
                else (Ok tt, (set_step_done_ true self, frame))
            end
        end
    end.
Proof.
  unfold read_step, bind, on_self, on_frame, zoom, query, modify, gets, ret.
  cbn -[read_array read_cell].
  destruct (read_cell self) as [cell|e]; [| done]. cbn -[read_array].
  destruct (NcFile.dimension (file_ self) "atom") as [natoms|e]; [| done].
  cbn -[read_array].
  destruct (read_array self "coordinates" _) as [[[]|e] array]; [| done].
  cbn -[read_array].
  destruct (NcFile.variable_exists (file_ self) "velocities"); [| done].
  cbn -[read_array].
  by destruct (read_array self "velocities" _) as [[[]|e] array'].
Qed.

Lemma read_step_nonzero step s :
  step ≠ 0 → read_step step s = (Err one_frame_read, s).
Proof. unfold read_step. by destruct (N.eqb_spec step 0). Qed.

Lemma read_consumed s :
  step_done_ s.1 = true → read s = (Err one_frame_read, s).
Proof. unfold read, bind, gets. by intros ->. Qed.

Lemma read_delegates s :
  step_done_ s.1 = false → read s = read_step 0 s.
Proof. unfold read, bind, gets. by intros ->. Qed.

(** [read_step] never looks at [step_done_]. *)
Lemma read_step_ignores_flag done self frame :
  let before := read_step 0 (self, frame) in
  let after := read_step 0 (set_step_done_ done self, frame) in
  after.1 = before.1 ∧ after.2.2 = before.2.2 ∧
  file_ after.2.1 = file_ before.2.1.
Proof.
  cbv zeta. rewrite !read_step_0.
  change (read_cell (set_step_done_ done self)) with (read_cell self).
  change (file_ (set_step_done_ done self)) with (file_ self).
  change (read_array (set_step_done_ done self)) with (read_array self).
  destruct (read_cell self) as [cell|e]; [| done].
  destruct (NcFile.dimension (file_ self) "atom") as [natoms|e]; [| done].
  cbv zeta.
  destruct (read_array self "coordinates" _) as [[[]|e] array]; [| done].
  destruct (NcFile.variable_exists (file_ self) "velocities"); [| done].
  by destruct (read_array self "velocities" _) as [[[]|e] array'].
Qed.

(** C1 as it is stated does not hold: [read_step] tests its [step] argument
    only. On a reader of the sample container a first [read_step(0)] consumes
    the frame, and a second [read_step(0)] succeeds again, where [read()]
    fails. *)
Lemma read_step_twice_succeeds :
  let first :=
    read_step 0 (Samples.reader "scaled.ncrst" Samples.scaled, Frame.empty) in
  (AmberRestartFormat_new Samples.disk "scaled.ncrst" File.READ File.DEFAULT).1
    = Ok (Samples.reader "scaled.ncrst" Samples.scaled) ∧
  first.1 = Ok tt ∧ step_done_ first.2.1 = true ∧
  (read_step 0 first.2).1 = Ok tt ∧
  (read first.2).1 = Err one_frame_read.
Proof. by vm_compute. Qed.

(** C1, amended: [read_step(step, frame)] fails with the single-frame error
    whenever [step != 0], and leaves codec and frame as they were; [read()]
    fails with the same error whenever the frame was already consumed, and is
    [read_step(0)] otherwise; [read_step(0)] itself does not consult the
    consumed flag: its outcome and the frame it produces are the same
    whether or not a frame was consumed before. *)
Theorem read_single_frame (s : AmberRestartFormat * Frame.t) (step : N) :
  (step ≠ 0 → read_step step s = (Err one_frame_read, s)) ∧
  (step_done_ s.1 = true → read s = (Err one_frame_read, s)) ∧
  (step_done_ s.1 = false → read s = read_step 0 s) ∧
  (∀ done,
     let after := read_step 0 (set_step_done_ done s.1, s.2) in
     after.1 = (read_step 0 s).1 ∧ after.2.2 = (read_step 0 s).2.2).
Proof.
  split_and!.
  - apply read_step_nonzero.
  - apply read_consumed.
  - apply read_delegates.
  - intros done. destruct s as [self frame].
    destruct (read_step_ignores_flag done self frame) as (Hr & Hf & _).
    by split.
Qed.

Lemma read_single_frame_witness :
  let s := (Samples.reader "scaled.ncrst" Samples.scaled, Frame.empty) in
  let consumed := (read s).2 in
  read_step 3 s = (Err one_frame_read, s) ∧
  read consumed = (Err one_frame_read, consumed) ∧
  read s = read_step 0 s.
Proof.
  cbv zeta. split_and!.
  - apply (read_single_frame _ 3). discriminate.
  - apply (read_single_frame _ 0). by vm_compute.
  - apply (read_single_frame _ 0). reflexivity.
Defined.

(** ** A failing read leaves its traces *)

Lemma cell_add_velocities frame :
  Frame.cell (Frame.add_velocities frame) = Frame.cell frame.
Proof. unfold Frame.add_velocities. by destruct (Frame.velocities frame). Qed.

Lemma read_step_failure self frame cell e :
  read_cell self = Ok cell →
  (read_step 0 (self, frame)).1 = Err e →
  (read_step 0 (self, frame)).2.1 = self ∧
  Frame.cell (read_step 0 (self, frame)).2.2 = cell.
Proof.
  rewrite read_step_0. intros ->.
  destruct (NcFile.dimension (file_ self) "atom") as [natoms|e']; [| done].
  cbv zeta.
  destruct (read_array self "coordinates" _) as [[[]|e'] array]; [| done].
  destruct (NcFile.variable_exists (file_ self) "velocities"); [| done].
  destruct (read_array self "velocities" _) as [[[]|e'] array']; [done |].
  intros _. split; [done |]. cbn. by rewrite cell_add_velocities.
Qed.

Lemma read_step_no_atoms self frame cell e :
  read_cell self = Ok cell →
  NcFile.dimension (file_ self) "atom" = Err e →
  read_step 0 (self, frame) = (Err e, (self, Frame.set_cell cell frame)).
Proof. rewrite read_step_0. by intros -> ->. Qed.

(** C8: [read_step] sets the cell of the destination frame before it reads
    the positions. Whenever a later step fails, the codec is unchanged (its
    consumed flag stays as it was) and the frame already carries the cell of
    the file; when it is the atom dimension which is missing, nothing else
    of the frame changed. Readers which passed the constructor fail in this
    way, one for want of the atom dimension, one for want of the coordinates
    variable. *)
Theorem read_step_partial_mutation :
  (∀ self frame cell e,
     read_cell self = Ok cell →
     (read_step 0 (self, frame)).1 = Err e →
     (read_step 0 (self, frame)).2.1 = self ∧
     Frame.cell (read_step 0 (self, frame)).2.2 = cell) ∧
  (∀ self frame cell e,
     read_cell self = Ok cell →
     NcFile.dimension (file_ self) "atom" = Err e →
     read_step 0 (self, frame) = (Err e, (self, Frame.set_cell cell frame))) ∧
  (∃ self,
     (AmberRestartFormat_new Samples.disk "cell.ncrst" File.READ File.DEFAULT).1
       = Ok self ∧
     let after := read_step 0 (self, Frame.empty) in
     after.1 = Err (lookup_error "atom") ∧
     step_done_ after.2.1 = false ∧
     Frame.cell after.2.2 = UnitCell.mk 15 15 15 90 90 90 ∧
     Frame.cell after.2.2 ≠ Frame.cell Frame.empty) ∧
  (∃ self,
     (AmberRestartFormat_new Samples.disk "no-coordinates.ncrst"
        File.READ File.DEFAULT).1 = Ok self ∧
     let after := read_step 0 (self, Frame.empty) in
     after.1 = Err (lookup_error "coordinates") ∧
     step_done_ after.2.1 = false ∧
     after.2.2 = {| Frame.cell := UnitCell.mk 15 15 15 90 90 90;
                    Frame.positions := [Vector3D.zero; Vector3D.zero];
                    Frame.velocities := None |}).
Proof.
  split_and!.
  - apply read_step_failure.
  - apply read_step_no_atoms.
  - eexists. split; [by vm_compute |]. by vm_compute.
  - eexists. split; [by vm_compute |]. by vm_compute.
Qed.

Lemma read_step_partial_mutation_witness :
  let self := Samples.reader "cell.ncrst" Samples.cell_only in
  let after := read_step 0 (self, Frame.empty) in
  after = (Err (lookup_error "atom"),
           (self, Frame.set_cell (UnitCell.mk 15 15 15 90 90 90) Frame.empty)) ∧
  after.2.1 = self ∧ Frame.cell after.2.2 = UnitCell.mk 15 15 15 90 90 90.
Proof.
  cbv zeta. split.
  - apply (proj1 (proj2 read_step_partial_mutation)); by vm_compute.
  - apply (proj1 read_step_partial_mutation) with (e := lookup_error "atom");
      by vm_compute.
Defined.

(** ** Construction *)

Lemma open_path disk path mode file :
  NcFile.open disk path mode = Ok file →
  NcFile.path file = path ∧ NcFile.mode file = mode.
Proof.
  unfold NcFile.open.
  destruct mode, (disk !! path); intros; by simplify_eq.
Qed.

(** [is_valid] reads global attributes and dimensions, and nothing else. *)
Lemma is_valid_ext file file' natoms :
  NcFile.global_attributes (NcFile.content file)
    = NcFile.global_attributes (NcFile.content file') →
  NcFile.dimensions (NcFile.content file)
    = NcFile.dimensions (NcFile.content file') →
  is_valid file natoms = is_valid file' natoms.
Proof.
  unfold is_valid, NcFile.global_attribute, NcFile.dimension.
  by intros -> ->.
Qed.

Lemma new_read disk path compression file :
  NcFile.open disk path File.READ = Ok file →
  AmberRestartFormat_new disk path File.READ compression =
    (match (is_valid file SIZE_MAX).1 with
     | Ok true =>
         if decide (compression ≠ File.DEFAULT) then
           Err (format_error "compression is not supported with NetCDF format")
         else Ok {| file_ := file; step_done_ := false; validated_ := true |}
     | Ok false =>
         Err (format_error ("invalid AMBER Restart file at '" +:+ path +:+ "'"))
     | Err e => Err e
     end,
     (is_valid file SIZE_MAX).2).
Proof.
  intros Hopen. destruct (open_path _ _ _ _ Hopen) as [Hpath Hmode].
  unfold AmberRestartFormat_new. rewrite Hopen, Hmode, Hpath.
  by destruct (is_valid file SIZE_MAX) as [[[]|e] warnings].
Qed.

Lemma new_append disk path compression :
  is_ok (AmberRestartFormat_new disk path File.APPEND compression).1 = false.
Proof.
  unfold AmberRestartFormat_new.
  destruct (NcFile.open disk path File.APPEND) as [file|e] eqn:Hopen; [| done].
  destruct (open_path _ _ _ _ Hopen) as [_ ->]. done.
Qed.

Lemma new_compressed disk path mode compression :
  compression ≠ File.DEFAULT →
  is_ok (AmberRestartFormat_new disk path mode compression).1 = false.
Proof.
  intros Hc. unfold AmberRestartFormat_new.
  destruct (NcFile.open disk path mode) as [file|e]; [| done].
  destruct (NcFile.mode file); [| done |].
  - destruct (is_valid file SIZE_MAX) as [[[]|e] warnings]; cbn; try done.
    by rewrite decide_True.
  - cbn. by rewrite decide_True.
Qed.

Lemma new_read_ext disk path compression c c' :
  NcFile.global_attributes c = NcFile.global_attributes c' →
  NcFile.dimensions c = NcFile.dimensions c' →
  let made := AmberRestartFormat_new (<[path := c]> disk) path File.READ compression in
  let made' := AmberRestartFormat_new (<[path := c']> disk) path File.READ compression in
  made.2 = made'.2 ∧ is_ok made.1 = is_ok made'.1 ∧
  ∀ e, made.1 = Err e ↔ made'.1 = Err e.
Proof.
  intros Hg Hd. cbv zeta.
  rewrite (new_read _ _ _ (Samples.on_disk path c)),
    (new_read _ _ _ (Samples.on_disk path c'));
    [| unfold NcFile.open; by rewrite lookup_insert_eq ..].
  rewrite (is_valid_ext (Samples.on_disk path c) (Samples.on_disk path c'))
    by done.
  destruct (is_valid _ _) as [[[]|e] warnings]; cbn; try done.
  by case_decide.
Qed.

Lemma new_read_checks disk path compression file :
  NcFile.open disk path File.READ = Ok file →
  (AmberRestartFormat_new disk path File.READ compression).1 =
    let invalid :=
      Err (format_error ("invalid AMBER Restart file at '" +:+ path +:+ "'")) in
    if negb (conventions_ok file && version_ok file) then invalid
    else
      match NcFile.dimensions (NcFile.content file) !! "spatial" with
      | None => Err (lookup_error "spatial")
      | Some spatial =>
          if negb (spatial =? 3) then invalid
          else if decide (compression ≠ File.DEFAULT) then
            Err (format_error "compression is not supported with NetCDF format")
          else Ok {| file_ := file; step_done_ := false; validated_ := true |}
      end.
Proof.
  intros Hopen. rewrite (new_read _ _ _ _ Hopen). cbn [fst].
  rewrite is_valid_result.
  unfold reaches_absent, all_checks, spatial_ok, atom_ok, expected_atoms.
  rewrite N.eqb_refl.
  destruct (conventions_ok file), (version_ok file); cbn; try done.
  destruct (NcFile.dimensions (NcFile.content file) !! "spatial") as [spatial|];
    [| done].
  destruct (N.eqb_spec spatial 3) as [-> | Hne]; cbn.
  - by rewrite bool_decide_eq_true_2.
  - by rewrite bool_decide_eq_false_2 by congruence.
Qed.

Lemma new_append_error disk path compression :
  (AmberRestartFormat_new disk path File.APPEND compression).1 =
    match disk !! path with
    | Some _ =>
        Err (format_error
               "append mode ('a') is not supported with AMBER Restart format")
    | None => Err (io_error path)
    end.
Proof.
  unfold AmberRestartFormat_new, NcFile.open.
  by destruct (disk !! path).
Qed.

Lemma new_write_compressed disk path compression :
  compression ≠ File.DEFAULT →
  (AmberRestartFormat_new disk path File.WRITE compression).1 =
    Err (format_error "compression is not supported with NetCDF format").
Proof.
  intros Hc. unfold AmberRestartFormat_new, NcFile.open. cbn.
  by rewrite decide_True.
Qed.

(** C7 as it is stated does not hold: the constructor does not catch what
    [is_valid] raises. The file with the two convention attributes and no
    dimension is on disk and fails the checks, and constructing the codec
    on it in read mode ends in the lookup error of the spatial dimension,
    which is not a format error. *)
Lemma constructor_headers_only_raises :
  let file := Samples.on_disk "bare.ncrst" Samples.headers_only in
  let made :=
    AmberRestartFormat_new Samples.disk "bare.ncrst" File.READ File.DEFAULT in
  NcFile.open Samples.disk "bare.ncrst" File.READ = Ok file ∧
  all_checks file (expected_atoms SIZE_MAX) = false ∧
  made = (Err (lookup_error "spatial"), []) ∧
  ∀ msg, made.1 ≠ Err (format_error msg).
Proof.
  cbv zeta. split_and!; [by vm_compute .. |].
  intros msg. by vm_compute.
Qed.

(** C7, amended: in read mode the constructor runs [is_valid] with no
    expected atom count. A negative answer is the format error, with no
    codec; an error raised by [is_valid] itself, which is the lookup error
    of the spatial dimension when the two attributes pass and the dimension
    is absent, is passed on in its place; the codec is made exactly when all
    three checks pass and the compression is the default. The outcome depends
    on the global attributes and the dimensions only, not on any variable or
    array. Append mode always fails, with the format error when the file
    could be opened; every compression option but the default fails in every
    mode, with the format error in write mode. An error of the opening
    itself comes first. *)
Theorem constructor_contract :
  (∀ disk path compression file,
     NcFile.open disk path File.READ = Ok file →
     (is_valid file SIZE_MAX).1 = Ok false →
     (AmberRestartFormat_new disk path File.READ compression).1 =
       Err (format_error ("invalid AMBER Restart file at '" +:+ path +:+ "'"))) ∧
  (∀ disk path compression file e,
     NcFile.open disk path File.READ = Ok file →
     (is_valid file SIZE_MAX).1 = Err e →
     (AmberRestartFormat_new disk path File.READ compression).1 = Err e) ∧
  (∀ disk path compression self,
     (AmberRestartFormat_new disk path File.READ compression).1 = Ok self →
     compression = File.DEFAULT ∧ NcFile.open disk path File.READ = Ok (file_ self) ∧
     (is_valid (file_ self) SIZE_MAX).1 = Ok true ∧
     step_done_ self = false ∧ validated_ self = true) ∧
  (∀ disk path compression c c',
     NcFile.global_attributes c = NcFile.global_attributes c' →
     NcFile.dimensions c = NcFile.dimensions c' →
     let made :=
       AmberRestartFormat_new (<[path := c]> disk) path File.READ compression in
     let made' :=
       AmberRestartFormat_new (<[path := c']> disk) path File.READ compression in
     made.2 = made'.2 ∧ is_ok made.1 = is_ok made'.1 ∧
     ∀ e, made.1 = Err e ↔ made'.1 = Err e) ∧
  (∀ disk path compression,
     is_ok (AmberRestartFormat_new disk path File.APPEND compression).1 = false) ∧
  (∀ disk path mode compression,
     compression ≠ File.DEFAULT →
     is_ok (AmberRestartFormat_new disk path mode compression).1 = false) ∧
  (∀ disk path compression file,
     NcFile.open disk path File.READ = Ok file →
     (AmberRestartFormat_new disk path File.READ compression).1 =
       let invalid :=
         Err (format_error ("invalid AMBER Restart file at '" +:+ path +:+ "'")) in
       if negb (conventions_ok file && version_ok file) then invalid
       else
         match NcFile.dimensions (NcFile.content file) !! "spatial" with
         | None => Err (lookup_error "spatial")
         | Some spatial =>
             if negb (spatial =? 3) then invalid
             else if decide (compression ≠ File.DEFAULT) then
               Err (format_error "compression is not supported with NetCDF format")
             else Ok {| file_ := file; step_done_ := false; validated_ := true |}
         end) ∧
  (∀ disk path compression,
     (AmberRestartFormat_new disk path File.APPEND compression).1 =
       match disk !! path with
       | Some _ =>
           Err (format_error
                  "append mode ('a') is not supported with AMBER Restart format")
       | None => Err (io_error path)
       end) ∧
  (∀ disk path compression,
     compression ≠ File.DEFAULT →
     (AmberRestartFormat_new disk path File.WRITE compression).1 =
       Err (format_error "compression is not supported with NetCDF format")) ∧
  (∀ disk path mode compression e,
     NcFile.open disk path mode = Err e →
     AmberRestartFormat_new disk path mode compression = (Err e, [])).
Proof.
  split_and!.
  - intros disk path compression file Hopen Hvalid.
    by rewrite (new_read _ _ _ _ Hopen), Hvalid.
  - intros disk path compression file e Hopen Hvalid.
    by rewrite (new_read _ _ _ _ Hopen), Hvalid.
  - intros disk path compression self.
    destruct (NcFile.open disk path File.READ) as [file|e] eqn:Hopen.
    + rewrite (new_read _ _ _ _ Hopen). cbn.
      destruct (is_valid file SIZE_MAX).1 as [[]|e] eqn:Hvalid; try done.
      case_decide as Hc; [done |].
      intros [= <-]. split_and!; try done.
    + unfold AmberRestartFormat_new. by rewrite Hopen.
  - apply new_read_ext.
  - apply new_append.
  - apply new_compressed.
  - apply new_read_checks.
  - apply new_append_error.
  - apply new_write_compressed.
  - intros disk path mode compression e Hopen.
    unfold AmberRestartFormat_new. by rewrite Hopen.
Qed.

Lemma constructor_contract_witness :
  (AmberRestartFormat_new Samples.disk "bare.ncrst" File.READ File.DEFAULT).1
    = Err (lookup_error "spatial") ∧
  (AmberRestartFormat_new (<["empty.ncrst" := NcFile.empty]> Samples.disk)
     "empty.ncrst" File.READ File.DEFAULT).1
    = Err (format_error "invalid AMBER Restart file at 'empty.ncrst'") ∧
  is_ok (AmberRestartFormat_new Samples.disk "scaled.ncrst" File.WRITE File.GZIP).1
    = false.
Proof.
  split_and!.
  - apply (proj1 (proj2 constructor_contract)) with
      (file := Samples.on_disk "bare.ncrst" Samples.headers_only); by vm_compute.
  - apply (proj1 constructor_contract) with
      (file := Samples.on_disk "empty.ncrst" NcFile.empty); by vm_compute.
  - apply (proj1 (proj2 (proj2 (proj2 (proj2 (proj2 constructor_contract)))))).
    discriminate.
Defined.

(** ** Reading through the container *)

Section ContainerReads.
Import NcFile.
Variable f : NcFile.t.

Lemma variable_ok T name v :
  variables (content f) !! name = Some v → type_of (data v) = T →
  variable T f name = Ok {| var_id := name |}.
Proof. unfold variable. intros -> HT. by rewrite decide_True. Qed.

Lemma variable_ok_inv T name var :
  variable T f name = Ok var →
  var = {| var_id := name |} ∧
  ∃ v, variables (content f) !! name = Some v ∧ type_of (data v) = T.
Proof.
  unfold variable. destruct (variables (content f) !! name) as [v|]; [| done].
  case_decide; [| done]. intros [= <-]. eauto.
Qed.

Lemma variable_exists_true name :
  variable_exists f name = true ↔ is_Some (variables (content f) !! name).
Proof. unfold variable_exists. apply bool_decide_eq_true. Qed.

Lemma optional_dimension_3 name :
  optional_dimension f name 0 = 3 ↔ dimensions (content f) !! name = Some 3.
Proof.
  unfold optional_dimension.
  destruct (dimensions (content f) !! name); naive_solver.
Qed.

Lemma get_ok name v values start count :
  nc_mode f = DATA →
  variables (content f) !! name = Some v →
  data v = Doubles values →
  shape f v = Ok count →
  start = (λ _, 0) <$> count →
  get f {| var_id := name |} start count
    = Ok (resize (N.to_nat (hyperslab_size count)) 0%float values).
Proof.
  intros Hmode Hv Hdata Hshape ->.
  unfold get, in_data, find, check_bounds. cbn.
  rewrite Hmode, Hv. cbn. rewrite Hshape. cbn.
  rewrite decide_True by done. cbn. by rewrite Hdata.
Qed.

Lemma get_ok_inv var start count buffer :
  get f var start count = Ok buffer →
  ∃ v values,
    nc_mode f = DATA ∧
    variables (content f) !! var_id var = Some v ∧
    data v = Doubles values ∧
    shape f v = Ok count ∧
    buffer = resize (N.to_nat (hyperslab_size count)) 0%float values.
Proof.
  unfold get, in_data, find, check_bounds.
  destruct (nc_mode f); [done |].
  destruct (variables (content f) !! var_id var) as [v|]; [| done]. cbn.
  destruct (shape f v) as [sh|] eqn:Hshape; [| done]. cbn.
  case_decide as Hb; cbn; [| done]. destruct Hb as [_ ->].
  destruct (data v) as [|values] eqn:Hdata; [done |].
  intros [= <-]. by exists v, values.
Qed.

Lemma get_length var start count buffer :
  get f var start count = Ok buffer →
  length buffer = N.to_nat (hyperslab_size count).
Proof.
  intros (v & values & _ & _ & _ & _ & ->)%get_ok_inv. apply length_resize.
Qed.

Lemma attribute_exists_scale {T} (var : NcVariable T) :
  attribute_exists f var "scale_factor"
    = bool_decide (is_Some (stored_scale_factor f (var_id var))).
Proof.
  unfold attribute_exists, stored_scale_factor.
  by destruct (variables (content f) !! var_id var) as [v|].
Qed.

Lemma float_attribute_scale {T} (var : NcVariable T) s :
  stored_scale_factor f (var_id var) = Some (NumberAttribute s) →
  float_attribute f var "scale_factor" = Ok s.
Proof.
  unfold float_attribute, stored_scale_factor, find.
  destruct (variables (content f) !! var_id var) as [v|]; [| done]. cbn.
  by intros ->.
Qed.
End ContainerReads.

(** The scaling of the three cell values of a variable. *)
Lemma scale_triple f (var : NcFile.NcVariable NcDouble) s v0 v1 v2 :
  stored_scale_factor f (NcFile.var_id var) = NcFile.NumberAttribute <$> s →
  (if NcFile.attribute_exists f var "scale_factor" then
     scale_factor ← to_single <$> NcFile.float_attribute f var "scale_factor";
     Ok (alter (λ v, v * scale_factor)%float 2%nat
          (alter (λ v, v * scale_factor)%float 1%nat
            (alter (λ v, v * scale_factor)%float 0%nat [v0; v1; v2])))
   else Ok [v0; v1; v2])
  = Ok [scaled s v0; scaled s v1; scaled s v2].
Proof.
  intros Hs. rewrite attribute_exists_scale, Hs.
  destruct s as [s|]; cbn; [| done].
  by rewrite (float_attribute_scale f var s Hs).
Qed.

Lemma read_cell_no_variable self :
  NcFile.variable_exists (file_ self) "cell_lengths" = false ∨
  NcFile.variable_exists (file_ self) "cell_angles" = false →
  read_cell self = Ok UnitCell.default.
Proof. unfold read_cell. by intros [-> | ->]; [| destruct (negb _)]. Qed.

Lemma read_cell_no_dimension self :
  NcFile.dimensions (NcFile.content (file_ self)) !! "cell_spatial" ≠ Some 3 ∨
  NcFile.dimensions (NcFile.content (file_ self)) !! "cell_angular" ≠ Some 3 →
  read_cell self = Ok UnitCell.default.
Proof.
  intros Hdims. unfold read_cell. cbv zeta.
  destruct (_ || _); [done |].
  rewrite <- !optional_dimension_3 in Hdims.
  destruct Hdims as [Hd | Hd]; apply N.eqb_neq in Hd; rewrite Hd; [done |].
  by destruct (negb _).
Qed.

Lemma read_cell_ok self l0 l1 l2 a0 a1 a2 sl sa :
  let file := file_ self in
  NcFile.dimensions (NcFile.content file) !! "cell_spatial" = Some 3 →
  NcFile.dimensions (NcFile.content file) !! "cell_angular" = Some 3 →
  NcFile.get file {| NcFile.var_id := "cell_lengths" |} [0] [3] = Ok [l0; l1; l2] →
  NcFile.get file {| NcFile.var_id := "cell_angles" |} [0] [3] = Ok [a0; a1; a2] →
  stored_scale_factor file "cell_lengths" = NcFile.NumberAttribute <$> sl →
  stored_scale_factor file "cell_angles" = NcFile.NumberAttribute <$> sa →
  read_cell self =
    Ok (UnitCell.mk (scaled sl l0) (scaled sl l1) (scaled sl l2)
                    (scaled sa a0) (scaled sa a1) (scaled sa a2)).
Proof.
  intros file Hds Hda Hl Ha Hsl Hsa. unfold read_cell. fold file. cbv zeta.
  destruct (get_ok_inv _ _ _ _ _ Hl) as (vl & ? & _ & Hvl & Hdl & _).
  destruct (get_ok_inv _ _ _ _ _ Ha) as (va & ? & _ & Hva & Hdva & _).
  cbn in Hvl, Hva.
  rewrite (proj2 (variable_exists_true file "cell_lengths")) by eauto.
  rewrite (proj2 (variable_exists_true file "cell_angles")) by eauto.
  rewrite (proj2 (optional_dimension_3 file "cell_spatial")) by done.
  rewrite (proj2 (optional_dimension_3 file "cell_angular")) by done.
  cbn [negb orb N.eqb Pos.eqb].
  rewrite (variable_ok file NcDouble "cell_lengths" vl) by (by rewrite ?Hdl).
  rewrite (variable_ok file NcDouble "cell_angles" va) by (by rewrite ?Hdva).
  cbn [mbind result_bind]. rewrite Hl, Ha. cbn [mbind result_bind].
  change (check (bool_decide (length [l0; l1; l2] = 3%nat))) with (@Ok unit tt).
  change (check (bool_decide (length [a0; a1; a2] = 3%nat))) with (@Ok unit tt).
  cbn [mbind result_bind].
  rewrite (scale_triple file {| NcFile.var_id := "cell_lengths" |} sl l0 l1 l2 Hsl).
  cbn [mbind result_bind].
  by rewrite (scale_triple file {| NcFile.var_id := "cell_angles" |} sa a0 a1 a2 Hsa).
Qed.

Lemma scale_buffer {S} f (var : NcFile.NcVariable NcDouble) s
    (data : list double) (st : S) :
  stored_scale_factor f (NcFile.var_id var) = NcFile.NumberAttribute <$> s →
  (if NcFile.attribute_exists f var "scale_factor" then
     scale_factor <- query (λ _,
       to_single <$> NcFile.float_attribute f var "scale_factor") ;;
     ret ((λ value, value * scale_factor)%float <$> data)
   else ret data) st
  = (Ok (scaled s <$> data), st).
Proof.
  intros Hs. rewrite attribute_exists_scale, Hs.
  destruct s as [s|]; cbn.
  - unfold bind, query. by rewrite (float_attribute_scale f var s Hs).
  - unfold ret. by rewrite list_fmap_id.
Qed.

Lemma hyperslab_atoms natoms :
  N.to_nat (NcFile.hyperslab_size [natoms; 3]) = (3 * N.to_nat natoms)%nat.
Proof. unfold NcFile.hyperslab_size. cbn [foldr]. lia. Qed.

Lemma read_array_ok self name array natoms data s :
  NcFile.dimension (file_ self) "atom" = Ok natoms →
  length array = N.to_nat natoms →
  NcFile.get (file_ self) {| NcFile.var_id := name |} [0; 0] [natoms; 3] = Ok data →
  stored_scale_factor (file_ self) name = NcFile.NumberAttribute <$> s →
  read_array self name array = (Ok tt, group3 (scaled s <$> data)).
Proof.
  intros Hdim Hlen Hget Hs.
  destruct (get_ok_inv _ _ _ _ _ Hget) as (v & values & _ & Hv & Hdata & _).
  cbn in Hv.
  assert (NcFile.variable NcDouble (file_ self) name
            = Ok {| NcFile.var_id := name |}) as Hvar.
  { apply (variable_ok _ _ _ v); [done | by rewrite Hdata]. }
  unfold read_array.
  erewrite bind_ok by (unfold query; by rewrite Hvar).
  erewrite bind_ok by (unfold query; by rewrite Hdim).
  erewrite bind_ok by reflexivity.
  erewrite bind_ok.
  2:{ unfold assert. rewrite Hlen, N2Nat.id, N.eqb_refl. reflexivity. }
  cbv zeta.
  erewrite bind_ok by (unfold query; by rewrite Hget).
  erewrite bind_ok by (by apply scale_buffer).
  unfold modify. rewrite <- Hlen, read_loop; [done |].
  rewrite length_fmap, (get_length _ _ _ _ _ Hget), hyperslab_atoms. lia.
Qed.

Lemma float_attribute_scale_inv f {T} (var : NcFile.NcVariable T) s :
  NcFile.float_attribute f var "scale_factor" = Ok s →
  stored_scale_factor f (NcFile.var_id var) = Some (NcFile.NumberAttribute s).
Proof.
  unfold NcFile.float_attribute, stored_scale_factor, NcFile.find.
  destruct (NcFile.variables (NcFile.content f) !! NcFile.var_id var) as [v|];
    [| done]. cbn.
  destruct (NcFile.attributes v !! "scale_factor") as [[|s']|]; try done.
  by intros [= ->].
Qed.

Lemma scale_triple_inv f (var : NcFile.NcVariable NcDouble) v0 v1 v2 values :
  (if NcFile.attribute_exists f var "scale_factor" then
     scale_factor ← to_single <$> NcFile.float_attribute f var "scale_factor";
     Ok (alter (λ v, v * scale_factor)%float 2%nat
          (alter (λ v, v * scale_factor)%float 1%nat
            (alter (λ v, v * scale_factor)%float 0%nat [v0; v1; v2])))
   else Ok [v0; v1; v2]) = Ok values →
  ∃ s, stored_scale_factor f (NcFile.var_id var) = NcFile.NumberAttribute <$> s ∧
       values = [scaled s v0; scaled s v1; scaled s v2].
Proof.
  rewrite attribute_exists_scale. case_bool_decide as Hs.
  - destruct (NcFile.float_attribute f var "scale_factor") as [s|] eqn:Hattr;
      [| done].
    apply float_attribute_scale_inv in Hattr.
    intros [= <-]. by exists (Some s).
  - intros [= <-]. exists None. split; [| done].
    destruct (stored_scale_factor f (NcFile.var_id var)); [| done].
    by destruct Hs.
Qed.

Lemma three_values (values : list double) :
  length values = 3%nat → ∃ v0 v1 v2, values = [v0; v1; v2].
Proof. destruct values as [|v0 [|v1 [|v2 [|]]]]; try done. eauto. Qed.

(** What a successful [read_cell] went through. *)
Lemma read_cell_ok_inv self cell :
  let file := file_ self in
  read_cell self = Ok cell →
  NcFile.variable_exists file "cell_lengths" = true →
  NcFile.variable_exists file "cell_angles" = true →
  NcFile.dimensions (NcFile.content file) !! "cell_spatial" = Some 3 →
  NcFile.dimensions (NcFile.content file) !! "cell_angular" = Some 3 →
  ∃ l0 l1 l2 a0 a1 a2 sl sa,
    NcFile.get file {| NcFile.var_id := "cell_lengths" |} [0] [3] = Ok [l0; l1; l2] ∧
    NcFile.get file {| NcFile.var_id := "cell_angles" |} [0] [3] = Ok [a0; a1; a2] ∧
    stored_scale_factor file "cell_lengths" = NcFile.NumberAttribute <$> sl ∧
    stored_scale_factor file "cell_angles" = NcFile.NumberAttribute <$> sa ∧
    cell = UnitCell.mk (scaled sl l0) (scaled sl l1) (scaled sl l2)
                       (scaled sa a0) (scaled sa a1) (scaled sa a2).
Proof.
  intros file Hcell Hvl Hva Hds Hda. revert Hcell.
  unfold read_cell. fold file. cbv zeta. rewrite Hvl, Hva.
  rewrite (proj2 (optional_dimension_3 file "cell_spatial")) by done.
  rewrite (proj2 (optional_dimension_3 file "cell_angular")) by done.
  cbn [negb orb N.eqb Pos.eqb].
  destruct (NcFile.variable NcDouble file "cell_lengths") as [lv|] eqn:Hlv;
    [| done].
  apply variable_ok_inv in Hlv as [-> _].
  destruct (NcFile.variable NcDouble file "cell_angles") as [av|] eqn:Hav;
    [| done].
  apply variable_ok_inv in Hav as [-> _].
  cbn [mbind result_bind].
  destruct (NcFile.get file {| NcFile.var_id := "cell_lengths" |} [0] [3])
    as [lengths|] eqn:Hl; [| done].
  destruct (NcFile.get file {| NcFile.var_id := "cell_angles" |} [0] [3])
    as [angles|] eqn:Ha; [| done].
  cbn [mbind result_bind].
  destruct (three_values lengths) as (l0 & l1 & l2 & ->);
    [by rewrite (get_length _ _ _ _ _ Hl) |].
  destruct (three_values angles) as (a0 & a1 & a2 & ->);
    [by rewrite (get_length _ _ _ _ _ Ha) |].
  change (check (bool_decide (length [l0; l1; l2] = 3%nat))) with (@Ok unit tt).
  change (check (bool_decide (length [a0; a1; a2] = 3%nat))) with (@Ok unit tt).
  cbn [mbind result_bind].
  destruct (if NcFile.attribute_exists file {| NcFile.var_id := "cell_lengths" |} _
            then _ else _) as [lengths|] eqn:Hsl; [| done].
  apply scale_triple_inv in Hsl as (sl & Hsl & ->).
  cbn [mbind result_bind].
  destruct (if NcFile.attribute_exists file {| NcFile.var_id := "cell_angles" |} _
            then _ else _) as [angles|] eqn:Hsa; [| done].
  apply scale_triple_inv in Hsa as (sa & Hsa & ->).
  cbn [mbind result_bind]. intros [= <-].
  by exists l0, l1, l2, a0, a1, a2, sl, sa.
Qed.

(** C2: without one of the two cell variables, or without a [cell_spatial]
    or [cell_angular] dimension of size 3, [read_cell] returns the default
    cell and no error. Otherwise a successful [read_cell] read the two arrays
    of three values, applied to each triple the [scale_factor] of its own
    variable, if there is one, and built the cell from the six results; and
    it does succeed when the two arrays can be read and the scale factors,
    if any, are numbers. *)
Theorem read_cell_spec (self : AmberRestartFormat) :
  let file := file_ self in
  let dims := NcFile.dimensions (NcFile.content file) in
  let lengths := {| NcFile.var_id := "cell_lengths" |} in
  let angles := {| NcFile.var_id := "cell_angles" |} in
  (NcFile.variable_exists file "cell_lengths" = false ∨
   NcFile.variable_exists file "cell_angles" = false ∨
   dims !! "cell_spatial" ≠ Some 3 ∨ dims !! "cell_angular" ≠ Some 3 →
   read_cell self = Ok UnitCell.default) ∧
  (∀ cell,
     read_cell self = Ok cell →
     NcFile.variable_exists file "cell_lengths" = true →
     NcFile.variable_exists file "cell_angles" = true →
     dims !! "cell_spatial" = Some 3 → dims !! "cell_angular" = Some 3 →
     ∃ l0 l1 l2 a0 a1 a2 sl sa,
       NcFile.get file lengths [0] [3] = Ok [l0; l1; l2] ∧
       NcFile.get file angles [0] [3] = Ok [a0; a1; a2] ∧
       stored_scale_factor file "cell_lengths" = NcFile.NumberAttribute <$> sl ∧
       stored_scale_factor file "cell_angles" = NcFile.NumberAttribute <$> sa ∧
       cell = UnitCell.mk (scaled sl l0) (scaled sl l1) (scaled sl l2)
                          (scaled sa a0) (scaled sa a1) (scaled sa a2)) ∧
  (∀ l0 l1 l2 a0 a1 a2 sl sa,
     dims !! "cell_spatial" = Some 3 → dims !! "cell_angular" = Some 3 →
     NcFile.get file lengths [0] [3] = Ok [l0; l1; l2] →
     NcFile.get file angles [0] [3] = Ok [a0; a1; a2] →
     stored_scale_factor file "cell_lengths" = NcFile.NumberAttribute <$> sl →
     stored_scale_factor file "cell_angles" = NcFile.NumberAttribute <$> sa →
     read_cell self =
       Ok (UnitCell.mk (scaled sl l0) (scaled sl l1) (scaled sl l2)
                       (scaled sa a0) (scaled sa a1) (scaled sa a2))).
Proof.
  intros file dims lengths angles. split_and!.
  - intros [H | [H | [H | H]]].
    + apply read_cell_no_variable. by left.
    + apply read_cell_no_variable. by right.
    + apply read_cell_no_dimension. by left.
    + apply read_cell_no_dimension. by right.
  - intros cell. apply read_cell_ok_inv.
  - intros *. apply read_cell_ok.
Qed.

Lemma read_cell_spec_witness :
  read_cell (Samples.reader "no-cell.ncrst" Samples.no_cell) = Ok UnitCell.default ∧
  read_cell (Samples.reader "scaled.ncrst" Samples.scaled) =
    Ok (UnitCell.mk (60.9682 * to_single 1.765) (60.9682 * to_single 1.765)
                    (0 * to_single 1.765) 90 90 90).
Proof.
  split.
  - apply (proj1 (read_cell_spec (Samples.reader "no-cell.ncrst" Samples.no_cell))).
    left. reflexivity.
  - apply (proj2 (proj2 (read_cell_spec
                           (Samples.reader "scaled.ncrst" Samples.scaled)))
             60.9682 60.9682 0 90 90 90 (Some 1.765) None)%float; reflexivity.
Defined.

(** C5: [read_array] on a variable of shape [atom, spatial] multiplies every
    raw value by the [scale_factor] of the variable, if it has one, and then
    groups the flat buffer of [3 * atom] values by runs of three, in atom
    order: vector [i] is made of the scaled values at [3i], [3i+1], [3i+2]. *)
Theorem read_array_spec self name (array : list Vector3D.t) natoms data s :
  NcFile.dimension (file_ self) "atom" = Ok natoms →
  length array = N.to_nat natoms →
  NcFile.get (file_ self) {| NcFile.var_id := name |} [0; 0] [natoms; 3] = Ok data →
  stored_scale_factor (file_ self) name = NcFile.NumberAttribute <$> s →
  let out := (read_array self name array).2 in
  (read_array self name array).1 = Ok tt ∧
  length data = (3 * N.to_nat natoms)%nat ∧
  length out = N.to_nat natoms ∧
  out = group3 (scaled s <$> data) ∧
  ∀ i, (i < N.to_nat natoms)%nat →
    out !! i =
      Some (Vector3D.mk (scaled s (data !!! (3 * i + 0)%nat))
                        (scaled s (data !!! (3 * i + 1)%nat))
                        (scaled s (data !!! (3 * i + 2)%nat))).
Proof.
  intros Hdim Hlen Hget Hs out. subst out.
  rewrite (read_array_ok _ _ _ _ _ _ Hdim Hlen Hget Hs). cbn [fst snd].
  assert (length data = (3 * N.to_nat natoms)%nat) as Hdata.
  { by rewrite (get_length _ _ _ _ _ Hget), hyperslab_atoms. }
  assert (length (scaled s <$> data) = (3 * N.to_nat natoms)%nat) as Hscaled.
  { by rewrite length_fmap. }
  split_and!; try done.
  - by apply length_group3.
  - intros i Hi.
    rewrite (group3_lookup _ (N.to_nat natoms)) by done.
    by rewrite !(list_lookup_total_fmap (scaled s) data) by lia.
Qed.

Lemma read_array_spec_witness :
  let self := Samples.reader "scaled.ncrst" Samples.scaled in
  let out := (read_array self "velocities" (replicate 2 Vector3D.zero)).2 in
  out = [Vector3D.mk (1 * to_single (-0.856)) (0 * to_single (-0.856))
                     (0 * to_single (-0.856));
         Vector3D.mk (0 * to_single (-0.856)) (1 * to_single (-0.856))
                     (0 * to_single (-0.856))]%float.
Proof.
  cbv zeta.
  apply (read_array_spec (Samples.reader "scaled.ncrst" Samples.scaled)
           "velocities" (replicate 2 Vector3D.zero) 2
           [1; 0; 0; 0; 1; 0]%float (Some (-0.856)%float)); reflexivity.
Defined.

(** C10: the scale factor is retrieved into a C++ [float], and the doubles
    are multiplied by that float: the multiplier of the cell triples and of
    the per-atom arrays is [to_single] of the stored attribute. This is the
    stored attribute rounded to a float in the sense of IEEE 754: a float of
    the same sign, the nearest one, the one with the even mantissa where two
    are as near, and an infinity from [2^128 - 2^103] on. It is the stored
    attribute itself exactly when that is a float already. With the stored
    value 1.765 it is not, and the product is not the one with the double
    1.765. *)
Theorem scale_factor_is_single_precision :
  (∀ self name (array : list Vector3D.t) natoms data s,
     NcFile.dimension (file_ self) "atom" = Ok natoms →
     length array = N.to_nat natoms →
     NcFile.get (file_ self) {| NcFile.var_id := name |} [0; 0] [natoms; 3]
       = Ok data →
     stored_scale_factor (file_ self) name = Some (NcFile.NumberAttribute s) →
     read_array self name array =
       (Ok tt, group3 ((λ value, value * to_single s)%float <$> data))) ∧
  (∀ self l0 l1 l2 a0 a1 a2 sl sa,
     let file := file_ self in
     NcFile.dimensions (NcFile.content file) !! "cell_spatial" = Some 3 →
     NcFile.dimensions (NcFile.content file) !! "cell_angular" = Some 3 →
     NcFile.get file {| NcFile.var_id := "cell_lengths" |} [0] [3]
       = Ok [l0; l1; l2] →
     NcFile.get file {| NcFile.var_id := "cell_angles" |} [0] [3]
       = Ok [a0; a1; a2] →
     stored_scale_factor file "cell_lengths" = Some (NcFile.NumberAttribute sl) →
     stored_scale_factor file "cell_angles" = Some (NcFile.NumberAttribute sa) →
     read_cell self =
       Ok (UnitCell.mk (l0 * to_single sl) (l1 * to_single sl) (l2 * to_single sl)
             (a0 * to_single sa) (a1 * to_single sa) (a2 * to_single sa))%float) ∧
  (∀ s, float_rounded s (to_single s)) ∧
  (∀ s, to_single s = s ↔ is_float s) ∧
  (to_single 1.765 ≠ 1.765%float ∧
   (60.9682 * to_single 1.765)%float ≠ (60.9682 * 1.765)%float ∧
   UnitCell.a <$> read_cell (Samples.reader "scaled.ncrst" Samples.scaled)
     = Ok (60.9682 * to_single 1.765)%float).
Proof.
  split_and!.
  - intros self name array natoms data s Hdim Hlen Hget Hs.
    by apply (read_array_ok self name array natoms data (Some s)).
  - intros self l0 l1 l2 a0 a1 a2 sl sa file Hds Hda Hl Ha Hsl Hsa.
    by apply (read_cell_ok self l0 l1 l2 a0 a1 a2 (Some sl) (Some sa)).
  - apply to_single_rounded.
  - apply to_single_fixed.
  - by vm_compute.
  - by vm_compute.
  - by vm_compute.
Qed.

Lemma scale_factor_is_single_precision_witness :
  let self := Samples.reader "scaled.ncrst" Samples.scaled in
  read_array self "coordinates" (replicate 2 Vector3D.zero) =
    (Ok tt, group3 ((λ value, value * to_single 0.5)%float
                      <$> [1; 2; 3; 4; 5; 6]%float)) ∧
  ¬ is_float 1.765%float.
Proof.
  cbv zeta. split.
  - apply (proj1 scale_factor_is_single_precision
             (Samples.reader "scaled.ncrst" Samples.scaled)
             "coordinates" (replicate 2 Vector3D.zero) 2); reflexivity.
  - intros Hfloat.
    apply (proj1 (proj2 (proj2 (proj2 scale_factor_is_single_precision)))) in Hfloat.
    revert Hfloat. by vm_compute.
Defined.

(** ** Single-frame writes *)

Lemma write_consumed frame self :
  step_done_ self = true → write frame self = (Err one_frame_write, self).
Proof. unfold write, bind, gets. by intros ->. Qed.

Lemma write_ok_done frame self self' :
  write frame self = (Ok tt, self') → step_done_ self' = true.
Proof.
  unfold write. intros H.
  apply bind_ok_inv in H as (done & s0 & _ & H).
  destruct done; [done |].
  do 5 (apply bind_ok_inv in H as (? & ? & _ & H)).
  unfold modify in H. by simplify_eq.
Qed.

(** C4: after a successful [write], a second [write] through the same handle
    fails with the single-frame error, and the handle - the container with
    all it holds, and the two flags - is exactly what the first [write]
    left. *)
Theorem write_twice self frame frame' :
  (write frame self).1 = Ok tt →
  write frame' (write frame self).2 = (Err one_frame_write, (write frame self).2).
Proof.
  intros Hfirst. apply write_consumed.
  apply (write_ok_done frame self).
  destruct (write frame self) as [[[]|] self']; by simplify_eq.
Qed.

Lemma write_twice_witness :
  let first := write Samples.four_atoms (fresh "tmp.ncrst") in
  first.1 = Ok tt ∧ write Samples.still first.2 = (Err one_frame_write, first.2).
Proof.
  cbv zeta. split; [by vm_compute |].
  apply (write_twice (fresh "tmp.ncrst") Samples.four_atoms Samples.still).
  by vm_compute.
Defined.

(** ** What a write leaves in the container *)

Lemma initialize_fresh path natoms with_velocities :
  initialize natoms with_velocities (file_ (fresh path))
    = (Ok tt, file_of path File.WRITE (initialized natoms with_velocities)).
Proof. destruct with_velocities; vm_compute; reflexivity. Qed.

Section ContainerWrites.
Import NcFile.
Variable f : NcFile.t.

Lemma add_ok name v count buffer :
  nc_mode f = DATA →
  variables (content f) !! name = Some v →
  shape f v = Ok count →
  N.of_nat (length buffer) = hyperslab_size count →
  add {| var_id := name |} ((λ _, 0) <$> count) count buffer f
    = (Ok tt, set_variable name (with_data (Doubles buffer) v) f).
Proof.
  intros Hmode Hv Hshape Hlen. unfold add. apply update_ok.
  unfold in_data, find, check_bounds. cbn.
  rewrite Hmode, Hv. cbn. rewrite Hshape. cbn.
  rewrite decide_True by done. cbn. by rewrite decide_True.
Qed.

Lemma add_ok_inv var start count buffer f' :
  add var start count buffer f = (Ok tt, f') →
  ∃ v, variables (content f) !! var_id var = Some v ∧
       f' = set_variable (var_id var) (with_data (Doubles buffer) v) f.
Proof.
  unfold add. intros H%update_ok_inv. revert H.
  unfold in_data, find, check_bounds.
  destruct (nc_mode f); [done |].
  destruct (variables (content f) !! var_id var) as [v|]; [| done]. cbn.
  destruct (shape f v) as [sh|]; [| done]. cbn.
  repeat case_decide; cbn; try done.
  intros [= <-]. by exists v.
Qed.

Lemma stores_set_variable name v values :
  data v = Doubles values → stores (set_variable name v f) name values.
Proof. intros Hdata. exists v. cbn. by rewrite lookup_insert_eq. Qed.

Lemma stores_set_variable_ne name name' v values :
  name ≠ name' → stores f name values → stores (set_variable name' v f) name values.
Proof.
  intros Hne (v' & Hv' & Hdata). exists v'. cbn.
  by rewrite lookup_insert_ne.
Qed.
End ContainerWrites.

Lemma on_file_ok {A} (m : M NcFile.t A) self a file' :
  m (file_ self) = (Ok a, file') → on_file m self = (Ok a, set_file_ file' self).
Proof. unfold on_file, zoom. by intros ->. Qed.

Lemma on_file_ok_inv {A} (m : M NcFile.t A) self a self' :
  on_file m self = (Ok a, self') →
  ∃ file', m (file_ self) = (Ok a, file') ∧ self' = set_file_ file' self.
Proof.
  unfold on_file, zoom. destruct (m (file_ self)) as [r file'].
  intros [= -> <-]. by exists file'.
Qed.

Lemma write_array_ok array name self v :
  NcFile.nc_mode (file_ self) = NcFile.DATA →
  NcFile.variables (NcFile.content (file_ self)) !! name = Some v →
  NcFile.type_of (NcFile.data v) = NcDouble →
  NcFile.shape (file_ self) v = Ok [N.of_nat (length array); 3] →
  write_array array name self =
    (Ok tt,
     set_file_ (NcFile.set_variable name
                  (with_data (NcFile.Doubles (flatten array)) v) (file_ self)) self).
Proof.
  intros Hmode Hv Htype Hshape. unfold write_array.
  erewrite bind_ok by (unfold query; by rewrite (variable_ok _ _ _ v)).
  cbv zeta. rewrite write_loop.
  apply on_file_ok.
  apply (add_ok _ name v [N.of_nat (length array); 3]); try done.
  rewrite length_flatten. unfold NcFile.hyperslab_size. cbn [foldr]. lia.
Qed.

Lemma write_array_ok_inv array name self self' :
  write_array array name self = (Ok tt, self') →
  ∃ v, NcFile.variables (NcFile.content (file_ self)) !! name = Some v ∧
       self' = set_file_ (NcFile.set_variable name
                 (with_data (NcFile.Doubles (flatten array)) v) (file_ self)) self.
Proof.
  unfold write_array. intros H.
  apply bind_ok_inv in H as (var & s1 & Hvar & H). unfold query in Hvar.
  destruct (NcFile.variable _ _ _) as [var'|] eqn:Hvar'; [| done].
  apply variable_ok_inv in Hvar' as [-> _]. simplify_eq.
  cbv zeta in H. rewrite write_loop in H.
  apply on_file_ok_inv in H as (file' & Hadd & ->).
  apply add_ok_inv in Hadd as (v & Hv & ->). by exists v.
Qed.

Lemma write_cell_ok_inv cell self self' :
  write_cell cell self = (Ok tt, self') →
  ∃ vl va,
    NcFile.variables (NcFile.content (file_ self)) !! "cell_lengths" = Some vl ∧
    NcFile.variables (NcFile.content (file_ self)) !! "cell_angles" = Some va ∧
    self' = set_file_
      (NcFile.set_variable "cell_angles"
         (with_data (NcFile.Doubles
            [UnitCell.alpha cell; UnitCell.beta cell; UnitCell.gamma cell]) va)
         (NcFile.set_variable "cell_lengths"
            (with_data (NcFile.Doubles
               [UnitCell.a cell; UnitCell.b cell; UnitCell.c cell]) vl)
            (file_ self))) self.
Proof.
  unfold write_cell. intros H.
  apply bind_ok_inv in H as (lv & s1 & Hlv & H). unfold query in Hlv.
  destruct (NcFile.variable _ _ "cell_lengths") as [lv'|] eqn:Hlv'; [| done].
  apply variable_ok_inv in Hlv' as [-> _]. simplify_eq.
  apply bind_ok_inv in H as (av & s2 & Hav & H). unfold query in Hav.
  destruct (NcFile.variable _ _ "cell_angles") as [av'|] eqn:Hav'; [| done].
  apply variable_ok_inv in Hav' as [-> (va & Hva & _)]. simplify_eq.
  cbv zeta in H.
  apply bind_ok_inv in H as ([] & s3 & Hl & H).
  apply on_file_ok_inv in Hl as (file1 & Hl & ->).
  apply add_ok_inv in Hl as (vl & Hvl & ->).
  apply on_file_ok_inv in H as (file2 & Ha & ->).
  apply add_ok_inv in Ha as (va' & Hva' & ->).
  cbn in Hvl, Hva'. rewrite lookup_insert_ne in Hva' by done.
  simplify_eq. by exists vl, va.
Qed.

(** *** The schema operations only add variables *)

Create HintDb schema.

Lemma keeps_ret {A} (a : A) : keeps_variables (ret a).
Proof. intros f a' f' name [= _ <-]. done. Qed.

Lemma keeps_bind {A B} (m : M NcFile.t A) (k : A → M NcFile.t B) :
  keeps_variables m → (∀ a, keeps_variables (k a)) → keeps_variables (bind m k).
Proof.
  intros Hm Hk f b f' name (a & f1 & H1 & H2)%bind_ok_inv Hf.
  eapply Hk; [exact H2 |]. eapply Hm; [exact H1 | exact Hf].
Qed.

Lemma keeps_if {A} (b : bool) (m m' : M NcFile.t A) :
  keeps_variables m → keeps_variables m' → keeps_variables (if b then m else m').
Proof. by destruct b. Qed.

Lemma keeps_update (u : NcFile.t → result NcFile.t) :
  (∀ f f' name, u f = Ok f' → declares f name → declares f' name) →
  keeps_variables (update u).
Proof. intros Hu f [] f' name H%update_ok_inv. by apply Hu. Qed.

Lemma declares_set_variable f name name' v :
  declares f name → declares (NcFile.set_variable name' v f) name.
Proof.
  unfold declares. cbn. intros Hf.
  destruct (decide (name' = name)) as [->|Hne].
  - rewrite lookup_insert_eq. eauto.
  - by rewrite lookup_insert_ne.
Qed.

Lemma keeps_set_nc_mode m : keeps_variables (NcFile.set_nc_mode m).
Proof.
  apply keeps_update. intros f f' name.
  by destruct (NcFile.nc_mode f), m; intros [= <-].
Qed.

Lemma keeps_add_dimension name size : keeps_variables (NcFile.add_dimension name size).
Proof.
  apply keeps_update. intros f f' name'. unfold NcFile.in_define.
  by destruct (NcFile.nc_mode f); intros [= <-].
Qed.

Lemma keeps_add_global_attribute name value :
  keeps_variables (NcFile.add_global_attribute name value).
Proof.
  apply keeps_update. intros f f' name'. unfold NcFile.in_define.
  by destruct (NcFile.nc_mode f); intros [= <-].
Qed.

Lemma keeps_add_variable T name dimensions :
  keeps_variables (NcFile.add_variable T name dimensions).
Proof.
  apply keeps_bind; [| intros; apply keeps_ret].
  apply keeps_update. intros f f' name'. unfold NcFile.in_define.
  destruct (NcFile.nc_mode f); intros [= <-]. apply declares_set_variable.
Qed.

Lemma keeps_add_string_attribute {T} (var : NcFile.NcVariable T) name value :
  keeps_variables (NcFile.add_string_attribute var name value).
Proof.
  apply keeps_update. intros f f' name'. unfold NcFile.find.
  destruct (NcFile.variables _ !! _); intros [= <-].
  apply declares_set_variable.
Qed.

Lemma keeps_add_chars var labels : keeps_variables (NcFile.add_chars var labels).
Proof.
  apply keeps_update. intros f f' name'. unfold NcFile.in_data, NcFile.find.
  destruct (NcFile.nc_mode f); [done |].
  destruct (NcFile.variables _ !! _); intros [= <-].
  apply declares_set_variable.
Qed.

Lemma declaring_add_variable T name dimensions :
  declaring name (NcFile.add_variable T name dimensions).
Proof.
  intros f a f' (? & f1 & H%update_ok_inv & [= _ <-])%bind_ok_inv.
  revert H. unfold NcFile.in_define.
  destruct (NcFile.nc_mode f); intros [= <-].
  unfold declares. cbn. rewrite lookup_insert_eq. eauto.
Qed.

Lemma declaring_bind_l {A B} name (m : M NcFile.t A) (k : A → M NcFile.t B) :
  declaring name m → (∀ a, keeps_variables (k a)) → declaring name (bind m k).
Proof.
  intros Hm Hk f b f' (a & f1 & H1 & H2)%bind_ok_inv.
  eapply Hk; [exact H2 |]. eapply Hm, H1.
Qed.

Lemma declaring_bind_r {A B} name (m : M NcFile.t A) (k : A → M NcFile.t B) :
  (∀ a, declaring name (k a)) → declaring name (bind m k).
Proof.
  intros Hk f b f' (a & f1 & H1 & H2)%bind_ok_inv. eapply Hk, H2.
Qed.

#[local] Hint Resolve keeps_ret keeps_if keeps_set_nc_mode keeps_add_dimension
  keeps_add_global_attribute keeps_add_variable keeps_add_string_attribute
  keeps_add_chars : schema.
#[local] Hint Extern 2 (keeps_variables (bind _ _)) =>
  apply keeps_bind; [| intros ?] : schema.

Lemma initialize_declares natoms with_velocities :
  declaring "cell_lengths" (initialize natoms with_velocities) ∧
  declaring "cell_angles" (initialize natoms with_velocities).
Proof.
  unfold initialize. split.
  - do 15 (apply declaring_bind_r; intros ?).
    apply declaring_bind_l; [apply declaring_add_variable |].
    intros ?. auto 20 with schema.
  - do 17 (apply declaring_bind_r; intros ?).
    apply declaring_bind_l; [apply declaring_add_variable |].
    intros ?. auto 20 with schema.
Qed.

(** The steps of a successful [write]. *)
Lemma write_ok_inv frame self self' :
  write frame self = (Ok tt, self') →
  ∃ s1 s2 s3 s4,
    (validated_ self = true → s1 = self) ∧
    (validated_ self = false → ∃ s0,
       on_file (initialize (N.of_nat (Frame.size frame))
                  (bool_decide (is_Some (Frame.velocities frame)))) self
         = (Ok tt, s0) ∧
       s1 = set_validated_ true s0) ∧
    write_cell (Frame.cell frame) s1 = (Ok tt, s2) ∧
    write_array (Frame.positions frame) "coordinates" s2 = (Ok tt, s3) ∧
    match Frame.velocities frame with
    | Some velocities => write_array velocities "velocities" s3 = (Ok tt, s4)
    | None => s4 = s3
    end ∧
    self' = set_step_done_ true s4.
Proof.
  unfold write. intros H.
  apply bind_ok_inv in H as (done & ? & [= <- <-] & H).
  destruct (step_done_ self); [done |].
  apply bind_ok_inv in H as (validated & ? & [= <- <-] & H).
  apply bind_ok_inv in H as ([] & s1 & Hinit & H).
  apply bind_ok_inv in H as ([] & s2 & Hcell & H).
  apply bind_ok_inv in H as ([] & s3 & Hpos & H).
  apply bind_ok_inv in H as ([] & s4 & Hvel & H).
  exists s1, s2, s3, s4. split_and!; try done.
  - intros Hv. rewrite Hv in Hinit. by injection Hinit as <-.
  - intros Hv. rewrite Hv in Hinit. cbn [negb] in Hinit.
    apply bind_ok_inv in Hinit as ([] & s0 & Hinit & H0).
    apply bind_ok_inv in H0 as (valid & ? & Hvalid & H0).
    unfold query in Hvalid. injection Hvalid as Hvalid <-.
    apply bind_ok_inv in H0 as ([] & ? & Hassert & H0).
    unfold assert in Hassert. destruct valid; [| done].
    injection Hassert as <-. injection H0 as <-. by exists s0.
  - destruct (Frame.velocities frame); [done |]. by injection Hvel as <-.
  - unfold modify in H. by simplify_eq.
Qed.

Lemma write_stores_cell frame self self' :
  write frame self = (Ok tt, self') →
  let cell := Frame.cell frame in
  stores (file_ self') "cell_lengths"
    [UnitCell.a cell; UnitCell.b cell; UnitCell.c cell] ∧
  stores (file_ self') "cell_angles"
    [UnitCell.alpha cell; UnitCell.beta cell; UnitCell.gamma cell].
Proof.
  intros (s1 & s2 & s3 & s4 & _ & _ & Hcell & Hpos & Hvel & ->)%write_ok_inv cell.
  apply write_cell_ok_inv in Hcell as (vl & va & _ & _ & Hs2).
  apply write_array_ok_inv in Hpos as (vp & _ & Hs3).
  assert (stores (file_ s3) "cell_lengths"
            [UnitCell.a cell; UnitCell.b cell; UnitCell.c cell] ∧
          stores (file_ s3) "cell_angles"
            [UnitCell.alpha cell; UnitCell.beta cell; UnitCell.gamma cell])
    as [Hl Ha].
  { subst s3 s2. cbn [file_ set_file_]. split.
    - do 2 (apply stores_set_variable_ne; [done |]).
      by apply stores_set_variable.
    - apply stores_set_variable_ne; [done |]. by apply stores_set_variable. }
  destruct (Frame.velocities frame) as [velocities|].
  - apply write_array_ok_inv in Hvel as (vv & _ & ->).
    cbn [file_ set_file_ set_step_done_].
    split; by apply stores_set_variable_ne.
  - by subst s4.
Qed.

(** C9: [initialize] declares [cell_lengths] and [cell_angles] whatever its
    arguments are, and every successful [write] stores the six values of the
    frame's cell in them. The container of a written frame therefore has
    both cell variables, and the default cell is stored as three zero
    lengths, not as absent variables. *)
Theorem write_always_stores_cell :
  (∀ natoms with_velocities file file',
     initialize natoms with_velocities file = (Ok tt, file') →
     NcFile.variable_exists file' "cell_lengths" = true ∧
     NcFile.variable_exists file' "cell_angles" = true) ∧
  (∀ frame self self',
     write frame self = (Ok tt, self') →
     let cell := Frame.cell frame in
     NcFile.variable_exists (file_ self') "cell_lengths" = true ∧
     NcFile.variable_exists (file_ self') "cell_angles" = true ∧
     stores (file_ self') "cell_lengths"
       [UnitCell.a cell; UnitCell.b cell; UnitCell.c cell] ∧
     stores (file_ self') "cell_angles"
       [UnitCell.alpha cell; UnitCell.beta cell; UnitCell.gamma cell]) ∧
  (∀ frame self self',
     write frame self = (Ok tt, self') →
     Frame.cell frame = UnitCell.default →
     NcFile.variable_exists (file_ self') "cell_lengths" = true ∧
     stores (file_ self') "cell_lengths" [0; 0; 0]%float).
Proof.
  split_and!.
  - intros natoms with_velocities file file' Hinit.
    destruct (initialize_declares natoms with_velocities) as [Hl Ha].
    split; apply variable_exists_true; [eapply Hl | eapply Ha]; exact Hinit.
  - intros frame self self' Hwrite cell.
    destruct (write_stores_cell _ _ _ Hwrite) as [Hl Ha].
    split_and!; try done; apply variable_exists_true.
    + destruct Hl as (v & -> & _). eauto.
    + destruct Ha as (v & -> & _). eauto.
  - intros frame self self' Hwrite Hcell.
    destruct (write_stores_cell _ _ _ Hwrite) as [Hl _].
    rewrite Hcell in Hl. split; [| done].
    apply variable_exists_true. destruct Hl as (v & -> & _). eauto.
Qed.

Lemma write_always_stores_cell_witness :
  let self' := (write Samples.four_atoms (fresh "tmp.ncrst")).2 in
  NcFile.variable_exists (file_ self') "cell_lengths" = true ∧
  stores (file_ self') "cell_lengths" [0; 0; 0]%float.
Proof.
  cbv zeta.
  apply (proj2 (proj2 write_always_stores_cell) Samples.four_atoms
           (fresh "tmp.ncrst")); by vm_compute.
Defined.

(** ** Round trip *)

Lemma new_write disk path :
  AmberRestartFormat_new disk path File.WRITE File.DEFAULT = (Ok (fresh path), []).
Proof. reflexivity. Qed.

Lemma shape_set_variable f name v v' :
  NcFile.shape (NcFile.set_variable name v f) v' = NcFile.shape f v'.
Proof. reflexivity. Qed.

Lemma write_cell_ok cell self vl va :
  let f := file_ self in
  NcFile.nc_mode f = NcFile.DATA →
  NcFile.variables (NcFile.content f) !! "cell_lengths" = Some vl →
  NcFile.variables (NcFile.content f) !! "cell_angles" = Some va →
  NcFile.type_of (NcFile.data vl) = NcDouble →
  NcFile.type_of (NcFile.data va) = NcDouble →
  NcFile.shape f vl = Ok [3] → NcFile.shape f va = Ok [3] →
  write_cell cell self =
    (Ok tt, set_file_
      (NcFile.set_variable "cell_angles"
         (with_data (NcFile.Doubles
            [UnitCell.alpha cell; UnitCell.beta cell; UnitCell.gamma cell]) va)
         (NcFile.set_variable "cell_lengths"
            (with_data (NcFile.Doubles
               [UnitCell.a cell; UnitCell.b cell; UnitCell.c cell]) vl) f)) self).
Proof.
  intros f Hmode Hvl Hva Htl Hta Hsl Hsa. unfold write_cell.
  erewrite bind_ok by (unfold query; by rewrite (variable_ok _ _ _ vl)).
  erewrite bind_ok by (unfold query; by rewrite (variable_ok _ _ _ va)).
  cbv zeta.
  erewrite bind_ok.
  2:{ apply on_file_ok. by apply (add_ok _ "cell_lengths" vl [3]). }
  erewrite on_file_ok; [reflexivity |].
  apply (add_ok _ "cell_angles" va [3]); try done.
  cbn. by rewrite lookup_insert_ne.
Qed.

Lemma expected_atoms_some natoms count :
  expected_atoms natoms = Some count → count = natoms.
Proof. unfold expected_atoms. by destruct (natoms =? SIZE_MAX); intros [= <-]. Qed.

Lemma is_valid_initialized path natoms with_velocities :
  (is_valid (file_of path File.WRITE (initialized natoms with_velocities)) natoms).1
    = Ok true.
Proof.
  apply is_valid_true_iff, all_checks_true. split_and!; try reflexivity.
  by intros count ->%expected_atoms_some.
Qed.

Lemma is_valid_written path frame :
  is_valid (file_of path File.READ (written frame)) SIZE_MAX = (Ok true, []).
Proof.
  assert ((is_valid (file_of path File.READ (written frame)) SIZE_MAX).1 = Ok true)
    as Hvalid.
  { apply is_valid_true_iff, all_checks_true. by split_and!. }
  pose proof (is_valid_true_silent _ _ Hvalid) as Hsilent.
  destruct (is_valid _ _) as [valid warnings]. cbn in *. by subst.
Qed.

(** The first [write] through a fresh handle. *)
Lemma write_fresh path frame :
  Frame.wf frame →
  write frame (fresh path) =
    (Ok tt, {| file_ := file_of path File.WRITE (written frame);
               step_done_ := true; validated_ := true |}).
Proof.
  intros Hwf. unfold write.
  rewrite bind_gets. change (step_done_ (fresh path)) with false. cbv beta iota.
  rewrite bind_gets. change (validated_ (fresh path)) with false.
  cbn [negb]. cbv beta iota.
  set (natoms := N.of_nat (Frame.size frame)).
  set (with_velocities := bool_decide (is_Some (Frame.velocities frame))).
  erewrite bind_ok.
  2:{ erewrite bind_ok by apply on_file_ok, initialize_fresh.
      erewrite bind_ok.
      2:{ unfold query. cbn [file_ set_file_].
          by rewrite is_valid_initialized. }
      erewrite bind_ok by reflexivity. reflexivity. }
  erewrite bind_ok.
  2:{ eapply write_cell_ok; destruct with_velocities; reflexivity. }
  erewrite bind_ok.
  2:{ eapply write_array_ok; destruct with_velocities; reflexivity. }
  destruct frame as [cell positions [velocities|]];
    subst natoms with_velocities; cbn [Frame.velocities Frame.positions Frame.cell].
  - erewrite bind_ok.
    2:{ eapply write_array_ok; try reflexivity.
        cbn. by rewrite (Hwf velocities). }
    reflexivity.
  - reflexivity.
Qed.

Lemma get_array f name v (array : list Vector3D.t) :
  NcFile.nc_mode f = NcFile.DATA →
  NcFile.variables (NcFile.content f) !! name = Some v →
  NcFile.data v = NcFile.Doubles (flatten array) →
  NcFile.shape f v = Ok [N.of_nat (length array); 3] →
  NcFile.get f {| NcFile.var_id := name |} [0; 0] [N.of_nat (length array); 3]
    = Ok (flatten array).
Proof.
  intros Hmode Hv Hdata Hshape.
  rewrite (get_ok f name v (flatten array) [0; 0] [N.of_nat (length array); 3])
    by done.
  rewrite hyperslab_atoms, Nat2N.id, <- length_flatten. by rewrite resize_all.
Qed.

(** Reading back, array by array. *)
Lemma read_array_written self name v (stored array : list Vector3D.t) :
  let f := file_ self in
  NcFile.nc_mode f = NcFile.DATA →
  NcFile.dimension f "atom" = Ok (N.of_nat (length stored)) →
  NcFile.variables (NcFile.content f) !! name = Some v →
  NcFile.data v = NcFile.Doubles (flatten stored) →
  NcFile.attributes v !! "scale_factor" = None →
  NcFile.shape f v = Ok [N.of_nat (length stored); 3] →
  length array = length stored →
  read_array self name array = (Ok tt, stored).
Proof.
  intros f Hmode Hdim Hv Hdata Hattr Hshape Hlen.
  rewrite (read_array_ok self name array (N.of_nat (length stored))
             (flatten stored) None).
  - by rewrite list_fmap_id, group3_flatten.
  - done.
  - by rewrite Nat2N.id.
  - by apply (get_array f name v).
  - unfold stored_scale_factor. fold f. by rewrite Hv.
Qed.

Lemma read_written path frame dst :
  Frame.wf frame → Frame.velocities dst = None →
  read ({| file_ := file_of path File.READ (written frame);
           step_done_ := false; validated_ := true |}, dst)
    = (Ok tt, ({| file_ := file_of path File.READ (written frame);
                  step_done_ := true; validated_ := true |}, frame)).
Proof.
  intros Hwf Hdst. rewrite read_delegates by done. rewrite read_step_0.
  destruct dst as [dcell dpositions dvelocities]. cbn in Hdst. subst dvelocities.
  destruct frame as [[a b c alpha beta gamma] positions velocities].
  set (self := {| file_ := _; step_done_ := false |}).
  assert (read_cell self = Ok (UnitCell.mk a b c alpha beta gamma)) as ->.
  { apply (read_cell_ok self a b c alpha beta gamma None None);
      by destruct velocities. }
  assert (NcFile.dimension (file_ self) "atom" = Ok (N.of_nat (length positions)))
    as Hdim by done.
  rewrite Hdim. cbv zeta.
  erewrite (read_array_written self "coordinates" _ positions);
    [| by destruct velocities .. | cbn; by rewrite length_resize, Nat2N.id].
  destruct velocities as [velocities|].
  - change (NcFile.variable_exists (file_ self) "velocities") with true.
    cbv iota.
    erewrite (read_array_written self "velocities" _ velocities); try done.
    + cbn. by rewrite (Hwf velocities).
    + cbn. by rewrite (Hwf velocities).
    + cbn. rewrite length_replicate. by rewrite (Hwf velocities).
  - done.
Qed.

Lemma new_read_written disk path frame :
  AmberRestartFormat_new
    (NcFile.close (file_of path File.WRITE (written frame)) disk)
    path File.READ File.DEFAULT
  = (Ok {| file_ := file_of path File.READ (written frame);
           step_done_ := false; validated_ := true |}, []).
Proof.
  rewrite (new_read _ _ _ (file_of path File.READ (written frame))).
  - by rewrite is_valid_written.
  - unfold NcFile.open, NcFile.close. cbn. by rewrite lookup_insert_eq.
Qed.

(** C6: write a frame (any number of atoms, any positions, any cell, with or
    without velocities) through a fresh handle, close it, open the file for
    reading and read into a frame which has no velocities of its own: the
    frame read has the positions, the cell and the velocities of the written
    one - none when none were written, in which case the container has no
    [velocities] variable. The cell read is the one built from the six
    values which were stored. *)
Theorem round_trip disk path (frame dst : Frame.t) :
  Frame.wf frame → Frame.velocities dst = None →
  ∃ writer reader out,
    AmberRestartFormat_new disk path File.WRITE File.DEFAULT
      = (Ok (fresh path), []) ∧
    write frame (fresh path) = (Ok tt, writer) ∧
    AmberRestartFormat_new (NcFile.close (file_ writer) disk)
      path File.READ File.DEFAULT = (Ok reader, []) ∧
    (read (reader, dst)).1 = Ok tt ∧
    out = (read (reader, dst)).2.2 ∧
    Frame.positions out = Frame.positions frame ∧
    Frame.cell out = Frame.cell frame ∧
    Frame.cell out =
      UnitCell.mk (UnitCell.a (Frame.cell frame)) (UnitCell.b (Frame.cell frame))
        (UnitCell.c (Frame.cell frame)) (UnitCell.alpha (Frame.cell frame))
        (UnitCell.beta (Frame.cell frame)) (UnitCell.gamma (Frame.cell frame)) ∧
    Frame.velocities out = Frame.velocities frame ∧
    (NcFile.variable_exists (file_ writer) "velocities"
       = bool_decide (is_Some (Frame.velocities frame))) ∧
    (NcFile.variable_exists (file_ reader) "velocities"
       = bool_decide (is_Some (Frame.velocities frame))).
Proof.
  intros Hwf Hdst. eexists _, _, frame.
  split; [apply new_write |].
  split; [by apply write_fresh |].
  split; [apply new_read_written |].
  rewrite read_written by done. cbn [fst snd file_].
  split_and!; try done.
  - by destruct (Frame.cell frame).
  - by destruct frame as [? ? []].
  - by destruct frame as [? ? []].
Qed.

Lemma round_trip_witness :
  ∃ writer reader out,
    AmberRestartFormat_new Samples.disk "tmp.ncrst" File.WRITE File.DEFAULT
      = (Ok (fresh "tmp.ncrst"), []) ∧
    write Samples.four_atoms (fresh "tmp.ncrst") = (Ok tt, writer) ∧
    AmberRestartFormat_new (NcFile.close (file_ writer) Samples.disk)
      "tmp.ncrst" File.READ File.DEFAULT = (Ok reader, []) ∧
    (read (reader, Frame.empty)).1 = Ok tt ∧
    out = (read (reader, Frame.empty)).2.2 ∧
    out = Samples.four_atoms.
Proof.
  destruct (round_trip Samples.disk "tmp.ncrst" Samples.four_atoms Frame.empty)
    as (writer & reader & out & Hnew & Hwrite & Hopen & Hread & Hout & Hp & Hc
        & _ & Hv & _).
  - intros array [= <-]. reflexivity.
  - reflexivity.
  - exists writer, reader, out.
    split; [exact Hnew |]. split; [exact Hwrite |]. split; [exact Hopen |].
    split; [exact Hread |]. split; [exact Hout |].
    clear Hout. destruct out as [cell positions velocities].
    cbn [Frame.positions Frame.cell Frame.velocities] in Hp, Hc, Hv.
    rewrite Hp, Hc, Hv. reflexivity.
Defined.

(** * Further properties of the codec *)

(** ** What a read does to the handle *)

Lemma read_step_codec step s :
  (read_step step s).2.1 =
    if is_ok (read_step step s).1 then set_step_done_ true s.1 else s.1.
Proof.
  destruct s as [self frame].
  destruct (N.eqb_spec step 0) as [->|Hstep];
    [| by rewrite read_step_nonzero].
  rewrite read_step_0.
  destruct (read_cell self) as [cell|e]; [| done].
  destruct (NcFile.dimension (file_ self) "atom") as [natoms|e]; [| done].
  cbv zeta.
  destruct (read_array self "coordinates" _) as [[[]|e] array]; [| done].
  destruct (NcFile.variable_exists (file_ self) "velocities"); [| done].
  by destruct (read_array self "velocities" _) as [[[]|e] array'].
Qed.

Lemma read_codec s :
  (read s).2.1 = if is_ok (read s).1 then set_step_done_ true s.1 else s.1.
Proof.
  destruct (step_done_ s.1) eqn:Hdone.
  - by rewrite read_consumed.
  - rewrite read_delegates by done. apply read_step_codec.
Qed.

(** X1: reading never writes to the container. After [read_step] or [read]
    the handle is the one before, with [step_done_] set when the call
    succeeded: a failed read leaves the handle exactly as it was, so that it
    can be tried again, and the file and the [validated_] flag never change. *)
Theorem read_touches_flag_only (step : N) (s : AmberRestartFormat * Frame.t) :
  (read_step step s).2.1 =
    (if is_ok (read_step step s).1 then set_step_done_ true s.1 else s.1) ∧
  (read s).2.1 = (if is_ok (read s).1 then set_step_done_ true s.1 else s.1) ∧
  file_ (read_step step s).2.1 = file_ s.1 ∧
  file_ (read s).2.1 = file_ s.1 ∧
  validated_ (read_step step s).2.1 = validated_ s.1 ∧
  validated_ (read s).2.1 = validated_ s.1.
Proof.
  pose proof (read_step_codec step s) as Hstep.
  pose proof (read_codec s) as Hread.
  split_and!; try done.
  - rewrite Hstep. destruct (is_ok (read_step step s).1); reflexivity.
  - rewrite Hread. destruct (is_ok (read s).1); reflexivity.
  - rewrite Hstep. destruct (is_ok (read_step step s).1); reflexivity.
  - rewrite Hread. destruct (is_ok (read s).1); reflexivity.
Qed.

(** X2: the single frame is shared by the two directions. A handle through
    which a frame was written refuses [read()], and a handle from which the
    frame was read (by [read] or [read_step]) refuses [write]; the refused
    call changes nothing. *)
Theorem one_frame_either_way :
  (∀ frame self dst,
     (write frame self).1 = Ok tt →
     read ((write frame self).2, dst)
       = (Err one_frame_read, ((write frame self).2, dst))) ∧
  (∀ s frame,
     (read s).1 = Ok tt →
     write frame (read s).2.1 = (Err one_frame_write, (read s).2.1)) ∧
  (∀ step s frame,
     (read_step step s).1 = Ok tt →
     write frame (read_step step s).2.1
       = (Err one_frame_write, (read_step step s).2.1)).
Proof.
  split_and!.
  - intros frame self dst Hwrite. apply read_consumed.
    destruct (write frame self) as [[[]|] self'] eqn:Hrun; [| done].
    apply (write_ok_done frame self self' Hrun).
  - intros s frame Hread. apply write_consumed.
    by rewrite read_codec, Hread.
  - intros step s frame Hread. apply write_consumed.
    by rewrite read_step_codec, Hread.
Qed.

Lemma one_frame_either_way_witness :
  let written := (write Samples.still (fresh "tmp.ncrst")).2 in
  let consumed :=
    (read (Samples.reader "scaled.ncrst" Samples.scaled, Frame.empty)).2.1 in
  read (written, Frame.empty) = (Err one_frame_read, (written, Frame.empty)) ∧
  write Samples.still consumed = (Err one_frame_write, consumed).
Proof.
  cbv zeta. split.
  - apply (proj1 one_frame_either_way). by vm_compute.
  - apply (proj1 (proj2 one_frame_either_way)). by vm_compute.
Defined.

(** ** The asserts of the read path *)

Lemma length_read_loop (data : list double) (array : list Vector3D.t)
    (steps : list nat) :
  length (foldl (λ array i,
      assign i 2 (data !!! (3 * i + 2)%nat)
        (assign i 1 (data !!! (3 * i + 1)%nat)
          (assign i 0 (data !!! (3 * i + 0)%nat) array)))
    array steps) = length array.
Proof.
  revert array. induction steps as [|i steps IH]; intros array; [done |].
  cbn [foldl]. rewrite IH. unfold assign. by rewrite !length_alter.
Qed.

(** [read_array], call by call. *)
Lemma read_array_run self name array :
  read_array self name array =
    match NcFile.variable NcDouble (file_ self) name with
    | Err e => (Err e, array)
    | Ok var =>
        match NcFile.dimension (file_ self) "atom" with
        | Err e => (Err e, array)
        | Ok natoms =>
            if negb (N.of_nat (length array) =? natoms) then
              (Err assertion_failure, array)
            else
              match NcFile.get (file_ self) var [0; 0] [natoms; 3] with
              | Err e => (Err e, array)
              | Ok data =>
                  if NcFile.attribute_exists (file_ self) var "scale_factor" then
                    match NcFile.float_attribute (file_ self) var "scale_factor" with
                    | Err e => (Err e, array)
                    | Ok s =>
                        (Ok tt, group3 ((λ value, value * to_single s)%float <$> data))
                    end
                  else (Ok tt, group3 data)
              end
        end
    end.
Proof.
  unfold read_array, bind, query, gets, assert, ret, throw, modify.
  destruct (NcFile.variable NcDouble (file_ self) name) as [var|e]; [| done].
  destruct (NcFile.dimension (file_ self) "atom") as [natoms|e]; [| done].
  destruct (N.eqb_spec (N.of_nat (length array)) natoms) as [Hlen|Hlen];
    [| done]. cbn [negb].
  destruct (NcFile.get (file_ self) var [0; 0] [natoms; 3]) as [data|e] eqn:Hget;
    [| done].
  assert (length data = (3 * length array)%nat) as Hdata.
  { rewrite (get_length _ _ _ _ _ Hget), hyperslab_atoms. lia. }
  replace (N.to_nat natoms) with (length array) by lia.
  destruct (NcFile.attribute_exists (file_ self) var "scale_factor").
  - destruct (NcFile.float_attribute (file_ self) var "scale_factor") as [s|e];
      [| done]. cbn.
    by rewrite read_loop by (by rewrite length_fmap).
  - by rewrite read_loop.
Qed.

Lemma length_read_array self name array :
  length (read_array self name array).2 = length array.
Proof.
  unfold read_array, bind, query, gets, assert, ret, throw, modify.
  repeat (case_match; simplify_eq; cbn; try done); apply length_read_loop.
Qed.

Section NoAssertion.
Import NcFile.
Variable f : NcFile.t.

Lemma variable_no_assertion T name :
  variable T f name ≠ Err assertion_failure.
Proof. unfold variable. by repeat case_match. Qed.

Lemma dimension_no_assertion name : dimension f name ≠ Err assertion_failure.
Proof. unfold dimension. by case_match. Qed.

Lemma shape_no_assertion v : shape f v ≠ Err assertion_failure.
Proof.
  unfold shape. induction (dims v) as [|d ds IH]; [done |]. cbn.
  destruct (dimension f d) as [size|e] eqn:Hd; cbn.
  - destruct (mapM (dimension f) ds); [done | cbn; congruence].
  - intros [= ->]. by apply (dimension_no_assertion d).
Qed.

Lemma get_no_assertion var start count :
  get f var start count ≠ Err assertion_failure.
Proof.
  unfold get, in_data, find, check_bounds.
  destruct (nc_mode f); [done |].
  destruct (variables (content f) !! var_id var) as [v|]; [| done]. cbn.
  destruct (shape f v) as [sh|e] eqn:Hshape; cbn.
  - case_decide; cbn; [by case_match | done].
  - intros [= ->]. by apply (shape_no_assertion v).
Qed.

Lemma float_attribute_no_assertion {T} (var : NcVariable T) name :
  float_attribute f var name ≠ Err assertion_failure.
Proof. unfold float_attribute, find. by repeat (case_match; cbn). Qed.
End NoAssertion.

Lemma read_cell_no_assertion self : read_cell self ≠ Err assertion_failure.
Proof.
  unfold read_cell. cbv zeta.
  destruct (_ || _); [done |]. destruct (_ || _); [done |].
  destruct (NcFile.variable NcDouble (file_ self) "cell_lengths") as [lv|e] eqn:Hlv;
    [| intros [= ->]; by eapply variable_no_assertion].
  destruct (NcFile.variable NcDouble (file_ self) "cell_angles") as [av|e] eqn:Hav;
    [| intros [= ->]; by eapply variable_no_assertion].
  cbn [mbind result_bind].
  destruct (NcFile.get (file_ self) lv [0] [3]) as [lengths|e] eqn:Hl;
    [| intros [= ->]; by eapply get_no_assertion].
  destruct (NcFile.get (file_ self) av [0] [3]) as [angles|e] eqn:Ha;
    [| intros [= ->]; by eapply get_no_assertion].
  cbn [mbind result_bind].
  destruct (three_values lengths) as (l0 & l1 & l2 & ->);
    [by rewrite (get_length _ _ _ _ _ Hl) |].
  destruct (three_values angles) as (a0 & a1 & a2 & ->);
    [by rewrite (get_length _ _ _ _ _ Ha) |].
  change (check (bool_decide (length [l0; l1; l2] = 3%nat))) with (@Ok unit tt).
  change (check (bool_decide (length [a0; a1; a2] = 3%nat))) with (@Ok unit tt).
  cbn [mbind result_bind].
  destruct (NcFile.attribute_exists (file_ self) lv "scale_factor").
  - destruct (NcFile.float_attribute (file_ self) lv "scale_factor") as [s|e] eqn:Hs;
      [| intros [= ->]; by eapply float_attribute_no_assertion].
    cbn. destruct (NcFile.attribute_exists (file_ self) av "scale_factor"); [| done].
    destruct (NcFile.float_attribute (file_ self) av "scale_factor") as [s'|e] eqn:Hs';
      [done | intros [= ->]; by eapply float_attribute_no_assertion].
  - cbn. destruct (NcFile.attribute_exists (file_ self) av "scale_factor"); [| done].
    destruct (NcFile.float_attribute (file_ self) av "scale_factor") as [s'|e] eqn:Hs';
      [done | intros [= ->]; by eapply float_attribute_no_assertion].
Qed.

Lemma read_array_no_assertion self name array natoms :
  NcFile.dimension (file_ self) "atom" = Ok natoms →
  length array = N.to_nat natoms →
  (read_array self name array).1 ≠ Err assertion_failure.
Proof.
  intros Hdim Hlen. rewrite read_array_run, Hdim.
  destruct (NcFile.variable NcDouble (file_ self) name) as [var|e] eqn:Hvar;
    [| intros [= ->]; by eapply variable_no_assertion].
  replace (N.of_nat (length array) =? natoms) with true
    by (symmetry; apply N.eqb_eq; lia).
  cbn [negb].
  destruct (NcFile.get (file_ self) var [0; 0] [natoms; 3]) as [data|e] eqn:Hget;
    [| intros [= ->]; by eapply get_no_assertion].
  destruct (NcFile.attribute_exists (file_ self) var "scale_factor"); [| done].
  destruct (NcFile.float_attribute (file_ self) var "scale_factor") as [s|e] eqn:Hs;
    [done | intros [= ->]; by eapply float_attribute_no_assertion].
Qed.

Lemma size_resize natoms frame :
  Frame.size (Frame.resize natoms frame) = N.to_nat natoms.
Proof. unfold Frame.size. cbn. apply length_resize. Qed.

Lemma length_velocities_span natoms frame array :
  length array = N.to_nat natoms →
  length (Frame.velocities_span
            (Frame.add_velocities
               (Frame.set_positions array (Frame.resize natoms frame))))
    = N.to_nat natoms.
Proof.
  intros Hlen. destruct frame as [cell positions [velocities|]];
    unfold Frame.add_velocities, Frame.velocities_span, Frame.size; cbn.
  - apply length_resize.
  - by rewrite length_replicate.
Qed.

(** X3: the assertions of the read path never fail. [read_step] resizes the
    frame to the atom dimension before it reads an array into it, and the
    container hands out as many values as were asked for, so that neither
    [read_step] nor [read] ends on a failed [assert], whatever the container
    and the destination frame are. *)
Theorem read_never_fails_an_assert (step : N) (s : AmberRestartFormat * Frame.t) :
  (read_step step s).1 ≠ Err assertion_failure ∧
  (read s).1 ≠ Err assertion_failure.
Proof.
  assert (∀ s, (read_step 0 s).1 ≠ Err assertion_failure) as Hzero.
  { clear. intros [self frame]. rewrite read_step_0.
    destruct (read_cell self) as [cell|e] eqn:Hcell;
      [| intros [= ->]; by eapply read_cell_no_assertion].
    destruct (NcFile.dimension (file_ self) "atom") as [natoms|e] eqn:Hdim;
      [| intros [= ->]; by eapply dimension_no_assertion].
    cbv zeta.
    pose proof (read_array_no_assertion self "coordinates"
      (Frame.positions (Frame.resize natoms (Frame.set_cell cell frame)))
      natoms Hdim (size_resize _ _)) as Hpos.
    pose proof (length_read_array self "coordinates"
      (Frame.positions (Frame.resize natoms (Frame.set_cell cell frame))))
      as Hlen.
    destruct (read_array self "coordinates" _) as [[[]|e] array];
      [| by intros [= ->]].
    cbn [snd] in Hlen.
    destruct (NcFile.variable_exists (file_ self) "velocities"); [| done].
    pose proof (read_array_no_assertion self "velocities"
      (Frame.velocities_span (Frame.add_velocities (Frame.set_positions array
         (Frame.resize natoms (Frame.set_cell cell frame))))) natoms Hdim)
      as Hvel.
    destruct (read_array self "velocities" _) as [[[]|e] array']; [done |].
    intros [= ->]. apply Hvel; [| done].
    apply length_velocities_span. rewrite Hlen. apply size_resize. }
  split.
  - destruct (N.eqb_spec step 0) as [->|Hstep]; [apply Hzero |].
    by rewrite read_step_nonzero.
  - destruct (step_done_ s.1) eqn:Hdone.
    + by rewrite read_consumed.
    + rewrite read_delegates by done. apply Hzero.
Qed.

(** ** The frame a read produces *)

(** The steps of a successful [read_step]. *)
Lemma read_step_ok_inv self dst s' :
  read_step 0 (self, dst) = (Ok tt, s') →
  ∃ cell natoms positions,
    read_cell self = Ok cell ∧
    NcFile.dimension (file_ self) "atom" = Ok natoms ∧
    length positions = N.to_nat natoms ∧
    read_array self "coordinates"
      (Frame.positions (Frame.resize natoms (Frame.set_cell cell dst)))
      = (Ok tt, positions) ∧
    let frame :=
      Frame.set_positions positions (Frame.resize natoms (Frame.set_cell cell dst)) in
    if NcFile.variable_exists (file_ self) "velocities" then
      ∃ velocities,
        length velocities = N.to_nat natoms ∧
        read_array self "velocities"
          (Frame.velocities_span (Frame.add_velocities frame))
          = (Ok tt, velocities) ∧
        s'.2 = Frame.set_velocities velocities (Frame.add_velocities frame)
    else s'.2 = frame.
Proof.
  rewrite read_step_0.
  destruct (read_cell self) as [cell|e]; [| done].
  destruct (NcFile.dimension (file_ self) "atom") as [natoms|e]; [| done].
  cbv zeta.
  pose proof (length_read_array self "coordinates"
    (Frame.positions (Frame.resize natoms (Frame.set_cell cell dst)))) as Hlen.
  destruct (read_array self "coordinates" _) as [[[]|e] positions] eqn:Hpos;
    [| done].
  cbn [snd] in Hlen.
  assert (length positions = N.to_nat natoms) as Hsize.
  { rewrite Hlen. apply size_resize. }
  intros Hrun. exists cell, natoms, positions. split_and!; try done.
  destruct (NcFile.variable_exists (file_ self) "velocities").
  - pose proof (length_read_array self "velocities"
      (Frame.velocities_span (Frame.add_velocities (Frame.set_positions positions
         (Frame.resize natoms (Frame.set_cell cell dst)))))) as Hlen'.
    destruct (read_array self "velocities" _) as [[[]|e] velocities] eqn:Hvel;
      [| done].
    cbn [snd] in Hlen'. exists velocities. split_and!; [| done |].
    + rewrite Hlen'. by apply length_velocities_span.
    + by injection Hrun as <-.
  - by injection Hrun as <-.
Qed.

(** X4: the frame a successful [read_step(0)] or [read()] leaves has as many
    atoms as the [atom] dimension says, every per-atom array of it has that
    size, its cell is the one [read_cell] returns, and it has velocities
    whenever the container has a [velocities] variable. *)
Theorem read_frame_shape (self : AmberRestartFormat) (dst : Frame.t) :
  (read_step 0 (self, dst)).1 = Ok tt →
  let out := (read_step 0 (self, dst)).2.2 in
  ∃ natoms,
    NcFile.dimension (file_ self) "atom" = Ok natoms ∧
    Frame.size out = N.to_nat natoms ∧
    Frame.wf out ∧
    read_cell self = Ok (Frame.cell out) ∧
    (NcFile.variable_exists (file_ self) "velocities" = true →
     is_Some (Frame.velocities out)).
Proof.
  intros Hok out.
  destruct (read_step 0 (self, dst)) as [[[]|e] s'] eqn:Hrun; [| done].
  apply read_step_ok_inv in Hrun
    as (cell & natoms & positions & Hcell & Hdim & Hlen & _ & Hout).
  cbv zeta in Hout. subst out. cbn [snd].
  exists natoms. split; [done |].
  destruct (NcFile.variable_exists (file_ self) "velocities").
  - destruct Hout as (velocities & Hlen' & _ & ->).
    unfold Frame.wf, Frame.size, Frame.add_velocities. cbn.
    split_and!; [| | | eauto].
    + by destruct (Frame.velocities dst).
    + intros array [= <-]. rewrite Hlen'. by destruct (Frame.velocities dst).
    + rewrite Hcell. by destruct (Frame.velocities dst).
  - rewrite Hout. unfold Frame.wf, Frame.size. cbn.
    split_and!; try done.
    destruct (Frame.velocities dst) as [velocities|]; [| done].
    intros array [= <-]. by rewrite length_resize.
Qed.

Lemma read_frame_shape_witness :
  let self := Samples.reader "scaled.ncrst" Samples.scaled in
  let out := (read_step 0 (self, Frame.empty)).2.2 in
  ∃ natoms,
    NcFile.dimension (file_ self) "atom" = Ok natoms ∧
    Frame.size out = N.to_nat natoms ∧
    Frame.wf out ∧
    read_cell self = Ok (Frame.cell out) ∧
    (NcFile.variable_exists (file_ self) "velocities" = true →
     is_Some (Frame.velocities out)).
Proof.
  cbv zeta.
  apply (read_frame_shape (Samples.reader "scaled.ncrst" Samples.scaled) Frame.empty).
  by vm_compute.
Defined.

(** X5: [read_step] never removes velocities from the destination frame.
    When the container has no [velocities] variable, the velocities which the
    destination frame had before the call are still there after a successful
    read, cut or padded with zero vectors to the new number of atoms, next
    to the positions and the cell of the file. *)
Theorem read_keeps_stale_velocities (self : AmberRestartFormat) (dst : Frame.t) :
  NcFile.variable_exists (file_ self) "velocities" = false →
  (read_step 0 (self, dst)).1 = Ok tt →
  ∃ natoms,
    NcFile.dimension (file_ self) "atom" = Ok natoms ∧
    Frame.velocities (read_step 0 (self, dst)).2.2
      = resize (N.to_nat natoms) Vector3D.zero <$> Frame.velocities dst.
Proof.
  intros Hvel Hok.
  destruct (read_step 0 (self, dst)) as [[[]|e] s'] eqn:Hrun; [| done].
  apply read_step_ok_inv in Hrun
    as (cell & natoms & positions & _ & Hdim & _ & _ & Hout).
  cbv zeta in Hout. rewrite Hvel in Hout.
  exists natoms. split; [done |]. cbn [snd]. by rewrite Hout.
Qed.

Lemma read_keeps_stale_velocities_witness :
  let self := Samples.reader "no-cell.ncrst" Samples.no_cell in
  Frame.velocities (read_step 0 (self, Samples.four_atoms)).2.2
    = Some [Vector3D.mk (-3) (-2) (-1)].
Proof.
  cbv zeta.
  destruct (read_keeps_stale_velocities
              (Samples.reader "no-cell.ncrst" Samples.no_cell) Samples.four_atoms)
    as (natoms & Hdim & ->); [reflexivity | by vm_compute |].
  injection Hdim as <-. reflexivity.
Defined.

Lemma read_array_same_length self name (array array' : list Vector3D.t) :
  length array = length array' →
  (read_array self name array).1 = (read_array self name array').1 ∧
  ((read_array self name array).1 = Ok tt →
   (read_array self name array).2 = (read_array self name array').2).
Proof.
  intros Hlen. rewrite !read_array_run, Hlen.
  repeat (case_match; try done).
Qed.

Lemma read_step_same_velocities self dst dst' :
  Frame.velocities dst = Frame.velocities dst' →
  (read_step 0 (self, dst)).1 = (read_step 0 (self, dst')).1 ∧
  ((read_step 0 (self, dst)).1 = Ok tt →
   (read_step 0 (self, dst)).2.2 = (read_step 0 (self, dst')).2.2).
Proof.
  intros Hvel. rewrite !read_step_0.
  destruct (read_cell self) as [cell|e]; [| done].
  destruct (NcFile.dimension (file_ self) "atom") as [natoms|e]; [| done].
  cbv zeta.
  destruct (read_array_same_length self "coordinates"
    (Frame.positions (Frame.resize natoms (Frame.set_cell cell dst)))
    (Frame.positions (Frame.resize natoms (Frame.set_cell cell dst'))))
    as [Hr Ha];
    [transitivity (N.to_nat natoms); [apply size_resize | symmetry; apply size_resize] |].
  pose proof (length_read_array self "coordinates"
    (Frame.positions (Frame.resize natoms (Frame.set_cell cell dst)))) as Hlen.
  destruct (read_array self "coordinates"
    (Frame.positions (Frame.resize natoms (Frame.set_cell cell dst))))
    as [[[]|e] positions];
    destruct (read_array self "coordinates"
      (Frame.positions (Frame.resize natoms (Frame.set_cell cell dst'))))
      as [[[]|e'] positions']; cbn [fst snd] in *; try done.
  specialize (Ha eq_refl). subst positions'.
  assert (length positions = N.to_nat natoms) as Hsize.
  { rewrite Hlen. apply size_resize. }
  destruct (NcFile.variable_exists (file_ self) "velocities").
  - destruct (read_array_same_length self "velocities"
      (Frame.velocities_span (Frame.add_velocities (Frame.set_positions positions
         (Frame.resize natoms (Frame.set_cell cell dst)))))
      (Frame.velocities_span (Frame.add_velocities (Frame.set_positions positions
         (Frame.resize natoms (Frame.set_cell cell dst'))))))
      as [Hr' Ha']; [by rewrite !length_velocities_span |].
    destruct (read_array self "velocities"
      (Frame.velocities_span (Frame.add_velocities (Frame.set_positions positions
         (Frame.resize natoms (Frame.set_cell cell dst))))))
      as [[[]|e] velocities];
      destruct (read_array self "velocities"
        (Frame.velocities_span (Frame.add_velocities (Frame.set_positions positions
           (Frame.resize natoms (Frame.set_cell cell dst'))))))
        as [[[]|e'] velocities']; cbn [fst snd] in *; try done.
    specialize (Ha' eq_refl). subst velocities'. split; [done |]. intros _.
    unfold Frame.set_velocities, Frame.add_velocities. cbn. rewrite Hvel.
    by destruct (Frame.velocities dst').
  - split; [done |]. intros _.
    unfold Frame.set_positions, Frame.resize. cbn. by rewrite Hvel.
Qed.

(** X6: a successful read overwrites the destination. The outcome of
    [read_step(0)], and on success the frame it leaves, do not depend on the
    cell or on the positions which the destination frame had before: two
    destinations with the same velocities give the same result. *)
Theorem read_overwrites_destination (self : AmberRestartFormat)
    (dst dst' : Frame.t) :
  Frame.velocities dst = Frame.velocities dst' →
  (read_step 0 (self, dst)).1 = (read_step 0 (self, dst')).1 ∧
  ((read_step 0 (self, dst)).1 = Ok tt →
   (read_step 0 (self, dst)).2.2 = (read_step 0 (self, dst')).2.2).
Proof. apply read_step_same_velocities. Qed.

Lemma read_overwrites_destination_witness :
  let self := Samples.reader "scaled.ncrst" Samples.scaled in
  (read_step 0 (self, Samples.still)).2.2 = (read_step 0 (self, Frame.empty)).2.2.
Proof.
  cbv zeta.
  apply (read_overwrites_destination
           (Samples.reader "scaled.ncrst" Samples.scaled) Samples.still Frame.empty).
  - reflexivity.
  - by vm_compute.
Defined.

(** ** Warnings *)

(** X7: [is_valid] warns about a negative answer only, and at most once.
    Without an expected atom count (the read path) every negative answer
    comes with exactly one warning of the reader, about the check which
    failed; with an expected atom count (the write path) the first three
    checks fail silently and only a wrong atom dimension is reported, as a
    warning of the writer with the two sizes. *)
Theorem is_valid_warnings (file : NcFile.t) (natoms : N) :
  let answer := (is_valid file natoms).1 in
  let warnings := (is_valid file natoms).2 in
  let dims := NcFile.dimensions (NcFile.content file) in
  (answer ≠ Ok false → warnings = []) ∧
  (natoms = SIZE_MAX → answer = Ok false →
     if negb (conventions_ok file) then
       warnings =
         [warning "Amber Restart reader" "we can only read AMBER convention" []]
     else if negb (version_ok file) then
       warnings =
         [warning "Amber Restart reader"
            "we can only read version 1.0 of AMBER convention" []]
     else
       ∃ spatial, dims !! "spatial" = Some spatial ∧ spatial ≠ 3 ∧
         warnings =
           [warning "Amber Restart reader"
              "wrong size for spatial dimension: should be 3, is {}" [spatial]]) ∧
  (natoms ≠ SIZE_MAX → answer = Ok false →
     if conventions_ok file && version_ok file && spatial_ok file then
       ∃ atom, dims !! "atom" = Some atom ∧ atom ≠ natoms ∧
         warnings =
           [warning "Amber Restart writer"
              "wrong size for atoms dimension: should be {}, is {}" [natoms; atom]]
     else warnings = []).
Proof.
  cbv zeta. unfold is_valid, NcFile.dimension, spatial_ok.
  fold (conventions_ok file) (version_ok file).
  destruct (N.eqb_spec natoms SIZE_MAX) as [Hn|Hn];
    destruct (conventions_ok file), (version_ok file); cbn [negb andb fst snd];
    try (split_and!; by intros).
  - destruct (NcFile.dimensions (NcFile.content file) !! "spatial") as [spatial|];
      [| split_and!; by intros].
    destruct (N.eqb_spec spatial 3) as [->|Hs]; cbn [negb fst snd];
      split_and!; try (by intros). intros _ _. by exists spatial.
  - destruct (NcFile.dimensions (NcFile.content file) !! "spatial") as [spatial|];
      [| split_and!; by intros].
    destruct (N.eqb_spec spatial 3) as [->|Hs]; cbn [negb fst snd].
    + rewrite bool_decide_eq_true_2 by done.
      destruct (NcFile.dimensions (NcFile.content file) !! "atom") as [atom|];
        [| split_and!; by intros].
      destruct (N.eqb_spec atom natoms) as [->|Ha]; cbn [negb fst snd];
        split_and!; try (by intros). intros _ _. by exists atom.
    + rewrite bool_decide_eq_false_2 by congruence.
      split_and!; by intros.
Qed.

Lemma is_valid_warnings_witness :
  (is_valid (Samples.on_disk "empty.ncrst" NcFile.empty) SIZE_MAX).2
    = [warning "Amber Restart reader" "we can only read AMBER convention" []] ∧
  (is_valid (Samples.on_disk "empty.ncrst" NcFile.empty) 4).2 = [] ∧
  ∃ atom, (is_valid (Samples.on_disk "scaled.ncrst" Samples.scaled) 4).2
    = [warning "Amber Restart writer"
         "wrong size for atoms dimension: should be {}, is {}" [4; atom]].
Proof.
  split_and!.
  - apply (proj1 (proj2 (is_valid_warnings
             (Samples.on_disk "empty.ncrst" NcFile.empty) SIZE_MAX)));
      reflexivity.
  - apply (proj2 (proj2 (is_valid_warnings
             (Samples.on_disk "empty.ncrst" NcFile.empty) 4)));
      [discriminate | reflexivity].
  - destruct (proj2 (proj2 (is_valid_warnings
             (Samples.on_disk "scaled.ncrst" Samples.scaled) 4)))
      as (atom & _ & _ & Hw); [discriminate | reflexivity |].
    by exists atom.
Defined.

(** X8: the constructor is silent unless validation fails. It sends no
    warning when it returns a codec, none in write or append mode, and the
    warnings of a construction in read mode are those of [is_valid] with no
    expected atom count: exactly one, of the reader, when the file is
    rejected as invalid. *)
Theorem constructor_warnings disk path mode compression :
  let made := AmberRestartFormat_new disk path mode compression in
  (is_ok made.1 = true → made.2 = []) ∧
  (mode ≠ File.READ → made.2 = []) ∧
  (∀ file, mode = File.READ → NcFile.open disk path mode = Ok file →
     made.2 = (is_valid file SIZE_MAX).2) ∧
  (made.1 = Err (format_error ("invalid AMBER Restart file at '" +:+ path +:+ "'")) →
   ∃ msg args, made.2 = [warning "Amber Restart reader" msg args]).
Proof.
  cbv zeta. unfold AmberRestartFormat_new.
  destruct (NcFile.open disk path mode) as [file|e] eqn:Hopen.
  2:{ split_and!; try by intros. cbn. intros [= ->]. revert Hopen.
      unfold NcFile.open. by repeat case_match. }
  destruct (open_path _ _ _ _ Hopen) as [Hpath Hmode]. rewrite Hmode, Hpath.
  destruct mode.
  - pose proof (is_valid_warnings file SIZE_MAX) as (Hsilent & Hread & _).
    destruct (is_valid file SIZE_MAX) as [[[]|e] warnings] eqn:Hvalid;
      cbn [fst snd] in *.
    + assert (warnings = []) as -> by (by apply Hsilent).
      split_and!; try by intros.
      * intros file' _ [= <-]. by rewrite Hvalid.
      * cbn. case_decide; by intros [=].
    + split_and!; try by intros.
      * intros file' _ [= <-]. by rewrite Hvalid.
      * intros _. specialize (Hread eq_refl eq_refl).
        destruct (negb (conventions_ok file)); [eauto |].
        destruct (negb (version_ok file)); [eauto |].
        destruct Hread as (spatial & _ & _ & ->). eauto.
    + assert (warnings = []) as -> by (by apply Hsilent).
      split_and!; try by intros.
      * intros file' _ [= <-]. by rewrite Hvalid.
      * cbn. intros [= ->].
        pose proof (is_valid_result file SIZE_MAX) as Hresult.
        rewrite Hvalid in Hresult. cbn in Hresult.
        by destruct (reaches_absent _ _).
  - split_and!; by intros.
  - split_and!; try by intros. cbn. case_decide; by intros [=].
Qed.

Lemma constructor_warnings_witness :
  (AmberRestartFormat_new (<["empty.ncrst" := NcFile.empty]> Samples.disk)
     "empty.ncrst" File.READ File.DEFAULT).2
    = [warning "Amber Restart reader" "we can only read AMBER convention" []] ∧
  (AmberRestartFormat_new Samples.disk "scaled.ncrst" File.READ File.DEFAULT).2 = [] ∧
  (AmberRestartFormat_new Samples.disk "scaled.ncrst" File.APPEND File.DEFAULT).2 = [].
Proof.
  split_and!.
  - rewrite (proj1 (proj2 (proj2 (constructor_warnings
               (<["empty.ncrst" := NcFile.empty]> Samples.disk)
               "empty.ncrst" File.READ File.DEFAULT)))
               (Samples.on_disk "empty.ncrst" NcFile.empty)); reflexivity.
  - apply (proj1 (constructor_warnings
             Samples.disk "scaled.ncrst" File.READ File.DEFAULT)).
    by vm_compute.
  - apply (proj1 (proj2 (constructor_warnings
             Samples.disk "scaled.ncrst" File.APPEND File.DEFAULT))).
    discriminate.
Defined.

(** ** The schema of a new file *)

(** X9: on an empty container in the definition phase, whatever its path and
    mode, [initialize] succeeds and leaves, in the data phase, exactly the
    schema of the convention for that number of atoms, with a [velocities]
    variable iff it was asked for. That container passes [is_valid] with the
    atom count (the [assert] of [write]) and without one (the check of the
    constructor in read mode), without a warning. *)
Theorem initialize_empty_container (file : NcFile.t) (natoms : N)
    (with_velocities : bool) :
  NcFile.content file = NcFile.empty →
  NcFile.nc_mode file = NcFile.DEFINE →
  let file' := file_of (NcFile.path file) (NcFile.mode file)
                 (initialized natoms with_velocities) in
  initialize natoms with_velocities file = (Ok tt, file') ∧
  is_valid file' natoms = (Ok true, []) ∧
  is_valid file' SIZE_MAX = (Ok true, []) ∧
  NcFile.variable_exists file' "velocities" = with_velocities ∧
  NcFile.variable_exists file' "coordinates" = true.
Proof.
  destruct file as [path mode phase content]. cbn. intros -> ->.
  assert (∀ count,
    is_valid (file_of path mode (initialized natoms with_velocities)) count
      = is_valid (file_of path File.WRITE (initialized natoms with_velocities)) count)
    as Hext by (intros; by apply is_valid_ext).
  assert (∀ count, count = natoms ∨ count = SIZE_MAX →
    is_valid (file_of path mode (initialized natoms with_velocities)) count
      = (Ok true, [])) as Hvalid.
  { intros count Hcount. rewrite Hext.
    assert ((is_valid (file_of path File.WRITE (initialized natoms with_velocities))
               count).1 = Ok true) as Htrue.
    { destruct Hcount as [-> | ->]; [apply is_valid_initialized |].
      apply is_valid_true_iff, all_checks_true. by split_and!. }
    pose proof (is_valid_true_silent _ _ Htrue) as Hsilent.
    destruct (is_valid _ _) as [answer warnings]. cbn in *. by subst. }
  split_and!.
  - destruct with_velocities; vm_compute; reflexivity.
  - apply Hvalid. by left.
  - apply Hvalid. by right.
  - by destruct with_velocities.
  - by destruct with_velocities.
Qed.

Lemma initialize_empty_container_witness :
  (initialize 4 true (file_ (fresh "tmp.ncrst"))).1 = Ok tt ∧
  is_valid (initialize 4 true (file_ (fresh "tmp.ncrst"))).2 4 = (Ok true, []).
Proof.
  destruct (initialize_empty_container (file_ (fresh "tmp.ncrst")) 4 true)
    as (Hinit & Hvalid & _); [reflexivity | reflexivity |].
  rewrite Hinit. split; [reflexivity | exact Hvalid].
Defined.

(** ** What a write does to the flags *)

Lemma keeps_step_done_bind {A B} (m : M AmberRestartFormat A)
    (k : A → M AmberRestartFormat B) :
  keeps_step_done m → (∀ a, keeps_step_done (k a)) → keeps_step_done (bind m k).
Proof.
  intros Hm Hk s. unfold bind. specialize (Hm s).
  destruct (m s) as [[a|e] s1]; cbn in *; [| done]. by rewrite Hk.
Qed.

Lemma keeps_step_done_on_file {A} (m : M NcFile.t A) : keeps_step_done (on_file m).
Proof. intros s. unfold on_file, zoom. by destruct (m (file_ s)). Qed.

Lemma keeps_step_done_query {A} (q : AmberRestartFormat → result A) :
  keeps_step_done (query q).
Proof. done. Qed.

Lemma keeps_step_done_gets {A} (g : AmberRestartFormat → A) :
  keeps_step_done (gets g).
Proof. done. Qed.

Lemma keeps_step_done_ret {A} (a : A) : keeps_step_done (ret a).
Proof. done. Qed.

Lemma keeps_step_done_assert cond : keeps_step_done (assert cond).
Proof. by destruct cond. Qed.

Lemma keeps_step_done_validated valid :
  keeps_step_done (modify (set_validated_ valid)).
Proof. done. Qed.

Lemma keeps_step_done_write_cell cell : keeps_step_done (write_cell cell).
Proof.
  unfold write_cell.
  repeat (apply keeps_step_done_bind; [| intros ?]);
    auto using keeps_step_done_query, keeps_step_done_on_file.
Qed.

Lemma keeps_step_done_write_array array name :
  keeps_step_done (write_array array name).
Proof.
  unfold write_array.
  apply keeps_step_done_bind; [apply keeps_step_done_query | intros ?].
  apply keeps_step_done_on_file.
Qed.

Lemma consumes_bind {A} (m : M AmberRestartFormat A)
    (k : A → M AmberRestartFormat unit) :
  keeps_step_done m → (∀ a, consumes_on_success (k a)) →
  consumes_on_success (bind m k).
Proof.
  intros Hm Hk s. unfold bind. specialize (Hm s).
  destruct (m s) as [[a|e] s1]; cbn in *; [| done]. by rewrite Hk, Hm.
Qed.

Lemma write_consumes frame : consumes_on_success (write frame).
Proof.
  unfold write.
  apply consumes_bind; [apply keeps_step_done_gets | intros done].
  destruct done; [done |].
  apply consumes_bind; [apply keeps_step_done_gets | intros validated].
  apply consumes_bind.
  { destruct (negb validated); [| apply keeps_step_done_ret].
    repeat (apply keeps_step_done_bind; [| intros ?]);
      auto using keeps_step_done_on_file, keeps_step_done_query,
        keeps_step_done_assert, keeps_step_done_validated. }
  intros _. apply consumes_bind; [apply keeps_step_done_write_cell | intros _].
  apply consumes_bind; [apply keeps_step_done_write_array | intros _].
  apply consumes_bind; [| by intros _].
  destruct (Frame.velocities frame);
    [apply keeps_step_done_write_array | apply keeps_step_done_ret].
Qed.

Lemma write_ok_validated frame self self' :
  write frame self = (Ok tt, self') → validated_ self' = true.
Proof.
  intros (s1 & s2 & s3 & s4 & Hold & Hnew & Hcell & Hpos & Hvel & ->)%write_ok_inv.
  apply write_cell_ok_inv in Hcell as (vl & va & _ & _ & ->).
  apply write_array_ok_inv in Hpos as (vp & _ & ->).
  assert (validated_ s1 = true) as Hs1.
  { destruct (validated_ self) eqn:Hv.
    - by rewrite Hold.
    - destruct Hnew as (s0 & _ & ->); done. }
  destruct (Frame.velocities frame) as [velocities|].
  - by apply write_array_ok_inv in Hvel as (vv & _ & ->).
  - by subst s4.
Qed.

(** X10: [write] consumes the handle only when it succeeds. After a
    successful [write] both [step_done_] and [validated_] are set; after a
    failed one [step_done_] is what it was, whatever was written to the
    container before the failure: a handle whose first [write] failed is not
    marked as consumed. *)
Theorem write_consumes_on_success (frame : Frame.t) (self : AmberRestartFormat) :
  (step_done_ (write frame self).2
     = if is_ok (write frame self).1 then true else step_done_ self) ∧
  (is_ok (write frame self).1 = true → validated_ (write frame self).2 = true).
Proof.
  split.
  - apply write_consumes.
  - destruct (write frame self) as [[[]|e] self'] eqn:Hrun; [| done].
    intros _. by apply (write_ok_validated frame self).
Qed.

Lemma write_consumes_on_success_witness :
  let reader := Samples.reader "no-cell.ncrst" Samples.no_cell in
  (write Samples.still reader).1 = Err (lookup_error "cell_lengths") ∧
  step_done_ (write Samples.still reader).2 = false ∧
  validated_ (write Samples.four_atoms (fresh "tmp.ncrst")).2 = true.
Proof.
  cbv zeta. split_and!.
  - by vm_compute.
  - by rewrite (proj1 (write_consumes_on_success Samples.still
                         (Samples.reader "no-cell.ncrst" Samples.no_cell))).
  - apply (proj2 (write_consumes_on_success Samples.four_atoms (fresh "tmp.ncrst"))).
    by vm_compute.
Defined.

(** ** The writer and scale factors *)

Lemma scale_factor_set_variable f name v name' :
  stored_scale_factor (NcFile.set_variable name v f) name' =
    if decide (name = name') then NcFile.attributes v !! "scale_factor"
    else stored_scale_factor f name'.
Proof.
  unfold stored_scale_factor. cbn. rewrite lookup_insert.
  by case_decide.
Qed.

Lemma no_scale_ret {A} (a : A) : adds_no_scale_factor (ret a).
Proof. by intros f a' f' name attribute [= _ <-]. Qed.

Lemma no_scale_bind {A B} (m : M NcFile.t A) (k : A → M NcFile.t B) :
  adds_no_scale_factor m → (∀ a, adds_no_scale_factor (k a)) →
  adds_no_scale_factor (bind m k).
Proof.
  intros Hm Hk f b f' name attribute (a & f1 & H1 & H2)%bind_ok_inv Hf.
  eapply Hm; [exact H1 |]. eapply Hk; [exact H2 | exact Hf].
Qed.

Lemma no_scale_if {A} (b : bool) (m m' : M NcFile.t A) :
  adds_no_scale_factor m → adds_no_scale_factor m' →
  adds_no_scale_factor (if b then m else m').
Proof. by destruct b. Qed.

Lemma no_scale_update (u : NcFile.t → result NcFile.t) :
  (∀ f f' name attribute, u f = Ok f' →
     stored_scale_factor f' name = Some attribute →
     stored_scale_factor f name = Some attribute) →
  adds_no_scale_factor (update u).
Proof. intros Hu f [] f' name attribute H%update_ok_inv. by apply Hu. Qed.

Lemma no_scale_set_nc_mode m : adds_no_scale_factor (NcFile.set_nc_mode m).
Proof.
  apply no_scale_update. intros f f' name attribute.
  by destruct (NcFile.nc_mode f), m; intros [= <-].
Qed.

Lemma no_scale_add_dimension name size :
  adds_no_scale_factor (NcFile.add_dimension name size).
Proof.
  apply no_scale_update. intros f f' name' attribute. unfold NcFile.in_define.
  by destruct (NcFile.nc_mode f); intros [= <-].
Qed.

Lemma no_scale_add_global_attribute name value :
  adds_no_scale_factor (NcFile.add_global_attribute name value).
Proof.
  apply no_scale_update. intros f f' name' attribute. unfold NcFile.in_define.
  by destruct (NcFile.nc_mode f); intros [= <-].
Qed.

Lemma no_scale_add_variable T name dimensions :
  adds_no_scale_factor (NcFile.add_variable T name dimensions).
Proof.
  apply no_scale_bind; [| intros; apply no_scale_ret].
  apply no_scale_update. intros f f' name' attribute. unfold NcFile.in_define.
  destruct (NcFile.nc_mode f); intros [= <-].
  rewrite scale_factor_set_variable. by case_decide.
Qed.

Lemma no_scale_add_string_attribute {T} (var : NcFile.NcVariable T) name value :
  name ≠ "scale_factor" →
  adds_no_scale_factor (NcFile.add_string_attribute var name value).
Proof.
  intros Hname. apply no_scale_update. intros f f' name' attribute.
  unfold NcFile.find.
  destruct (NcFile.variables _ !! _) as [v|] eqn:Hv; intros [= <-].
  rewrite scale_factor_set_variable. case_decide as Hvar; [| done].
  subst name'. cbn. rewrite lookup_insert_ne by done.
  unfold stored_scale_factor. by rewrite Hv.
Qed.

Lemma no_scale_add_chars var labels :
  adds_no_scale_factor (NcFile.add_chars var labels).
Proof.
  apply no_scale_update. intros f f' name' attribute.
  unfold NcFile.in_data, NcFile.find.
  destruct (NcFile.nc_mode f); [done |].
  destruct (NcFile.variables _ !! _) as [v|] eqn:Hv; intros [= <-].
  rewrite scale_factor_set_variable. case_decide as Hvar; [| done].
  subst name'. cbn. unfold stored_scale_factor. by rewrite Hv.
Qed.

#[local] Hint Resolve no_scale_ret no_scale_if no_scale_set_nc_mode
  no_scale_add_dimension no_scale_add_global_attribute no_scale_add_variable
  no_scale_add_chars : schema.
#[local] Hint Extern 2 (adds_no_scale_factor (bind _ _)) =>
  apply no_scale_bind; [| intros ?] : schema.
#[local] Hint Extern 2 (adds_no_scale_factor (NcFile.add_string_attribute _ _ _)) =>
  apply no_scale_add_string_attribute; discriminate : schema.

Lemma no_scale_initialize natoms with_velocities :
  adds_no_scale_factor (initialize natoms with_velocities).
Proof. unfold initialize. auto 40 with schema. Qed.

Lemma scale_factor_with_data f name v data name' :
  NcFile.variables (NcFile.content f) !! name = Some v →
  stored_scale_factor (NcFile.set_variable name (with_data data v) f) name'
    = stored_scale_factor f name'.
Proof.
  intros Hv. rewrite scale_factor_set_variable. case_decide as Hname; [| done].
  subst name'. unfold stored_scale_factor. by rewrite Hv.
Qed.

Lemma write_keeps_scale_factors frame self self' name :
  write frame self = (Ok tt, self') →
  ∀ attribute,
    stored_scale_factor (file_ self') name = Some attribute →
    stored_scale_factor (file_ self) name = Some attribute.
Proof.
  intros (s1 & s2 & s3 & s4 & Hold & Hnew & Hcell & Hpos & Hvel & ->)%write_ok_inv.
  intros attribute.
  apply write_cell_ok_inv in Hcell as (vl & va & Hvl & Hva & ->).
  apply write_array_ok_inv in Hpos as (vp & Hvp & ->).
  change (file_ (set_step_done_ true s4)) with (file_ s4).
  assert (stored_scale_factor (file_ s4) name = stored_scale_factor (file_ s1) name)
    as ->.
  { destruct (Frame.velocities frame) as [velocities|].
    - apply write_array_ok_inv in Hvel as (vv & Hvv & ->). cbn [file_ set_file_] in *.
      rewrite scale_factor_with_data by done.
      rewrite scale_factor_with_data by done.
      rewrite scale_factor_with_data by (cbn; by rewrite lookup_insert_ne).
      by rewrite scale_factor_with_data.
    - subst s4. cbn [file_ set_file_] in *.
      rewrite scale_factor_with_data by done.
      rewrite scale_factor_with_data by (cbn; by rewrite lookup_insert_ne).
      by rewrite scale_factor_with_data. }
  destruct (validated_ self) eqn:Hv.
  - by rewrite Hold.
  - destruct Hnew as (s0 & Hinit & ->); [done |].
    apply on_file_ok_inv in Hinit as (file' & Hinit & ->).
    cbn [file_ set_file_ set_validated_].
    by apply (no_scale_initialize _ _ _ _ _ _ _ Hinit).
Qed.

(** X11: the writer never produces a [scale_factor]. Whatever the handle,
    a variable which has a scale factor after a successful [write] had the
    same one before it; a file which is written through a fresh handle has
    no scale factor at all, so that its stored values are read back as they
    are. *)
Theorem write_adds_no_scale_factor :
  (∀ frame self self' name attribute,
     write frame self = (Ok tt, self') →
     stored_scale_factor (file_ self') name = Some attribute →
     stored_scale_factor (file_ self) name = Some attribute) ∧
  (∀ frame path self' name,
     write frame (fresh path) = (Ok tt, self') →
     stored_scale_factor (file_ self') name = None).
Proof.
  split.
  - intros frame self self' name attribute Hwrite.
    by apply (write_keeps_scale_factors frame self self' name).
  - intros frame path self' name Hwrite.
    destruct (stored_scale_factor (file_ self') name) as [attribute|] eqn:Hs;
      [| done].
    by apply (write_keeps_scale_factors _ _ _ _ Hwrite) in Hs.
Qed.

Lemma write_adds_no_scale_factor_witness :
  stored_scale_factor
    (file_ (write Samples.four_atoms (fresh "tmp.ncrst")).2) "coordinates" = None.
Proof.
  apply (proj2 write_adds_no_scale_factor Samples.four_atoms "tmp.ncrst").
  by vm_compute.
Defined.

(** ** Arrays, written and read *)

Lemma group3_scaled_flatten s array :
  group3 (scaled s <$> flatten array) = scaled_vector s <$> array.
Proof.
  induction array as [|[x y z] array IH]; [done |].
  rewrite flatten_cons, fmap_app. cbn. by rewrite IH.
Qed.

Lemma flatten_lookup array i k :
  (i < length array)%nat → (k < 3)%nat →
  flatten array !! (3 * i + k)%nat = Some (Vector3D.get (array !!! i) k).
Proof.
  revert i. induction array as [|[x y z] array IH]; intros i Hi Hk;
    [cbn in Hi; lia |].
  destruct i as [|i].
  - by destruct k as [|[|[|k]]]; [| | | lia].
  - rewrite flatten_cons.
    replace (3 * S i + k)%nat with (3 + (3 * i + k))%nat by lia.
    cbn in Hi. cbn [components app Nat.add lookup list_lookup].
    change ((Vector3D.mk x y z :: array) !!! S i) with (array !!! i).
    apply IH; lia.
Qed.

Lemma write_array_then_read self name v s (array dst : list Vector3D.t) :
  let f := file_ self in
  NcFile.nc_mode f = NcFile.DATA →
  NcFile.variables (NcFile.content f) !! name = Some v →
  NcFile.type_of (NcFile.data v) = NcDouble →
  NcFile.shape f v = Ok [N.of_nat (length array); 3] →
  NcFile.dimension f "atom" = Ok (N.of_nat (length array)) →
  NcFile.attributes v !! "scale_factor" = NcFile.NumberAttribute <$> s →
  length dst = length array →
  ∃ self',
    write_array array name self = (Ok tt, self') ∧
    stores (file_ self') name (flatten array) ∧
    read_array self' name dst = (Ok tt, scaled_vector s <$> array).
Proof.
  intros f Hmode Hv Htype Hshape Hdim Hs Hlen.
  eexists. split; [by apply (write_array_ok array name self v) |].
  split; [by apply stores_set_variable |].
  rewrite (read_array_ok _ name dst (N.of_nat (length array)) (flatten array) s).
  - by rewrite group3_scaled_flatten.
  - done.
  - by rewrite Nat2N.id.
  - apply (get_array _ name (with_data (NcFile.Doubles (flatten array)) v));
      try done. cbn. by rewrite lookup_insert_eq.
  - unfold stored_scale_factor. cbn. by rewrite lookup_insert_eq.
Qed.

(** X12: [write_array] and [read_array] on one variable. On a declared
    variable of shape [atom, spatial], [write_array] stores the flat buffer
    in which the value at [3i + k] is component [k] of atom [i], and a
    [read_array] of that variable into an array of the same size then gives
    every vector back with each component multiplied by the variable's
    scale factor, if it has one: the array itself when it has none. *)
Theorem write_array_read_array self name v s (array dst : list Vector3D.t) :
  let f := file_ self in
  NcFile.nc_mode f = NcFile.DATA →
  NcFile.variables (NcFile.content f) !! name = Some v →
  NcFile.type_of (NcFile.data v) = NcDouble →
  NcFile.shape f v = Ok [N.of_nat (length array); 3] →
  NcFile.dimension f "atom" = Ok (N.of_nat (length array)) →
  NcFile.attributes v !! "scale_factor" = NcFile.NumberAttribute <$> s →
  length dst = length array →
  ∃ self',
    write_array array name self = (Ok tt, self') ∧
    stores (file_ self') name (flatten array) ∧
    (∀ i k, (i < length array)%nat → (k < 3)%nat →
       flatten array !! (3 * i + k)%nat = Some (Vector3D.get (array !!! i) k)) ∧
    read_array self' name dst = (Ok tt, scaled_vector s <$> array) ∧
    (s = None → read_array self' name dst = (Ok tt, array)).
Proof.
  intros f Hmode Hv Htype Hshape Hdim Hs Hlen.
  destruct (write_array_then_read self name v s array dst)
    as (self' & Hwrite & Hstores & Hread); try done.
  exists self'. split_and!; try done.
  - intros i k. apply flatten_lookup.
  - intros ->. rewrite Hread. f_equal.
    rewrite <- (list_fmap_id array) at 2. apply list_fmap_ext.
    by intros i [x y z] _.
Qed.

Lemma write_array_read_array_witness :
  let self := Samples.reader "scaled.ncrst" Samples.scaled in
  let array := [Vector3D.mk 2 4 6; Vector3D.mk 8 10 12]%float in
  ∃ self',
    write_array array "coordinates" self = (Ok tt, self') ∧
    read_array self' "coordinates" (replicate 2 Vector3D.zero)
      = (Ok tt, scaled_vector (Some 0.5%float) <$> array).
Proof.
  cbv zeta.
  destruct (write_array_read_array (Samples.reader "scaled.ncrst" Samples.scaled)
              "coordinates"
              {| NcFile.dims := ["atom"; "spatial"];
                 NcFile.attributes := Samples.scaled_units "angstrom" 0.5;
                 NcFile.data := NcFile.Doubles [1; 2; 3; 4; 5; 6]%float |}
              (Some 0.5%float)
              [Vector3D.mk 2 4 6; Vector3D.mk 8 10 12]%float
              (replicate 2 Vector3D.zero))
    as (self' & Hwrite & _ & _ & Hread & _); try reflexivity.
  exists self'. split; [exact Hwrite | exact Hread].
Defined.

(** ** Reading, writing again and reading *)

Lemma read_step_ok_wf self dst s' :
  read_step 0 (self, dst) = (Ok tt, s') → Frame.wf s'.2.
Proof.
  intros (cell & natoms & positions & _ & _ & Hlen & _ & Hout)%read_step_ok_inv.
  cbv zeta in Hout.
  destruct (NcFile.variable_exists (file_ self) "velocities").
  - destruct Hout as (velocities & Hlen' & _ & ->).
    unfold Frame.wf, Frame.size, Frame.add_velocities. cbn.
    intros array. destruct (Frame.velocities dst); cbn; intros [= <-]; congruence.
  - rewrite Hout. unfold Frame.wf, Frame.size. cbn.
    destruct (Frame.velocities dst) as [velocities|]; [| done].
    intros array [= <-]. by rewrite length_resize.
Qed.

Lemma read_ok_wf s s' : read s = (Ok tt, s') → Frame.wf s'.2.
Proof.
  destruct (step_done_ s.1) eqn:Hdone; [by rewrite read_consumed |].
  rewrite read_delegates by done. destruct s. apply read_step_ok_wf.
Qed.

(** X13: what was read can be written, and reads back the same. Any frame
    which a successful [read()] left can be written through a fresh handle;
    the container written has no scale factor - the values which were read
    through one are stored as they were read - and reading that container
    into a frame without velocities gives the frame again. *)
Theorem read_write_read disk path (s s' : AmberRestartFormat * Frame.t)
    (dst : Frame.t) :
  read s = (Ok tt, s') →
  Frame.velocities dst = None →
  ∃ writer reader,
    write s'.2 (fresh path) = (Ok tt, writer) ∧
    (∀ name, stored_scale_factor (file_ writer) name = None) ∧
    stores (file_ writer) "coordinates" (flatten (Frame.positions s'.2)) ∧
    AmberRestartFormat_new (NcFile.close (file_ writer) disk)
      path File.READ File.DEFAULT = (Ok reader, []) ∧
    (read (reader, dst)).1 = Ok tt ∧
    (read (reader, dst)).2.2 = s'.2.
Proof.
  intros Hread Hdst. pose proof (read_ok_wf _ _ Hread) as Hwf.
  eexists _, _. split; [by apply write_fresh |].
  split_and!.
  - intros name.
    destruct (stored_scale_factor _ name) as [attribute|] eqn:Hs; [| done].
    by apply (write_keeps_scale_factors _ _ _ _ (write_fresh path _ Hwf)) in Hs.
  - exists (with_data (NcFile.Doubles (flatten (Frame.positions s'.2)))
              (variable_of NcDouble ["atom"; "spatial"] "angstrom")).
    split; [| done]. cbn. by destruct (Frame.velocities s'.2).
  - apply new_read_written.
  - by rewrite read_written.
  - by rewrite read_written.
Qed.

Lemma read_write_read_witness :
  let s := (Samples.reader "scaled.ncrst" Samples.scaled, Frame.empty) in
  ∃ writer reader,
    write (read s).2.2 (fresh "tmp.ncrst") = (Ok tt, writer) ∧
    stores (file_ writer) "coordinates" [0.5; 1; 1.5; 2; 2.5; 3]%float ∧
    AmberRestartFormat_new (NcFile.close (file_ writer) Samples.disk)
      "tmp.ncrst" File.READ File.DEFAULT = (Ok reader, []) ∧
    (read (reader, Frame.empty)).2.2 = (read s).2.2.
Proof.
  cbv zeta.
  destruct (read_write_read Samples.disk "tmp.ncrst"
              (Samples.reader "scaled.ncrst" Samples.scaled, Frame.empty)
              (read (Samples.reader "scaled.ncrst" Samples.scaled, Frame.empty)).2
              Frame.empty)
    as (writer & reader & Hwrite & _ & Hstores & Hopen & _ & Hback).
  - by vm_compute.
  - reflexivity.
  - exists writer, reader.
    split; [exact Hwrite |]. split; [| split; [exact Hopen | exact Hback]].
    destruct Hstores as (v & Hv & Hdata). exists v. split; [exact Hv |].
    rewrite Hdata. by vm_compute.
Defined.

(** ** The cell, written and read *)

(** X14: [write_cell] and [read_cell] on one handle. Where the two cell
    variables are declared as doubles over dimensions of size 3,
    [write_cell] stores the three lengths and the three angles, and
    [read_cell] then returns the cell whose lengths and angles went through
    the scale factor of their variable, if any: the cell itself when there
    is none. *)
Theorem write_cell_read_cell self cell vl va sl sa :
  let f := file_ self in
  NcFile.nc_mode f = NcFile.DATA →
  NcFile.variables (NcFile.content f) !! "cell_lengths" = Some vl →
  NcFile.variables (NcFile.content f) !! "cell_angles" = Some va →
  NcFile.type_of (NcFile.data vl) = NcDouble →
  NcFile.type_of (NcFile.data va) = NcDouble →
  NcFile.shape f vl = Ok [3] → NcFile.shape f va = Ok [3] →
  NcFile.dimensions (NcFile.content f) !! "cell_spatial" = Some 3 →
  NcFile.dimensions (NcFile.content f) !! "cell_angular" = Some 3 →
  NcFile.attributes vl !! "scale_factor" = NcFile.NumberAttribute <$> sl →
  NcFile.attributes va !! "scale_factor" = NcFile.NumberAttribute <$> sa →
  ∃ self',
    write_cell cell self = (Ok tt, self') ∧
    read_cell self' =
      Ok (UnitCell.mk
            (scaled sl (UnitCell.a cell)) (scaled sl (UnitCell.b cell))
            (scaled sl (UnitCell.c cell)) (scaled sa (UnitCell.alpha cell))
            (scaled sa (UnitCell.beta cell)) (scaled sa (UnitCell.gamma cell))) ∧
    (sl = None → sa = None → read_cell self' = Ok cell).
Proof.
  intros f Hmode Hvl Hva Htl Hta Hshl Hsha Hds Hda Hsl Hsa.
  eexists. split; [by apply (write_cell_ok cell self vl va) |].
  set (self' := set_file_ _ self).
  assert (read_cell self' =
    Ok (UnitCell.mk
          (scaled sl (UnitCell.a cell)) (scaled sl (UnitCell.b cell))
          (scaled sl (UnitCell.c cell)) (scaled sa (UnitCell.alpha cell))
          (scaled sa (UnitCell.beta cell)) (scaled sa (UnitCell.gamma cell))))
    as Hread.
  { apply read_cell_ok; try done.
    - apply (get_ok _ "cell_lengths"
               (with_data (NcFile.Doubles
                  [UnitCell.a cell; UnitCell.b cell; UnitCell.c cell]) vl)
               [UnitCell.a cell; UnitCell.b cell; UnitCell.c cell] [0] [3]);
        try done.
      cbn. rewrite lookup_insert_ne by done. by rewrite lookup_insert_eq.
    - apply (get_ok _ "cell_angles"
               (with_data (NcFile.Doubles
                  [UnitCell.alpha cell; UnitCell.beta cell; UnitCell.gamma cell]) va)
               [UnitCell.alpha cell; UnitCell.beta cell; UnitCell.gamma cell]
               [0] [3]); try done.
      cbn. by rewrite lookup_insert_eq.
    - unfold stored_scale_factor. cbn.
      rewrite lookup_insert_ne by done. by rewrite lookup_insert_eq.
    - unfold stored_scale_factor. cbn. by rewrite lookup_insert_eq. }
  split; [exact Hread |].
  intros -> ->. rewrite Hread. by destruct cell.
Qed.

Lemma write_cell_read_cell_witness :
  let self := Samples.reader "scaled.ncrst" Samples.scaled in
  ∃ self',
    write_cell (UnitCell.mk 10 20 30 90 90 120) self = (Ok tt, self') ∧
    read_cell self' =
      Ok (UnitCell.mk (10 * to_single 1.765) (20 * to_single 1.765)
            (30 * to_single 1.765) 90 90 120).
Proof.
  cbv zeta.
  destruct (write_cell_read_cell (Samples.reader "scaled.ncrst" Samples.scaled)
              (UnitCell.mk 10 20 30 90 90 120)
              {| NcFile.dims := ["cell_spatial"];
                 NcFile.attributes := Samples.scaled_units "angstrom" 1.765;
                 NcFile.data := NcFile.Doubles [60.9682; 60.9682; 0]%float |}
              {| NcFile.dims := ["cell_angular"];
                 NcFile.attributes := Samples.units "degree";
                 NcFile.data := NcFile.Doubles [90; 90; 90]%float |}
              (Some 1.765%float) None)
    as (self' & Hwrite & Hread & _); try reflexivity.
  exists self'. split; [exact Hwrite | exact Hread].
Defined.

(** ** Writing through a validated handle *)

Lemma write_validated_no_lengths frame self :
  step_done_ self = false → validated_ self = true →
  NcFile.variable_exists (file_ self) "cell_lengths" = false →
  write frame self = (Err (lookup_error "cell_lengths"), self).
Proof.
  intros Hdone Hvalid Hvar. unfold write.
  rewrite bind_gets, Hdone. cbv beta iota.
  rewrite bind_gets, Hvalid. cbn [negb]. cbv beta iota.
  erewrite bind_ok by reflexivity.
  apply bind_err. unfold write_cell.
  apply bind_err. unfold query, NcFile.variable.
  apply bool_decide_eq_false in Hvar.
  destruct (NcFile.variables _ !! "cell_lengths"); [| done].
  destruct Hvar. eauto.
Qed.

Lemma write_validated_schema frame self self' :
  validated_ self = true →
  write frame self = (Ok tt, self') →
  NcFile.dimensions (NcFile.content (file_ self'))
    = NcFile.dimensions (NcFile.content (file_ self)) ∧
  NcFile.global_attributes (NcFile.content (file_ self'))
    = NcFile.global_attributes (NcFile.content (file_ self)) ∧
  ∀ name,
    name ∉ ["cell_lengths"; "cell_angles"; "coordinates"; "velocities"] →
    NcFile.variables (NcFile.content (file_ self')) !! name
      = NcFile.variables (NcFile.content (file_ self)) !! name.
Proof.
  intros Hvalid
    (s1 & s2 & s3 & s4 & Hold & _ & Hcell & Hpos & Hvel & ->)%write_ok_inv.
  rewrite (Hold Hvalid) in Hcell. clear Hold s1.
  apply write_cell_ok_inv in Hcell as (vl & va & _ & _ & ->).
  apply write_array_ok_inv in Hpos as (vp & _ & ->).
  assert (∀ name, name ∉ ["cell_lengths"; "cell_angles"; "coordinates"; "velocities"] →
    name ≠ "cell_lengths" ∧ name ≠ "cell_angles" ∧ name ≠ "coordinates" ∧
    name ≠ "velocities") as Hnames.
  { intros name Hname. split_and!; intros ->; apply Hname; set_solver. }
  destruct (Frame.velocities frame) as [velocities|].
  - apply write_array_ok_inv in Hvel as (vv & _ & ->). cbn.
    split_and!; try done. intros name (? & ? & ? & ?)%Hnames.
    by rewrite !lookup_insert_ne.
  - subst s4. cbn.
    split_and!; try done. intros name (? & ? & ? & ?)%Hnames.
    by rewrite !lookup_insert_ne.
Qed.

(** X15: a handle which is already validated is never initialized again.
    Writing through it into a container without a [cell_lengths] variable
    fails with the lookup error of that name and changes nothing; and when
    the write succeeds, the dimensions, the global attributes and every
    variable other than the two cell variables, the coordinates and the
    velocities are what they were. *)
Theorem write_validated_handle (frame : Frame.t) (self : AmberRestartFormat) :
  validated_ self = true →
  (step_done_ self = false →
   NcFile.variable_exists (file_ self) "cell_lengths" = false →
   write frame self = (Err (lookup_error "cell_lengths"), self)) ∧
  (∀ self',
     write frame self = (Ok tt, self') →
     NcFile.dimensions (NcFile.content (file_ self'))
       = NcFile.dimensions (NcFile.content (file_ self)) ∧
     NcFile.global_attributes (NcFile.content (file_ self'))
       = NcFile.global_attributes (NcFile.content (file_ self)) ∧
     ∀ name,
       name ∉ ["cell_lengths"; "cell_angles"; "coordinates"; "velocities"] →
       NcFile.variables (NcFile.content (file_ self')) !! name
         = NcFile.variables (NcFile.content (file_ self)) !! name).
Proof.
  intros Hvalid. split.
  - intros Hdone Hvar. by apply write_validated_no_lengths.
  - intros self'. by apply write_validated_schema.
Qed.

Lemma write_validated_handle_witness :
  let self := Samples.reader "no-cell.ncrst" Samples.no_cell in
  write Samples.still self = (Err (lookup_error "cell_lengths"), self).
Proof.
  cbv zeta.
  apply (proj1 (write_validated_handle Samples.still
                  (Samples.reader "no-cell.ncrst" Samples.no_cell) eq_refl));
    reflexivity.
Defined.
